(** * build_docs.py: a shallow embedding and its properties

    The script builds the Python documentation for several branches and
    languages, publishes the result under a web root and purges the CDN
    cache for what changed.  This development embeds the functions of
    [build_docs.py] and proves what they do.

    - Pure helpers ([pep_545_tag_to_gettext_tag], [locate_nearest_version],
      [changed_files] over directory trees) are plain functions.
    - Everything that touches the outside world (sub-processes, the file
      system, logging, the telemetry sink) runs in a state-and-exception
      monad over an abstract environment; every effect is recorded in a
      trace so that statements can speak about what was executed. *)

From Stdlib Require Import ZArith String Ascii List Bool Lia.
From Stdlib Require Import DecimalString DecimalPos.
Import ListNotations.

Set Warnings "-register-all".

Local Open Scope string_scope.
Local Open Scope list_scope.

(** String concatenation, Python's [+] on [str]; [++] stays list append. *)
Infix "+++" := String.append (right associativity, at level 60).

(** ** Python strings

    Strings are ASCII text, one character a byte: [upper], [int] and the
    white space are Python's on such text, and say nothing of other
    characters. *)

Module PyStr.

Definition nl : ascii := "010"%char.

(** [s.split(sep)] for a one-character separator: never returns the
    empty list, and keeps empty fields. *)
Fixpoint split (sep : ascii) (s : string) : list string :=
  match s with
  | EmptyString => [EmptyString]
  | String c s' =>
      if Ascii.eqb c sep then EmptyString :: split sep s'
      else match split sep s' with
           | h :: t => String c h :: t
           | [] => [String c EmptyString]
           end
  end.

(** [sep.join(parts)]. *)
Definition join (sep : string) (parts : list string) : string :=
  String.concat sep parts.

(** [sep in s] for a one-character [sep]. *)
Fixpoint contains (sep : ascii) (s : string) : bool :=
  match s with
  | EmptyString => false
  | String c s' => Ascii.eqb c sep || contains sep s'
  end.

Definition upper_char (c : ascii) : ascii :=
  let n := nat_of_ascii c in
  if (97 <=? n)%nat && (n <=? 122)%nat then ascii_of_nat (n - 32) else c.

(** [s.upper()] on ASCII text; bytes outside [a-z] are left as they are. *)
Fixpoint upper (s : string) : string :=
  match s with
  | EmptyString => EmptyString
  | String c s' => String (upper_char c) (upper s')
  end.

Definition is_digit (c : ascii) : bool :=
  let n := nat_of_ascii c in (48 <=? n)%nat && (n <=? 57)%nat.

Definition digit_val (c : ascii) : Z := Z.of_nat (nat_of_ascii c) - 48.

(** White space as [int()] strips it from ASCII text: tab to carriage
    return, and the space. *)
Definition is_space (c : ascii) : bool :=
  let n := nat_of_ascii c in
  ((9 <=? n)%nat && (n <=? 13)%nat) || (n =? 32)%nat.

Fixpoint lstrip (s : string) : string :=
  match s with
  | EmptyString => EmptyString
  | String c s' => if is_space c then lstrip s' else s
  end.

Fixpoint rstrip (s : string) : string :=
  match s with
  | EmptyString => EmptyString
  | String c s' =>
      match rstrip s' with
      | EmptyString => if is_space c then EmptyString else String c EmptyString
      | r => String c r
      end
  end.

Definition strip (s : string) : string := rstrip (lstrip s).

(** The digits of a decimal literal: one or more digits, single
    underscores allowed between two digits.  [after_digit] tells whether
    the previous character was a digit. *)
Fixpoint digits_val (acc : Z) (after_digit : bool) (s : string) : option Z :=
  match s with
  | EmptyString => if after_digit then Some acc else None
  | String c s' =>
      if is_digit c then digits_val (10 * acc + digit_val c) true s'
      else if Ascii.eqb c "_" && after_digit then
             match s' with
             | EmptyString => None
             | String d _ => if is_digit d then digits_val acc false s' else None
             end
           else None
  end.

(** [int(s)] in base ten: surrounding white space, an optional sign,
    then the digits.  [None] stands for [ValueError]. *)
Definition int (s : string) : option Z :=
  match strip s with
  | EmptyString => None
  | String c rest =>
      if Ascii.eqb c "-" then option_map Z.opp (digits_val 0 false rest)
      else if Ascii.eqb c "+" then digits_val 0 false rest
      else digits_val 0 false (String c rest)
  end.

(** [str(n)] of an integer. *)
Definition str (n : Z) : string := NilZero.string_of_int (Z.to_int n).

(** [s.replace(old, new)] for a non-empty [old]: occurrences are taken
    from the left and do not overlap; [skip] counts the characters of an
    occurrence still to be dropped. *)
Fixpoint replace_from (old new : string) (skip : nat) (s : string) : string :=
  match s with
  | EmptyString => EmptyString
  | String c s' =>
      match skip with
      | S k => replace_from old new k s'
      | O =>
          if prefix old s
          then new +++ replace_from old new (String.length old - 1) s'
          else String c (replace_from old new 0 s')
      end
  end.

Definition replace (old new s : string) : string := replace_from old new 0 s.

(** Truth value of a string. *)
Definition truthy (s : string) : bool :=
  match s with EmptyString => false | _ => true end.

End PyStr.

(** ** Exceptions and results *)

(** The subclasses of [OSError] the file-system calls of the script raise. *)
Inductive os_error : Type :=
| FileNotFoundError
| FileExistsError
| NotADirectoryError
| PermissionError
| OtherOSError.

(** The exceptions that occur in the script.  All are subclasses of
    [Exception] except [SystemExit]. *)
Inductive exn : Type :=
| AssertionError
| CalledProcessError
| IndexError
| ValueError
| AttributeError
| KeyError
| OSError (e : os_error)
| SystemExit (code : Z).

Definition is_Exception (e : exn) : bool :=
  match e with
  | SystemExit _ => false
  | _ => true
  end.

Inductive result (A : Type) : Type :=
| Ok (a : A)
| Raise (e : exn).
Arguments Ok {A} a.
Arguments Raise {A} e.

(** ** pep_545_tag_to_gettext_tag *)

(** [language, region = tag.split("-")] needs exactly two fields; any
    other number is a [ValueError]. *)
Definition pep_545_tag_to_gettext_tag (tag : string) : result string :=
  if negb (PyStr.contains "-" tag) then Ok tag
  else match PyStr.split "-" tag with
       | [language; region] => Ok (language +++ "_" +++ PyStr.upper region)
       | _ => Raise ValueError
       end.

(** ** locate_nearest_version *)

(** A version tuple, [(3, 7)] for 3.7. *)
Definition version_tuple := list Z.

(** [a < b] on tuples of integers: the first differing component
    decides; a proper prefix is smaller. *)
Fixpoint tuple_ltb (a b : version_tuple) : bool :=
  match a, b with
  | _, [] => false
  | [], _ :: _ => true
  | x :: a', y :: b' =>
      if (x <? y)%Z then true
      else if (y <? x)%Z then false
      else tuple_ltb a' b'
  end.

Definition tuple_leb (a b : version_tuple) : bool := negb (tuple_ltb b a).

(** [bisect.bisect_left(a, x)]: the loop
    [while lo < hi: mid = (lo + hi) // 2; if a[mid] < x: lo = mid + 1 else: hi = mid].
    Every turn shrinks [hi - lo], so [length a] turns are enough. *)
Fixpoint bisect_loop (fuel : nat) (a : list version_tuple) (x : version_tuple)
  (lo hi : nat) : nat :=
  match fuel with
  | O => lo
  | S fuel' =>
      if (lo <? hi)%nat then
        let mid := ((lo + hi) / 2)%nat in
        if tuple_ltb (nth mid a []) x
        then bisect_loop fuel' a x (mid + 1) hi
        else bisect_loop fuel' a x lo mid
      else lo
  end.

Definition bisect (a : list version_tuple) (x : version_tuple) : nat :=
  bisect_loop (length a) a x 0 (length a).

(** A comprehension whose body may raise: the first failure wins. *)
Fixpoint map_result {A B : Type} (f : A -> result B) (l : list A) : result (list B) :=
  match l with
  | [] => Ok []
  | a :: l' =>
      match f a with
      | Raise e => Raise e
      | Ok b =>
          match map_result f l' with
          | Raise e => Raise e
          | Ok bs => Ok (b :: bs)
          end
      end
  end.

Definition int_part (part : string) : result Z :=
  match PyStr.int part with
  | Some n => Ok n
  | None => Raise ValueError
  end.

Definition version_to_tuple (version : string) : result version_tuple :=
  map_result int_part (PyStr.split "." version).

Definition tuple_to_version (version_tuple : version_tuple) : string :=
  PyStr.join "." (map PyStr.str version_tuple).

(** [l[i]] for [i >= 0]; [None] stands for [IndexError]. *)
Definition list_index {A : Type} (l : list A) (i : nat) : option A := nth_error l i.

(** [l[-1]]. *)
Definition list_last {A : Type} (l : list A) : option A :=
  match l with
  | [] => None
  | _ => nth_error l (length l - 1)
  end.

Definition locate_nearest_version (available_versions : list string)
  (target_version : string) : result string :=
  match map_result version_to_tuple available_versions with
  | Raise e => Raise e
  | Ok available_versions_tuples =>
      match version_to_tuple target_version with
      | Raise e => Raise e
      | Ok target_version_tuple =>
          match list_index available_versions_tuples
                  (bisect available_versions_tuples target_version_tuple) with
          | Some found => Ok (tuple_to_version found)
          | None =>
              (* except IndexError: *)
              match list_last available_versions_tuples with
              | Some found => Ok (tuple_to_version found)
              | None => Raise IndexError
              end
          end
      end
  end.

(** ** Directory trees and changed_files *)

(** What [os.stat] and reading give for a regular file: [filecmp] looks at
    the size, the modification time and, when needed, the content. *)
Record file_stat : Type := { st_mtime : Z; content : string }.

Definition st_size (f : file_stat) : nat := String.length (content f).

(** A directory entry, as [os.stat] (which follows links) classifies it:
    a regular file, a directory, or anything else (a FIFO, a device, a
    dangling link).  The entries of a directory are listed in the order
    [dircmp] visits them, which is the sorted order of the names. *)
Inductive node : Type :=
| File (f : file_stat)
| Dir (entries : list (string * node))
| Special.

Fixpoint lookup (name : string) (entries : list (string * node)) : option node :=
  match entries with
  | [] => None
  | (n, x) :: rest => if String.eqb n name then Some x else lookup name rest
  end.

(** [filecmp.DEFAULT_IGNORES] and the default [hide] list of [dircmp]. *)
Definition DEFAULT_IGNORES : list string :=
  ["RCS"; "CVS"; "tags"; ".git"; ".hg"; ".bzr"; "_darcs"; "__pycache__"].

Definition dircmp_hide : list string := ["."; ".."].

(** Names [dircmp] filters out of both listings. *)
Definition skipped (name : string) : bool :=
  existsb (String.eqb name) (dircmp_hide ++ DEFAULT_IGNORES).

(** [filecmp.cmp(f1, f2)] with the default [shallow=True] on two regular
    files: equal signatures (size and modification time) are enough to be
    the same; otherwise sizes, then contents, are compared. *)
Definition cmp (a b : file_stat) : bool :=
  if (st_size a =? st_size b)%nat && (st_mtime a =? st_mtime b)%Z then true
  else if negb (st_size a =? st_size b)%nat then false
  else String.eqb (content a) (content b).

(** [str(base / file)]. *)
Definition rel_path (base : list string) (file : string) : string :=
  PyStr.join "/" (base ++ [file]).

(** [dircmp_result.diff_files]: the names present in both directories as
    regular files that [cmp] tells apart. *)
Fixpoint diff_files (left right : list (string * node)) : list string :=
  match left with
  | [] => []
  | (name, x) :: rest =>
      let here :=
        if skipped name then []
        else match x, lookup name right with
             | File a, Some (File b) => if cmp a b then [] else [name]
             | _, _ => []
             end in
      here ++ diff_files rest right
  end.

(** The inner [traverse] of [changed_files], in the order it extends
    [changed]: the differing files of this directory, then every common
    sub-directory in turn.  [base] is the path from the root of the
    comparison, one component per element. *)
Fixpoint traverse (base : list string) (left : node) (right : list (string * node))
  {struct left} : list string :=
  match left with
  | Dir entries =>
      map (rel_path base) (diff_files entries right)
      ++ (fix subdirs (es : list (string * node)) : list string :=
            match es with
            | [] => []
            | (name, x) :: rest =>
                (if skipped name then []
                 else match x, lookup name right with
                      | Dir _, Some (Dir r) => traverse (base ++ [name]) x r
                      | _, _ => []
                      end)
                ++ subdirs rest
            end) entries
  | _ => []
  end.

(** [changed_files(left, right)] on what the two paths hold ([None]: the
    path does not exist).  [os.listdir] raises when a side is missing or
    is not a directory; the left side is listed first. *)
Definition changed_files (left right : option node) : result (list string) :=
  match left with
  | None => Raise (OSError FileNotFoundError)
  | Some (Dir l) =>
      match right with
      | None => Raise (OSError FileNotFoundError)
      | Some (Dir r) => Ok (traverse [] (Dir l) r)
      | Some _ => Raise (OSError NotADirectoryError)
      end
  | Some _ => Raise (OSError NotADirectoryError)
  end.

(** The file at a path given by its components, going through
    directories only. *)
Fixpoint file_at (entries : list (string * node)) (path : list string) : option file_stat :=
  match path with
  | [] => None
  | [name] => match lookup name entries with Some (File f) => Some f | _ => None end
  | name :: rest =>
      match lookup name entries with
      | Some (Dir sub) => file_at sub rest
      | _ => None
      end
  end.

(** No directory lists a name twice. *)
Fixpoint distinct (names : list string) : bool :=
  match names with
  | [] => true
  | n :: rest => negb (existsb (String.eqb n) rest) && distinct rest
  end.

Fixpoint wf_node (x : node) : bool :=
  match x with
  | Dir entries =>
      distinct (map fst entries)
      && (fix all (es : list (string * node)) : bool :=
            match es with
            | [] => true
            | (_, y) :: rest => wf_node y && all rest
            end) entries
  | _ => true
  end.

(** ** Regular expressions, as far as [translation_branch] needs them *)

Inductive regex : Type :=
| Never
| Eps
| Dot                    (* any character but a newline *)
| Chr (c : ascii)
| Digit                  (* [0-9] *)
| Cat (r1 r2 : regex)
| Alt (r1 r2 : regex)
| Star (r : regex).

Definition Plus (r : regex) : regex := Cat r (Star r).

Fixpoint nullable (r : regex) : bool :=
  match r with
  | Never | Dot | Chr _ | Digit => false
  | Eps | Star _ => true
  | Cat r1 r2 => nullable r1 && nullable r2
  | Alt r1 r2 => nullable r1 || nullable r2
  end.

Fixpoint deriv (c : ascii) (r : regex) : regex :=
  match r with
  | Never | Eps => Never
  | Dot => if Ascii.eqb c PyStr.nl then Never else Eps
  | Chr d => if Ascii.eqb c d then Eps else Never
  | Digit => if PyStr.is_digit c then Eps else Never
  | Cat r1 r2 =>
      if nullable r1 then Alt (Cat (deriv c r1) r2) (deriv c r2)
      else Cat (deriv c r1) r2
  | Alt r1 r2 => Alt (deriv c r1) (deriv c r2)
  | Star r1 => Cat (deriv c r1) (Star r1)
  end.

Fixpoint fullmatch (r : regex) (s : string) : bool :=
  match s with
  | EmptyString => nullable r
  | String c s' => fullmatch (deriv c r) s'
  end.

(** [re.match(r".*/[0-9]+\.[0-9]+$", branch)] succeeds exactly when the
    whole string is matched by the pattern, possibly followed by one final
    newline (that is what [$] allows). *)
Definition version_branch_re : regex :=
  Cat (Star Dot)
    (Cat (Chr "/")
       (Cat (Plus Digit)
          (Cat (Chr ".")
             (Cat (Plus Digit) (Alt Eps (Chr PyStr.nl)))))).

Definition re_match_version_branch (branch : string) : bool :=
  fullmatch version_branch_re branch.

(** The loop of [translation_branch] over the listing of
    [git branch -r]: [branch.split("/")[-1]] of every matching line. *)
Definition version_branches (remote_branches : string) : list string :=
  map (fun branch => last (PyStr.split "/" branch) EmptyString)
      (filter re_match_version_branch (PyStr.split PyStr.nl remote_branches)).

(** ** Paths *)

Definition ends_with_slash (s : string) : bool :=
  match last (list_ascii_of_string s) "a"%char with
  | "/"%char => true
  | _ => false
  end.

(** [os.path.join(a, b)] on POSIX. *)
Definition path_join (a b : string) : string :=
  if prefix "/" b then b
  else if negb (PyStr.truthy a) || ends_with_slash a then a +++ b
  else a +++ "/" +++ b.

Definition path_join3 (a b c : string) : string := path_join (path_join a b) c.

(** ** The environment and the effect monad *)

(** A command line: an argument vector, or one string for the shell
    ([shell=True]). *)
Inductive command : Type :=
| Argv (args : list string)
| ShellLine (line : string).

(** How [subprocess.check_output] ends: exit status zero with the
    captured output, or [CalledProcessError] (any other exit status) with
    the output captured so far. *)
Inductive proc_outcome : Type :=
| Completed (output : string)
| Failed (output : string).

Inductive level : Type := DEBUG | INFO | WARNING | ERROR.

(** Arguments of a log record. *)
Inductive log_arg : Type :=
| AStr (s : string)
| ACmd (c : command)
| ANat (n : nat)
| AExn (e : exn).

Inductive fs_op : Type :=
| Rmtree (path : string)
| Makedirs (path : string) (mode : Z) (exist_ok : bool)
| Chmod (path : string) (mode : Z).

(** Everything the script does to the outside world. *)
Inductive event : Type :=
| Logging (lvl : level) (fmt : string) (args : list log_arg)
| Exec (cmd : command) (shell : bool) (o : proc_outcome)
| LogfileAppend (logfile stamp : string) (cmd : command) (succeeded : bool) (output : string)
| SentryTag (key value : string)
| SentryCapture (e : exn) (fingerprint : option command)
| Fs (op : fs_op) (err : option os_error)
| Print (text : string).

(** The outside world: a state of type [W] and what the script can ask of
    it.  File-system calls and the opening of a log file may fail with an
    [OSError]; emitting log records always succeeds.  Sub-processes are
    taken as started: they complete or exit with a non-zero status (an
    executable that cannot be started is outside this environment). *)
Class Env (W : Type) : Type := {
  sentry_sdk : bool;
  env_now : W -> string * W;
  env_check_output : command -> bool -> W -> proc_outcome * W;
  env_isdir : string -> W -> bool;
  env_exists : string -> W -> bool;
  env_fs : fs_op -> W -> option os_error * W;
  env_append : string -> W -> option os_error * W;
  env_listdir : string -> W -> os_error + list string;
  env_tree : string -> W -> option node;
  env_abspath : string -> W -> string
}.

Record outcome (W A : Type) : Type := {
  res : result A;
  final : W;
  events : list event
}.
Arguments res {W A} o.
Arguments final {W A} o.
Arguments events {W A} o.

(** A computation: from a world to a result or an exception, the world
    afterwards and the events emitted on the way. *)
Definition M (W A : Type) : Type := W -> outcome W A.

Definition ret {W A : Type} (a : A) : M W A :=
  fun w => {| res := Ok a; final := w; events := [] |}.

Definition raise {W A : Type} (e : exn) : M W A :=
  fun w => {| res := Raise e; final := w; events := [] |}.

Definition bind {W A B : Type} (m : M W A) (k : A -> M W B) : M W B :=
  fun w =>
    let o := m w in
    match res o with
    | Ok a =>
        let o' := k a (final o) in
        {| res := res o'; final := final o'; events := events o ++ events o' |}
    | Raise e => {| res := Raise e; final := final o; events := events o |}
    end.

(** [try: m  except <classes>: handler]: an exception the clause names
    runs the handler; any other one goes on. *)
Definition try_except {W A : Type} (m : M W A) (catches : exn -> bool)
  (handler : exn -> M W A) : M W A :=
  fun w =>
    let o := m w in
    match res o with
    | Ok a => o
    | Raise e =>
        if catches e then
          let o' := handler e (final o) in
          {| res := res o'; final := final o'; events := events o ++ events o' |}
        else o
    end.

(** An outcome with events put in front of its own. *)
Definition prepend {W A : Type} (evs : list event) (o : outcome W A) : outcome W A :=
  {| res := res o; final := final o; events := evs ++ events o |}.

(** [bind] and [try_except] seen from the outcome of their first part. *)
Definition bind_with {W A B : Type} (o : outcome W A) (k : A -> M W B) : outcome W B :=
  match res o with
  | Ok a => prepend (events o) (k a (final o))
  | Raise e => {| res := Raise e; final := final o; events := events o |}
  end.

Definition handle_with {W A : Type} (o : outcome W A) (catches : exn -> bool)
  (handler : exn -> M W A) : outcome W A :=
  match res o with
  | Ok a => o
  | Raise e => if catches e then prepend (events o) (handler e (final o)) else o
  end.

Definition emit {W : Type} (e : event) : M W unit :=
  fun w => {| res := Ok tt; final := w; events := [e] |}.

Definition lift {W A : Type} (r : result A) : M W A :=
  fun w => {| res := r; final := w; events := [] |}.

Definition when {W : Type} (b : bool) (m : M W unit) : M W unit :=
  if b then m else ret tt.

(** [for x in l: body(x)]. *)
Fixpoint for_each {W A : Type} (l : list A) (body : A -> M W unit) : M W unit :=
  match l with
  | [] => ret tt
  | x :: rest => bind (body x) (fun _ => for_each rest body)
  end.

Declare Scope monad_scope.
Delimit Scope monad_scope with monad.
Notation "x <- m ;; k" := (bind m (fun x => k))
  (at level 61, m at next level, right associativity) : monad_scope.
Notation "m ;; k" := (bind m (fun _ => k))
  (at level 61, right associativity) : monad_scope.
Local Open Scope monad_scope.

(** ** Configuration *)

Definition VERSION : string := "19.0".

(** version, git branch, isdev *)
Definition BRANCHES : list (string * string * bool) :=
  [ ("3.6", "3.6", false);
    ("3.7", "3.7", false);
    ("3.8", "3.8", false);
    ("3.9", "3.9", true);
    ("3.10", "master", true) ].

Definition LANGUAGES : list string :=
  ["en"; "fr"; "ja"; "ko"; "pt-br"; "zh-cn"; "zh-tw"; "id"].

Definition SPHINXOPTS : list (string * list string) :=
  [ ("ja", ["-D latex_engine=platex";
            "-D latex_elements.inputenc=";
            "-D latex_elements.fontenc="]);
    ("ko", ["-D latex_engine=xelatex";
            "-D latex_elements.inputenc=";
            "-D latex_elements.fontenc=";
            "-D latex_elements.preamble=\\usepackage{kotex}\\setmainhangulfont{UnBatang}\\setsanshangulfont{UnDotum}\\setmonohangulfont{UnTaza}"]);
    ("pt-br", ["-D latex_engine=xelatex";
               "-D latex_elements.inputenc=";
               "-D latex_elements.fontenc="]);
    ("fr", ["-D latex_engine=xelatex";
            "-D latex_elements.inputenc=";
            "-D latex_elements.fontenc=\\usepackage{fontspec}"]);
    ("en", ["-D latex_engine=xelatex";
            "-D latex_elements.inputenc=";
            "-D latex_elements.fontenc="]);
    ("zh-cn", ["-D latex_engine=xelatex";
               "-D latex_elements.inputenc=";
               "-D latex_elements.fontenc=\\usepackage{xeCJK}"]);
    ("zh-tw", ["-D latex_engine=xelatex";
               "-D latex_elements.inputenc=";
               "-D latex_elements.fontenc=\\usepackage{xeCJK}"]);
    ("id", ["-D latex_engine=xelatex";
            "-D latex_elements.inputenc=";
            "-D latex_elements.fontenc="]) ].

(** [d[key]] on a dict written as its items. *)
Fixpoint dict_get {A : Type} (d : list (string * A)) (key : string) : result A :=
  match d with
  | [] => Raise KeyError
  | (k, v) :: rest => if String.eqb k key then Ok v else dict_get rest key
  end.

(** The parsed command line. *)
Record arguments : Type := {
  arg_devel : bool;
  arg_quick : bool;
  arg_branch : option string;
  arg_build_root : string;
  arg_www_root : string;
  arg_skip_cache_invalidation : bool;
  arg_group : string;
  arg_log_directory : string;
  arg_languages : list string;
  arg_version : bool
}.

(** An optional string that passes [if s:] ([None] and the empty string
    do not). *)
Definition given (s : option string) : option string :=
  match s with
  | Some x => if PyStr.truthy x then Some x else None
  | None => None
  end.

Definition is_CalledProcessError (e : exn) : bool :=
  match e with CalledProcessError => true | _ => false end.

Definition is_PermissionError (e : exn) : bool :=
  match e with OSError PermissionError => true | _ => false end.

(** ** The script *)

Section Script.

Context {W : Type} `{Env W}.

Definition logging (lvl : level) (fmt : string) (args : list log_arg) : M W unit :=
  emit (Logging lvl fmt args).

Definition datetime_now : M W string :=
  fun w => let (t, w') := env_now w in {| res := Ok t; final := w'; events := [] |}.

(** [subprocess.check_output(cmd, shell=shell, ...)] of a command that
    could be started, the outcome made a value: [Failed] stands for the
    [CalledProcessError] of a non-zero exit status. *)
Definition check_output (cmd : command) (shell : bool) : M W proc_outcome :=
  fun w =>
    let (o, w') := env_check_output cmd shell w in
    {| res := Ok o; final := w'; events := [Exec cmd shell o] |}.

Definition os_path_isdir (path : string) : M W bool :=
  fun w => {| res := Ok (env_isdir path w); final := w; events := [] |}.

Definition os_path_exists (path : string) : M W bool :=
  fun w => {| res := Ok (env_exists path w); final := w; events := [] |}.

Definition os_path_abspath (path : string) : M W string :=
  fun w => {| res := Ok (env_abspath path w); final := w; events := [] |}.

(** [shutil.rmtree], [os.makedirs], [os.chmod]. *)
Definition fs_call (op : fs_op) : M W unit :=
  fun w =>
    let (err, w') := env_fs op w in
    {| res := match err with
              | None => Ok tt
              | Some e => Raise (OSError e)
              end;
       final := w';
       events := [Fs op err] |}.

Definition os_listdir (path : string) : M W (list string) :=
  fun w =>
    {| res := match env_listdir path w with
              | inr names => Ok names
              | inl e => Raise (OSError e)
              end;
       final := w;
       events := [] |}.

Definition sentry_set_tags (version language : string) : M W unit :=
  when sentry_sdk
    (emit (SentryTag "version" version) ;; emit (SentryTag "language" language)).

(** *** shell_out *)

(** [with open(logfile, "a+") as log: log.write(...)]: opening the file
    (or writing to it) may raise an [OSError], which no handler of
    [shell_out] catches; the entry is written when it does not. *)
Definition append_log (logfile stamp : string) (cmd : command) (succeeded : bool)
  (output : string) : M W unit :=
  fun w =>
    let (err, w') := env_append logfile w in
    match err with
    | None =>
        {| res := Ok tt;
           final := w';
           events := [LogfileAppend logfile stamp cmd succeeded output] |}
    | Some e => {| res := Raise (OSError e); final := w'; events := [] |}
    end.

Definition shell_out (cmd : command) (shell : bool) (logfile : option string)
  : M W (option string) :=
  logging DEBUG "Running command %r" [ACmd cmd] ;;
  now <- datetime_now ;;
  o <- check_output cmd shell ;;
  match o with
  | Completed output =>
      match given logfile with
      | Some lf => append_log lf now cmd true output
      | None => ret tt
      end ;;
      ret (Some output)
  | Failed output =>
      (* except subprocess.CalledProcessError as e: *)
      when sentry_sdk (emit (SentryCapture CalledProcessError (Some cmd))) ;;
      match given logfile with
      | Some lf =>
          append_log lf now cmd false output ;;
          logging ERROR "Command failed (see %s at %s)" [AStr lf; AStr now]
      | None => logging ERROR "Command failed with output %r" [AStr output]
      end ;;
      ret None
  end.

(** *** git_clone *)

Definition git_clone (repository directory : string) (branch : option string)
  : M W unit :=
  logging INFO "Updating repository %s in %s" [AStr repository; AStr directory] ;;
  try_except
    (isgit <- os_path_isdir (path_join directory ".git") ;;
     (if negb isgit then raise AssertionError else ret tt) ;;
     shell_out (Argv ["git"; "-C"; directory; "fetch"]) false None ;;
     match given branch with
     | Some b =>
         shell_out (Argv ["git"; "-C"; directory; "checkout"; b]) false None ;;
         shell_out (Argv ["git"; "-C"; directory; "reset"; "--hard"; "origin/" +++ b])
           false None ;;
         ret tt
     | None => ret tt
     end)
    (fun e => match e with
              | CalledProcessError | AssertionError => true
              | _ => false
              end)
    (fun _ =>
       there <- os_path_exists directory ;;
       (if there then fs_call (Rmtree directory) else ret tt) ;;
       logging INFO "Cloning %s into %s" [AStr repository; AStr directory] ;;
       fs_call (Makedirs directory 509 false) ;;
       shell_out
         (Argv ["git"; "clone"; "--depth=1"; "--no-single-branch"; repository; directory])
         false None ;;
       match given branch with
       | Some b =>
           shell_out (Argv ["git"; "-C"; directory; "checkout"; b]) false None ;;
           ret tt
       | None => ret tt
       end).

(** *** translation_branch *)

(** [remote_branches.split] on the [None] of a failed command is an
    [AttributeError]. *)
Definition translation_branch (locale_repo locale_clone_dir needed_version : string)
  : M W string :=
  git_clone locale_repo locale_clone_dir None ;;
  remote_branches <-
    shell_out (Argv ["git"; "-C"; locale_clone_dir; "branch"; "-r"]) false None ;;
  match remote_branches with
  | None => raise AttributeError
  | Some listing =>
      lift (locate_nearest_version (version_branches listing) needed_version)
  end.

(** *** build_one *)

Definition checkout_of (build_root version language : string) : string :=
  path_join3 build_root version ("cpython-" +++ language).

Definition maketarget_of (isdev quick : bool) : string :=
  "autobuild-" +++ (if isdev then "dev" else "stable")
               +++ (if quick then "-html" else EmptyString).

Definition make_command (checkout venv maketarget : string) (sphinxopts : list string)
  : command :=
  Argv [ "make"; "-C"; path_join checkout "Doc";
         "PYTHON=" +++ path_join venv "bin/python";
         "SPHINXBUILD=" +++ path_join venv "bin/sphinx-build";
         "BLURB=" +++ path_join venv "bin/blurb";
         "VENVDIR=" +++ venv;
         "SPHINXOPTS=" +++ PyStr.join " " sphinxopts;
         "SPHINXERRORHANDLING=";
         maketarget ].

Definition logfile_of (log_directory language version : string) : string :=
  path_join log_directory ("cpython-" +++ language +++ "-" +++ version +++ ".log").

(** Lines 259 to 288: the options, the translation and the checkouts.
    Returns the language in force and the Sphinx options. *)
Definition build_one_sync (version git_branch : string) (build_root : string)
  (language0 : string) : M W (string * list string) :=
  let language := if negb (PyStr.truthy language0) then "en" else language0 in
  sentry_set_tags version language ;;
  let checkout := checkout_of build_root version language in
  logging INFO "Build start for version: %s, language: %s"
    [AStr version; AStr language] ;;
  opts <- lift (dict_get SPHINXOPTS language) ;;
  let sphinxopts := opts ++ ["-q"] in
  sphinxopts <-
    (if negb (String.eqb language "en") then
       gettext_language_tag <- lift (pep_545_tag_to_gettext_tag language) ;;
       let locale_dirs := path_join3 build_root version "locale" in
       let locale_clone_dir :=
         path_join3 locale_dirs gettext_language_tag "LC_MESSAGES" in
       let locale_repo :=
         "https://github.com/python/python-docs-" +++ language +++ ".git" in
       branch <- translation_branch locale_repo locale_clone_dir version ;;
       git_clone locale_repo locale_clone_dir (Some branch) ;;
       ret (sphinxopts ++ [ "-D locale_dirs=" +++ locale_dirs;
                            "-D language=" +++ gettext_language_tag;
                            "-D gettext_compact=0" ])
     else ret sphinxopts) ;;
  git_clone "https://github.com/python/cpython.git" checkout (Some git_branch) ;;
  ret (language, sphinxopts).

(** Lines 289 to 313: the make invocation, logged to the unit's log
    file, and what follows it. *)
Definition build_one_make (version : string) (isdev quick : bool)
  (venv build_root group log_directory language : string) (sphinxopts : list string)
  : M W unit :=
  let checkout := checkout_of build_root version language in
  let maketarget := maketarget_of isdev quick in
  logging INFO "Running make %s" [AStr maketarget] ;;
  shell_out (make_command checkout venv maketarget sphinxopts) false
    (Some (logfile_of log_directory language version)) ;;
  shell_out (Argv ["chgrp"; "-R"; group; log_directory]) false None ;;
  logging INFO "Build done for version: %s, language: %s"
    [AStr version; AStr language].

Definition build_one (version git_branch : string) (isdev quick : bool)
  (venv build_root group log_directory language : string) : M W unit :=
  synced <- build_one_sync version git_branch build_root language ;;
  build_one_make version isdev quick venv build_root group log_directory
    (fst synced) (snd synced).

(** *** copy_build_to_webroot *)

(** [try: shell_out(["chgrp", "-R", group, path])
     except subprocess.CalledProcessError as err: logging.warning(...)]. *)
Definition chgrp_or_warn (group path : string) : M W unit :=
  try_except
    (shell_out (Argv ["chgrp"; "-R"; group; path]) false None ;; ret tt)
    is_CalledProcessError
    (fun err => logging WARNING "Can't change group of %s: %s" [AStr path; AExn err]).

(** [changed_files] on two paths of the file system. *)
Definition changed_files_of (left right : string) : M W (list string) :=
  fun w =>
    {| res := changed_files (env_tree left w) (env_tree right w);
       final := w;
       events := [] |}.

(** Lines 321 to 394: everything up to the cache purge.  Returns the
    target directory and the list [changed]. *)
Definition publish_build (build_root version language group : string) (quick : bool)
  (www_root : string) : M W (string * list string) :=
  logging INFO "Publishing start for version: %s, language: %s"
    [AStr version; AStr language] ;;
  let checkout := checkout_of build_root version language in
  target <-
    (if String.eqb language "en" then ret (path_join www_root version)
     else
       let language_dir := path_join www_root language in
       fs_call (Makedirs language_dir 511 true) ;;
       chgrp_or_warn group language_dir ;;
       fs_call (Chmod language_dir 509) ;;
       ret (path_join language_dir version)) ;;
  fs_call (Makedirs target 511 true) ;;
  try_except (fs_call (Chmod target 509)) is_PermissionError
    (fun err => logging WARNING "Can't change mod of %s: %s" [AStr target; AExn err]) ;;
  chgrp_or_warn group target ;;
  changed <- changed_files_of (path_join checkout "Doc/build/html") target ;;
  logging INFO "Copying HTML files to %s" [AStr target] ;;
  let html := path_join checkout "Doc/build/html/" in
  shell_out (Argv ["chown"; "-R"; ":" +++ group; html]) false None ;;
  shell_out (Argv ["chmod"; "-R"; "o+r"; html]) false None ;;
  shell_out (Argv ["find"; html; "-type"; "d"; "-exec"; "chmod"; "o+x"; "{}"; ";"])
    false None ;;
  (if quick then shell_out (Argv ["rsync"; "-a"; html; target]) false None
   else shell_out
          (Argv ["rsync"; "-a"; "--delete-delay"; "--filter"; "P archives/"; html; target])
          false None) ;;
  if negb quick then
    let dist := path_join checkout "Doc/dist/" in
    let archives := path_join target "archives" in
    logging DEBUG "Copying dist files" [] ;;
    shell_out (Argv ["chown"; "-R"; ":" +++ group; dist]) false None ;;
    shell_out (Argv ["chmod"; "-R"; "o+r"; dist]) false None ;;
    shell_out (Argv ["mkdir"; "-m"; "o+rx"; "-p"; archives]) false None ;;
    shell_out (Argv ["chown"; ":" +++ group; archives]) false None ;;
    shell_out
      (ShellLine ("cp -a " +++ path_join checkout "Doc/dist/*" +++ " " +++ archives))
      true None ;;
    names <- os_listdir archives ;;
    ret (target, changed ++ ["archives/"] ++ map (fun fn => "archives/" +++ fn) names)
  else ret (target, changed).

(** [[prefix + "/" for prefix in prefixes.split("\n") if prefix]] after
    [prefixes.replace(targets_dir + "/", "")]. *)
Definition alias_prefixes (targets_dir found : string) : list string :=
  map (fun prefix => prefix +++ "/")
    (filter PyStr.truthy
       (PyStr.split PyStr.nl (PyStr.replace (targets_dir +++ "/") EmptyString found))).

Definition to_purge_of (prefixes changed : list string) : list string :=
  prefixes ++ flat_map (fun prefix => map (fun p => prefix +++ p) changed) prefixes.

Definition purge_command (to_purge : list string) : command :=
  Argv ["curl"; "-XPURGE";
        "https://docs.python.org/{" +++ PyStr.join "," to_purge +++ "}"].

(** Lines 395 to 407: the cache purge. *)
Definition purge_cache (changed : list string) (skip_cache_invalidation : bool)
  (www_root target : string) : M W unit :=
  logging INFO "%s files changed" [ANat (length changed)] ;;
  if match changed with [] => false | _ => true end && negb skip_cache_invalidation
  then
    let targets_dir := www_root in
    found <- shell_out (Argv ["find"; "-L"; targets_dir; "-samefile"; target]) false None ;;
    match found with
    | None => raise AttributeError
    | Some found =>
        let prefixes := alias_prefixes targets_dir found in
        let to_purge := to_purge_of prefixes changed in
        logging INFO "Running CDN purge" [] ;;
        shell_out (purge_command to_purge) false None ;;
        ret tt
    end
  else ret tt.

Definition copy_build_to_webroot (build_root version language group : string)
  (quick skip_cache_invalidation : bool) (www_root : string) : M W unit :=
  published <- publish_build build_root version language group quick www_root ;;
  purge_cache (snd published) skip_cache_invalidation www_root (fst published) ;;
  logging INFO "Publishing done for version: %s, language: %s"
    [AStr version; AStr language].

(** *** version_info and main *)

Definition head (lines : string) (n : nat) : string :=
  PyStr.join (String PyStr.nl EmptyString) (firstn n (PyStr.split PyStr.nl lines)).

(** [subprocess.check_output] called directly: a failure raises. *)
Definition check_output_or_raise (cmd : command) : M W string :=
  o <- check_output cmd false ;;
  match o with
  | Completed output => ret output
  | Failed _ => raise CalledProcessError
  end.

Definition version_info : M W unit :=
  platex_version <- check_output_or_raise (Argv ["platex"; "--version"]) ;;
  xelatex_version <- check_output_or_raise (Argv ["xelatex"; "--version"]) ;;
  emit (Print (PyStr.join (String PyStr.nl EmptyString)
                 [ "build_docs: " +++ VERSION; EmptyString;
                   "# platex"; EmptyString;
                   head platex_version 3; EmptyString; EmptyString;
                   "# xelatex"; EmptyString;
                   head xelatex_version 2; "    " ])).

(** The [try] block of [main]: build, then publish. *)
Definition build_and_publish (args : arguments) (venv : string)
  (branch : string * string * bool) (language : string) : M W unit :=
  let '(version, git_branch, devel) := branch in
  build_one version git_branch devel (arg_quick args) venv (arg_build_root args)
    (arg_group args) (arg_log_directory args) language ;;
  copy_build_to_webroot (arg_build_root args) version language (arg_group args)
    (arg_quick args) (arg_skip_cache_invalidation args) (arg_www_root args).

(** The body of the two loops of [main]: one (version, language) unit. *)
Definition build_unit (args : arguments) (venv : string)
  (branch : string * string * bool) (language : string) : M W unit :=
  let '(version, git_branch, devel) := branch in
  sentry_set_tags version (if PyStr.truthy language then language else "en") ;;
  try_except (build_and_publish args venv branch language)
    is_Exception
    (fun err =>
       logging ERROR "Exception while building %s version %s: %s"
         [AStr language; AStr version; AExn err] ;;
       when sentry_sdk (emit (SentryCapture err None))).

Definition abspath_if_set (path : string) : M W string :=
  if PyStr.truthy path then os_path_abspath path else ret path.

(** [branches_to_do] of [main]. *)
Definition branches_to_do (args : arguments) : list (string * string * bool) :=
  match given (arg_branch args) with
  | Some b =>
      filter (fun branch : string * string * bool =>
                let '(version, git_branch, _) := branch in
                String.eqb version b || String.eqb git_branch b)
             BRANCHES
  | None => BRANCHES
  end.

(** Lines 524 to 529 and 547 to 551: the directories made absolute and
    the default list of languages. *)
Definition settle_arguments (args : arguments) : M W arguments :=
  log_directory <- abspath_if_set (arg_log_directory args) ;;
  build_root <- abspath_if_set (arg_build_root args) ;;
  www_root <- abspath_if_set (arg_www_root args) ;;
  ret {| arg_devel := arg_devel args;
         arg_quick := arg_quick args;
         arg_branch := arg_branch args;
         arg_build_root := build_root;
         arg_www_root := www_root;
         arg_skip_cache_invalidation := arg_skip_cache_invalidation args;
         arg_group := arg_group args;
         arg_log_directory := log_directory;
         arg_languages := match arg_languages args with
                          | [] => LANGUAGES
                          | l => l
                          end;
         arg_version := arg_version args |}.

(** Lines 552 to 587: the two loops over the versions and languages. *)
Definition build_all (args : arguments) : M W unit :=
  let venv := path_join (arg_build_root args) "venv" in
  for_each (branches_to_do args) (fun branch =>
    for_each (arg_languages args) (fun language =>
      build_unit args venv branch language)).

(** [main], the parsed command line given.  Setting up the [logging]
    module (where records go) is left out. *)
Definition main (args : arguments) : M W unit :=
  if arg_version args then version_info ;; raise (SystemExit 0)
  else
    args <- settle_arguments args ;;
    build_all args.

End Script.

(** ** Vocabulary of the statements *)

(** The tuple a version string stands for (the empty tuple when it does
    not parse). *)
Definition version_key (version : string) : version_tuple :=
  match version_to_tuple version with
  | Ok t => t
  | Raise _ => []
  end.

(** A [major.minor] version string: two non-negative integers in the
    notation [str] prints them, so that parsing and printing gives the
    string back ("3.10" is one; "3", "3.x" and "3.07" are not). *)
Definition is_version (version : string) : bool :=
  match version_to_tuple version with
  | Ok [major; minor] =>
      (0 <=? major)%Z && (0 <=? minor)%Z
      && String.eqb (tuple_to_version [major; minor]) version
  | _ => false
  end.

(** The value of a run of decimal digits read after [acc]. *)
Fixpoint uint_val (acc : Z) (d : Decimal.uint) : Z :=
  match d with
  | Decimal.Nil => acc
  | Decimal.D0 l => uint_val (10 * acc + 0) l
  | Decimal.D1 l => uint_val (10 * acc + 1) l
  | Decimal.D2 l => uint_val (10 * acc + 2) l
  | Decimal.D3 l => uint_val (10 * acc + 3) l
  | Decimal.D4 l => uint_val (10 * acc + 4) l
  | Decimal.D5 l => uint_val (10 * acc + 5) l
  | Decimal.D6 l => uint_val (10 * acc + 6) l
  | Decimal.D7 l => uint_val (10 * acc + 7) l
  | Decimal.D8 l => uint_val (10 * acc + 8) l
  | Decimal.D9 l => uint_val (10 * acc + 9) l
  end.

(** Numeric comparison of version strings, component by component. *)
Definition version_lt (a b : string) : Prop :=
  tuple_ltb (version_key a) (version_key b) = true.

Definition version_le (a b : string) : Prop :=
  tuple_ltb (version_key b) (version_key a) = false.

(** Each element is at most the next one. *)
Fixpoint sorted_tuples (l : list version_tuple) : bool :=
  match l with
  | a :: (b :: _) as rest => tuple_leb a b && sorted_tuples rest
  | _ => true
  end.

Definition sorted_versions (available : list string) : bool :=
  sorted_tuples (map version_key available).

(** The events of a kind in a trace. *)
Definition executed (evs : list event) : list command :=
  flat_map (fun e => match e with Exec cmd _ _ => [cmd] | _ => [] end) evs.

Definition fs_calls (evs : list event) : list fs_op :=
  flat_map (fun e => match e with Fs op _ => [op] | _ => [] end) evs.

Definition is_purge (cmd : command) : bool :=
  match cmd with
  | Argv ("curl" :: "-XPURGE" :: _) => true
  | _ => false
  end.

(** The purge requests of a trace. *)
Definition purges (evs : list event) : list command :=
  filter is_purge (executed evs).

(** The checkout that follows a clone or a fetch when a branch is asked
    for. *)
Definition checkout_commands (directory : string) (branch : option string)
  : list command :=
  match given branch with
  | Some b => [Argv ["git"; "-C"; directory; "checkout"; b]]
  | None => []
  end.


Definition clone_command (repository directory : string) : command :=
  Argv ["git"; "clone"; "--depth=1"; "--no-single-branch"; repository; directory].

(** What makes a path reported by [changed_files]: it leads to a regular
    file on both sides, through directories on both sides, [cmp] tells
    the two files apart, and no component is a name [dircmp] skips. *)
Definition reported (left right : list (string * node)) (path : list string) : Prop :=
  exists a b,
    file_at left path = Some a
    /\ file_at right path = Some b
    /\ cmp a b = false
    /\ forallb (fun name => negb (skipped name)) path = true.

(** The units [main] goes through, in order. *)
Definition units_of (branches : list (string * string * bool)) (languages : list string)
  : list ((string * string * bool) * string) :=
  list_prod branches languages.

(** A published tree, and a build of it with one page modified, one page
    added and one page of a sub-directory modified. *)
Definition published_tree : list (string * node) :=
  [ ("index.html", File {| st_mtime := 100; content := "old index" |});
    ("library", Dir [ ("os.html", File {| st_mtime := 100; content := "old os" |});
                      ("re.html", File {| st_mtime := 100; content := "re" |}) ]) ].

Definition built_tree : list (string * node) :=
  [ ("index.html", File {| st_mtime := 200; content := "new index, longer" |});
    ("library", Dir [ ("os.html", File {| st_mtime := 200; content := "new os" |});
                      ("re.html", File {| st_mtime := 100; content := "re" |}) ]);
    ("whatsnew.html", File {| st_mtime := 200; content := "added page" |}) ].

(** The exceptions the [except Exception] clause of [main] catches. *)
Definition caught_by_main (e : exn) : Prop := is_Exception e = true.


(** A property of the value of a result, void when it is an exception. *)
Definition returns {A : Type} (P : A -> Prop) (r : result A) : Prop :=
  match r with
  | Ok a => P a
  | Raise _ => True
  end.

(** A computation that raises nothing but exceptions of a kind. *)
Definition raises_only {W A : Type} (P : exn -> Prop) (m : M W A) : Prop :=
  forall w e, res (m w) = Raise e -> P e.



(** ** A scripted world

    A world whose answers are fixed in advance: what each command does,
    which paths exist, what the directories hold.  It does not change. *)

Record scripted : Type := {
  s_exec : command -> proc_outcome;
  s_isdir : string -> bool;
  s_exists : string -> bool;
  s_fs : fs_op -> option os_error;
  s_append : string -> option os_error;
  s_listdir : string -> os_error + list string;
  s_tree : string -> option node
}.

(** [os.path.abspath] on an absolute path without [.], [..] and doubled
    slashes, the only paths the scripted world is asked about: closing
    slashes are dropped, the root stays. *)
Fixpoint rstrip_slash (path : string) : string :=
  match path with
  | EmptyString => EmptyString
  | String c rest =>
      match rstrip_slash rest with
      | EmptyString => if Ascii.eqb c "/" then EmptyString else String c EmptyString
      | r => String c r
      end
  end.

Definition scripted_abspath (path : string) : string :=
  match rstrip_slash path with
  | EmptyString => if PyStr.truthy path then "/" else EmptyString
  | r => r
  end.

#[local] Instance scripted_env : Env scripted := {
  sentry_sdk := true;
  env_now := fun w => ("2020-01-01 00:00:00", w);
  env_check_output := fun cmd _ w => (s_exec w cmd, w);
  env_isdir := fun path w => s_isdir w path;
  env_exists := fun path w => s_exists w path;
  env_fs := fun op w => (s_fs w op, w);
  env_append := fun logfile w => (s_append w logfile, w);
  env_listdir := fun path w => s_listdir w path;
  env_tree := fun path w => s_tree w path;
  env_abspath := fun path _ => scripted_abspath path
}.

Definition argv_has (word : string) (cmd : command) : bool :=
  match cmd with
  | Argv args => existsb (String.eqb word) args
  | ShellLine _ => false
  end.

Definition has_suffix (suffix s : string) : bool :=
  let n := String.length s in
  let m := String.length suffix in
  (m <=? n)%nat && String.eqb (substring (n - m) m s) suffix.

Definition lines (l : list string) : string :=
  PyStr.join (String PyStr.nl EmptyString) l.

(** The commands for which [fails] holds exit with a non-zero status, the
    others complete; [git branch -r] prints [branches]; the lookup of the
    aliases finds the target under two names; [has_git] tells whether the
    working copies have their [.git]; the build and the published tree
    are the sample trees. *)
Definition sample_world (fails : command -> bool) (has_git : bool) (branches : string)
  : scripted :=
  {| s_exec := fun cmd =>
       if fails cmd then Failed "failed"
       else if argv_has "branch" cmd then Completed branches
       else if argv_has "-samefile" cmd
            then Completed (lines ["/srv/docs.python.org/3.8"; "/srv/docs.python.org/3"])
            else Completed "done";
     s_isdir := fun _ => has_git;
     s_exists := fun _ => true;
     s_fs := fun _ => None;
     s_append := fun _ => None;
     s_listdir := fun _ => inr ["python-3.8-docs-html.zip"];
     s_tree := fun path =>
       if has_suffix "Doc/build/html" path then Some (Dir built_tree)
       else Some (Dir published_tree) |}.

Definition sample_branches : string :=
  lines ["  origin/3.7"; "  origin/3.8"; "  origin/HEAD -> origin/3.8"].

(** What [git branch -r] prints for a repository without any version
    branch. *)
Definition unversioned_branches : string :=
  lines ["  origin/HEAD -> origin/master"; "  origin/master"; "  origin/wip-3.x"].

Definition sample_arguments : arguments :=
  {| arg_devel := false;
     arg_quick := false;
     arg_branch := Some "3.8";
     arg_build_root := "/srv/docsbuild";
     arg_www_root := "/srv/docs.python.org";
     arg_skip_cache_invalidation := false;
     arg_group := "docs";
     arg_log_directory := "/var/log/docsbuild/";
     arg_languages := ["en"; "fr"];
     arg_version := false |}.

(** ** Vocabulary of the further properties *)


(** A string of ASCII characters: the text on which [PyStr.upper] is
    Python's [str.upper]. *)
Fixpoint is_ascii (s : string) : bool :=
  match s with
  | EmptyString => true
  | String c s' => (nat_of_ascii c <? 128)%nat && is_ascii s'
  end.



Definition level_eqb (a b : level) : bool :=
  match a, b with
  | DEBUG, DEBUG | INFO, INFO | WARNING, WARNING | ERROR, ERROR => true
  | _, _ => false
  end.

(** The arguments of the log records of a level and a format, in order. *)
Definition records (lvl : level) (fmt : string) (evs : list event)
  : list (list log_arg) :=
  flat_map (fun ev =>
              match ev with
              | Logging l f args =>
                  if level_eqb l lvl && String.eqb f fmt then [args] else []
              | _ => []
              end) evs.

(** A computation that logs no record of a level and a format. *)
Definition silent {W A : Type} (lvl : level) (fmt : string) (m : M W A) : Prop :=
  forall w, records lvl fmt (events (m w)) = [].

(** What a trace prints. *)
Definition printed (evs : list event) : list string :=
  flat_map (fun ev => match ev with Print text => [text] | _ => [] end) evs.

(** A computation all of whose commands are of a kind. *)
Definition runs_only {W A : Type} (P : command -> Prop) (m : M W A) : Prop :=
  forall w cmd, In cmd (executed (events (m w))) -> P cmd.

(** What [find] prints for the paths of a list of names below a
    directory: one path a line. *)
Definition find_output (targets_dir : string) (names : list string) : string :=
  String.concat EmptyString
    (map (fun name => targets_dir +++ "/" +++ name +++ String PyStr.nl EmptyString) names).

(** A scripted world with other answers of the file-system calls, or
    other directory trees. *)
Definition with_fs (fs : fs_op -> option os_error) (w : scripted) : scripted :=
  {| s_exec := s_exec w;
     s_isdir := s_isdir w;
     s_exists := s_exists w;
     s_fs := fs;
     s_append := s_append w;
     s_listdir := s_listdir w;
     s_tree := s_tree w |}.

Definition with_tree (tree : string -> option node) (w : scripted) : scripted :=
  {| s_exec := s_exec w;
     s_isdir := s_isdir w;
     s_exists := s_exists w;
     s_fs := s_fs w;
     s_append := s_append w;
     s_listdir := s_listdir w;
     s_tree := tree |}.



(** A scripted world whose log files cannot be opened. *)
Definition with_append (append : string -> option os_error) (w : scripted) : scripted :=
  {| s_exec := s_exec w;
     s_isdir := s_isdir w;
     s_exists := s_exists w;
     s_fs := s_fs w;
     s_append := append;
     s_listdir := s_listdir w;
     s_tree := s_tree w |}.

Definition no_append (logfile : string) : option os_error := Some PermissionError.

(** [os.makedirs] refused. *)
Definition no_makedirs (op : fs_op) : option os_error :=
  match op with
  | Makedirs _ _ _ => Some PermissionError
  | _ => None
  end.

(** [os.chmod] refused. *)
Definition no_chmod (op : fs_op) : option os_error :=
  match op with
  | Chmod _ _ => Some PermissionError
  | _ => None
  end.

(** The command line with another value of [--devel]. *)
Definition with_devel (devel : bool) (args : arguments) : arguments :=
  {| arg_devel := devel;
     arg_quick := arg_quick args;
     arg_branch := arg_branch args;
     arg_build_root := arg_build_root args;
     arg_www_root := arg_www_root args;
     arg_skip_cache_invalidation := arg_skip_cache_invalidation args;
     arg_group := arg_group args;
     arg_log_directory := arg_log_directory args;
     arg_languages := arg_languages args;
     arg_version := arg_version args |}.

(** The command lines [--version] and [-b 2.7]. *)
Definition version_arguments : arguments :=
  {| arg_devel := false;
     arg_quick := false;
     arg_branch := None;
     arg_build_root := "/srv/docsbuild";
     arg_www_root := "/srv/docs.python.org";
     arg_skip_cache_invalidation := false;
     arg_group := "docs";
     arg_log_directory := "/var/log/docsbuild/";
     arg_languages := [];
     arg_version := true |}.

Definition old_branch_arguments : arguments :=
  {| arg_devel := false;
     arg_quick := false;
     arg_branch := Some "2.7";
     arg_build_root := "/srv/docsbuild";
     arg_www_root := "/srv/docs.python.org";
     arg_skip_cache_invalidation := false;
     arg_group := "docs";
     arg_log_directory := "/var/log/docsbuild/";
     arg_languages := ["en"; "fr"];
     arg_version := false |}.

(** The strings a pattern matches in full: what the patterns mean,
    against which the matcher [fullmatch] is checked. *)
Inductive matches : regex -> string -> Prop :=
| MEps : matches Eps EmptyString
| MDot (c : ascii) : Ascii.eqb c PyStr.nl = false -> matches Dot (String c EmptyString)
| MChr (c : ascii) : matches (Chr c) (String c EmptyString)
| MDigit (c : ascii) : PyStr.is_digit c = true -> matches Digit (String c EmptyString)
| MCat (r1 r2 : regex) (s1 s2 : string) :
    matches r1 s1 -> matches r2 s2 -> matches (Cat r1 r2) (s1 +++ s2)
| MAltL (r1 r2 : regex) (s : string) : matches r1 s -> matches (Alt r1 r2) s
| MAltR (r1 r2 : regex) (s : string) : matches r2 s -> matches (Alt r1 r2) s
| MStar0 (r : regex) : matches (Star r) EmptyString
| MStarS (r : regex) (s1 s2 : string) :
    matches r s1 -> matches (Star r) s2 -> matches (Star r) (s1 +++ s2).

(** A string of decimal digits, and one that is not empty. *)
Fixpoint all_digits (s : string) : bool :=
  match s with
  | EmptyString => true
  | String c s' => PyStr.is_digit c && all_digits s'
  end.

Definition is_digits (s : string) : bool := PyStr.truthy s && all_digits s.

(** A computation that never returns normally. *)
Definition fails {W A : Type} (m : M W A) : Prop :=
  forall w, exists e, res (m w) = Raise e.

(** The chgrp commands of a group. *)
Definition is_chgrp (group : string) (cmd : command) : Prop :=
  exists path, cmd = Argv ["chgrp"; "-R"; group; path].

(** What building a unit can raise, and what publishing it can raise. *)
Definition build_error (e : exn) : Prop :=
  match e with
  | KeyError | ValueError | IndexError | AttributeError | OSError _ => True
  | _ => False
  end.

Definition publish_error (e : exn) : Prop :=
  match e with
  | AttributeError | OSError _ => True
  | _ => False
  end.

(** A world with nothing in it: no directory exists, every command
    completes without output, every file-system call succeeds. *)
Definition bare_world : Env unit :=
  {| sentry_sdk := false;
     env_now := fun w => ("2020-01-01 00:00:00", w);
     env_check_output := fun _ _ w => (Completed EmptyString, w);
     env_isdir := fun _ _ => false;
     env_exists := fun _ _ => false;
     env_fs := fun _ w => (None, w);
     env_append := fun _ w => (None, w);
     env_listdir := fun _ _ => inr [];
     env_tree := fun _ _ => None;
     env_abspath := fun path _ => path |}.


(** Lines 321 to 343 of [copy_build_to_webroot]: the target directory
    made ready.  The world it ends in is the one in which [changed_files]
    compares the build with the target. *)
Definition publish_prepare {W : Type} `{Env W} (group version language www_root : string)
  : M W string :=
  logging INFO "Publishing start for version: %s, language: %s"
    [AStr version; AStr language] ;;
  target <-
    (if String.eqb language "en" then ret (path_join www_root version)
     else
       let language_dir := path_join www_root language in
       fs_call (Makedirs language_dir 511 true) ;;
       chgrp_or_warn group language_dir ;;
       fs_call (Chmod language_dir 509) ;;
       ret (path_join language_dir version)) ;;
  fs_call (Makedirs target 511 true) ;;
  try_except (fs_call (Chmod target 509)) is_PermissionError
    (fun err => logging WARNING "Can't change mod of %s: %s" [AStr target; AExn err]) ;;
  chgrp_or_warn group target ;;
  ret target.

(** The directory a build is published to. *)
Definition target_of (www_root version language : string) : string :=
  if String.eqb language "en" then path_join www_root version
  else path_join (path_join www_root language) version.

(** The commands of a quick publish. *)
Definition quick_command (build_root version language group www_root : string)
  (cmd : command) : Prop :=
  let html := path_join (checkout_of build_root version language) "Doc/build/html/" in
  let target := target_of www_root version language in
  is_chgrp group cmd
  \/ cmd = Argv ["chown"; "-R"; ":" +++ group; html]
  \/ cmd = Argv ["chmod"; "-R"; "o+r"; html]
  \/ cmd = Argv ["find"; html; "-type"; "d"; "-exec"; "chmod"; "o+x"; "{}"; ";"]
  \/ cmd = Argv ["rsync"; "-a"; html; target]
  \/ cmd = Argv ["find"; "-L"; www_root; "-samefile"; target]
  \/ is_purge cmd = true.
(** * Properties *)

(** ** Strings *)

Lemma split_no_sep (sep : ascii) (s : string) :
  PyStr.contains sep s = false -> PyStr.split sep s = [s].
Proof.
  induction s as [|c s IH]; simpl; intros Hc; [reflexivity|].
  apply orb_false_elim in Hc as [Hc1 Hc2].
  rewrite Hc1, (IH Hc2). reflexivity.
Qed.

Lemma split_app_sep (sep : ascii) (a b : string) :
  PyStr.contains sep a = false ->
  PyStr.split sep (a +++ String sep b) = a :: PyStr.split sep b.
Proof.
  induction a as [|c a IH]; simpl; intros Hc.
  - rewrite Ascii.eqb_refl. reflexivity.
  - apply orb_false_elim in Hc as [Hc1 Hc2].
    rewrite Hc1, (IH Hc2). reflexivity.
Qed.

Lemma contains_app_sep (sep : ascii) (a b : string) :
  PyStr.contains sep (a +++ String sep b) = true.
Proof.
  induction a as [|c a IH]; simpl.
  - rewrite Ascii.eqb_refl. reflexivity.
  - rewrite IH. apply orb_true_r.
Qed.

(** ** pep_545_tag_to_gettext_tag *)

(** C6. A tag without a separator is returned unchanged; a tag made of a
    language, one separator and a region becomes the language, an
    underscore and the region in upper case; "fr", "pt-br" and "zh-cn"
    give "fr", "pt_BR" and "zh_CN". *)
Theorem pep_545_tag_to_gettext_tag_spec :
  (forall tag,
      PyStr.contains "-" tag = false ->
      pep_545_tag_to_gettext_tag tag = Ok tag)
  /\ (forall language region,
         PyStr.contains "-" language = false ->
         PyStr.contains "-" region = false ->
         pep_545_tag_to_gettext_tag (language +++ "-" +++ region)
         = Ok (language +++ "_" +++ PyStr.upper region))
  /\ pep_545_tag_to_gettext_tag "fr" = Ok "fr"
  /\ pep_545_tag_to_gettext_tag "pt-br" = Ok "pt_BR"
  /\ pep_545_tag_to_gettext_tag "zh-cn" = Ok "zh_CN".
Proof.
  split; [|split; [|repeat split; reflexivity]].
  - intros tag Hc. unfold pep_545_tag_to_gettext_tag. rewrite Hc. reflexivity.
  - intros language region Hl Hr. unfold pep_545_tag_to_gettext_tag.
    change (language +++ "-" +++ region) with (language +++ String "-" region).
    rewrite contains_app_sep. simpl negb. cbv iota.
    rewrite (split_app_sep _ _ _ Hl), (split_no_sep _ _ Hr). reflexivity.
Qed.

(** The theorem at the tag "pt-br". *)
Lemma pep_545_tag_to_gettext_tag_witness :
  pep_545_tag_to_gettext_tag ("pt" +++ "-" +++ "br") = Ok ("pt" +++ "_" +++ PyStr.upper "br").
Proof.
  apply (proj1 (proj2 pep_545_tag_to_gettext_tag_spec)); reflexivity.
Defined.

(** More than one separator: the unpacking of the split fails. *)
Example pep_545_two_separators :
  pep_545_tag_to_gettext_tag "zh-hant-tw" = Raise ValueError.
Proof. reflexivity. Qed.

(** ** Order on version tuples *)

Ltac tuple_cases :=
  repeat match goal with
         | |- context [(?x <? ?y)%Z] => destruct (Z.ltb_spec x y)
         | H : context [(?x <? ?y)%Z] |- _ => destruct (Z.ltb_spec x y)
         end;
  try discriminate; try lia; eauto.

Lemma tuple_ltb_irrefl (a : version_tuple) : tuple_ltb a a = false.
Proof. induction a; simpl; [reflexivity|]. rewrite Z.ltb_irrefl. assumption. Qed.

Lemma tuple_ltb_trans (a b c : version_tuple) :
  tuple_ltb a b = true -> tuple_ltb b c = true -> tuple_ltb a c = true.
Proof.
  revert b c. induction a as [|x a IH]; intros [|y b] [|z c]; simpl; intros Hab Hbc;
    try discriminate; try reflexivity.
  tuple_cases.
Qed.

Lemma tuple_leb_ltb_trans (a b c : version_tuple) :
  tuple_ltb b a = false -> tuple_ltb b c = true -> tuple_ltb a c = true.
Proof.
  revert b c. induction a as [|x a IH]; intros [|y b] [|z c]; simpl; intros Hab Hbc;
    try discriminate; try reflexivity.
  tuple_cases.
Qed.

Lemma tuple_ltb_leb_trans (a b c : version_tuple) :
  tuple_ltb a b = true -> tuple_ltb c b = false -> tuple_ltb a c = true.
Proof.
  revert b c. induction a as [|x a IH]; intros [|y b] [|z c]; simpl; intros Hab Hbc;
    try discriminate; try reflexivity.
  tuple_cases.
Qed.

Lemma tuple_leb_trans (a b c : version_tuple) :
  tuple_ltb b a = false -> tuple_ltb c b = false -> tuple_ltb c a = false.
Proof.
  intros Hab Hbc. destruct (tuple_ltb c a) eqn:Hca; [|reflexivity].
  rewrite (tuple_ltb_leb_trans _ _ _ Hca Hab) in Hbc. discriminate.
Qed.

Lemma tuple_ltb_antisym (a b : version_tuple) :
  tuple_ltb a b = false -> tuple_ltb b a = false -> a = b.
Proof.
  revert b. induction a as [|x a IH]; intros [|y b]; simpl; intros Hab Hba;
    try discriminate; try reflexivity.
  tuple_cases. assert (x = y) by lia. subst. f_equal. auto.
Qed.

Lemma tuple_ltb_asym (a b : version_tuple) :
  tuple_ltb a b = true -> tuple_ltb b a = false.
Proof.
  intros Hab. destruct (tuple_ltb b a) eqn:Hba; [|reflexivity].
  pose proof (tuple_ltb_trans _ _ _ Hab Hba) as Haa.
  rewrite tuple_ltb_irrefl in Haa. discriminate.
Qed.

(** ** bisect on a sorted list *)

Lemma sorted_tuples_head (a : version_tuple) (l : list version_tuple) :
  sorted_tuples (a :: l) = true ->
  forall x, In x l -> tuple_ltb x a = false.
Proof.
  revert a. induction l as [|b l IH]; intros a Hs x Hx; [destruct Hx|].
  simpl in Hs. apply andb_true_iff in Hs as [Hab Hs].
  unfold tuple_leb in Hab. apply negb_true_iff in Hab.
  destruct Hx as [<-|Hx]; [assumption|].
  eapply tuple_leb_trans; [exact Hab|]. apply (IH b Hs x Hx).
Qed.

Lemma sorted_tuples_tail (a : version_tuple) (l : list version_tuple) :
  sorted_tuples (a :: l) = true -> sorted_tuples l = true.
Proof.
  destruct l as [|b l]; [reflexivity|].
  simpl. intros Hs. apply andb_true_iff in Hs as [_ Hs]. exact Hs.
Qed.

Lemma sorted_tuples_nth (l : list version_tuple) :
  sorted_tuples l = true ->
  forall i j, i <= j -> j < length l ->
  tuple_ltb (nth j l []) (nth i l []) = false.
Proof.
  induction l as [|a l IH]; intros Hs i j Hij Hj; [simpl in Hj; lia|].
  destruct j as [|j].
  - assert (i = 0) by lia. subst. apply tuple_ltb_irrefl.
  - simpl in Hj. destruct i as [|i].
    + simpl. apply (sorted_tuples_head a l Hs). apply nth_In. lia.
    + simpl. apply IH; [eapply sorted_tuples_tail; eassumption | lia | lia].
Qed.

(** What the loop keeps true: everything left of [lo] is below [x],
    nothing from [hi] on is. *)
Lemma bisect_loop_spec (a : list version_tuple) (x : version_tuple) :
  sorted_tuples a = true ->
  forall fuel lo hi,
    lo <= hi -> hi <= length a -> hi - lo <= fuel ->
    (forall i, i < lo -> tuple_ltb (nth i a []) x = true) ->
    (forall i, hi <= i -> i < length a -> tuple_ltb (nth i a []) x = false) ->
    bisect_loop fuel a x lo hi <= length a
    /\ (forall i, i < bisect_loop fuel a x lo hi -> tuple_ltb (nth i a []) x = true)
    /\ (forall i, bisect_loop fuel a x lo hi <= i -> i < length a ->
                  tuple_ltb (nth i a []) x = false).
Proof.
  intros Hs. induction fuel as [|fuel IH]; intros lo hi Hlo Hhi Hfuel Hbelow Habove;
    cbn [bisect_loop].
  - assert (lo = hi) by lia. subst. repeat split; auto.
  - destruct (Nat.ltb_spec lo hi) as [Hlt|Hge].
    + assert (Hmid : lo <= (lo + hi) / 2 < hi).
      { split.
        - apply Nat.div_le_lower_bound; lia.
        - apply Nat.Div0.div_lt_upper_bound; lia. }
      destruct (tuple_ltb (nth ((lo + hi) / 2) a []) x) eqn:Hcmp.
      * apply IH.
        -- lia.
        -- lia.
        -- lia.
        -- intros i Hi.
           eapply tuple_leb_ltb_trans; [|exact Hcmp].
           apply sorted_tuples_nth; [assumption|lia|lia].
        -- assumption.
      * apply IH.
        -- lia.
        -- lia.
        -- lia.
        -- assumption.
        -- intros i Hi Hlen.
           destruct (tuple_ltb (nth i a []) x) eqn:Hix; [|reflexivity].
           assert (Hle : tuple_ltb (nth i a []) (nth ((lo + hi) / 2) a []) = false)
             by (apply sorted_tuples_nth; [assumption|lia|lia]).
           rewrite (tuple_leb_ltb_trans _ _ _ Hle Hix) in Hcmp. discriminate.
    + assert (lo = hi) by lia. subst. repeat split; auto.
Qed.

Lemma bisect_spec (a : list version_tuple) (x : version_tuple) :
  sorted_tuples a = true ->
  bisect a x <= length a
  /\ (forall i, i < bisect a x -> tuple_ltb (nth i a []) x = true)
  /\ (forall i, bisect a x <= i -> i < length a -> tuple_ltb (nth i a []) x = false).
Proof.
  intros Hs. unfold bisect.
  apply (bisect_loop_spec a x Hs); try lia; intros; lia.
Qed.

(** ** Printing and reading integers *)

Lemma digits_val_digit (c : ascii) (acc : Z) (after_digit : bool) (s : string) :
  PyStr.is_digit c = true ->
  PyStr.digits_val acc after_digit (String c s)
  = PyStr.digits_val (10 * acc + PyStr.digit_val c) true s.
Proof. intros Hc. cbn [PyStr.digits_val]. rewrite Hc. reflexivity. Qed.

Lemma digits_val_uint (d : Decimal.uint) (acc : Z) (after_digit : bool) :
  d <> Decimal.Nil \/ after_digit = true ->
  PyStr.digits_val acc after_digit (NilEmpty.string_of_uint d) = Some (uint_val acc d).
Proof.
  revert acc after_digit.
  induction d; intros acc after_digit Hd;
    try (cbn [NilEmpty.string_of_uint uint_val];
         rewrite digits_val_digit by reflexivity;
         apply IHd; right; reflexivity).
  simpl. destruct Hd as [Hd| ->]; [congruence|reflexivity].
Qed.

Lemma uint_val_of_uint_acc (d : Decimal.uint) (acc : positive) :
  Z.pos (Pos.of_uint_acc d acc) = uint_val (Z.pos acc) d.
Proof.
  revert acc. induction d; intros acc; cbn [Pos.of_uint_acc uint_val];
    try reflexivity; rewrite IHd; f_equal; lia.
Qed.

Lemma uint_val_of_uint (d : Decimal.uint) : Z.of_N (Pos.of_uint d) = uint_val 0 d.
Proof.
  induction d; cbn [Pos.of_uint uint_val]; try reflexivity; try assumption;
    cbn [Z.of_N]; rewrite uint_val_of_uint_acc; reflexivity.
Qed.

Lemma string_of_uint_no_dot (d : Decimal.uint) :
  PyStr.contains "." (NilEmpty.string_of_uint d) = false.
Proof. induction d; simpl; auto. Qed.

Lemma rstrip_uint (d : Decimal.uint) :
  PyStr.rstrip (NilEmpty.string_of_uint d) = NilEmpty.string_of_uint d.
Proof.
  induction d; try reflexivity;
    cbn [NilEmpty.string_of_uint PyStr.rstrip]; rewrite IHd;
    destruct (NilEmpty.string_of_uint d); reflexivity.
Qed.

Lemma int_uint (d : Decimal.uint) :
  d <> Decimal.Nil ->
  PyStr.int (NilEmpty.string_of_uint d) = Some (uint_val 0 d).
Proof.
  intros Hd. unfold PyStr.int, PyStr.strip.
  assert (Hl : PyStr.lstrip (NilEmpty.string_of_uint d) = NilEmpty.string_of_uint d)
    by (destruct d; reflexivity).
  rewrite Hl, rstrip_uint.
  pose proof (digits_val_uint d 0 false (or_introl Hd)) as Hv.
  destruct d; try congruence; exact Hv.
Qed.

(** Reading what [str] printed gives the number back. *)
Lemma int_str (n : Z) : (0 <= n)%Z -> PyStr.int (PyStr.str n) = Some n.
Proof.
  intros Hn. destruct n as [|p|p]; [reflexivity| |lia].
  unfold PyStr.str. cbn [Z.to_int NilZero.string_of_int].
  pose proof (Unsigned.to_uint_nonnil p) as Hp.
  assert (E : NilZero.string_of_uint (Pos.to_uint p)
              = NilEmpty.string_of_uint (Pos.to_uint p))
    by (destruct (Pos.to_uint p); [congruence|reflexivity..]).
  rewrite E, (int_uint _ Hp), <- uint_val_of_uint, DecimalPos.Unsigned.of_to.
  reflexivity.
Qed.

Lemma str_no_dot (n : Z) : (0 <= n)%Z -> PyStr.contains "." (PyStr.str n) = false.
Proof.
  intros Hn. destruct n as [|p|p]; [reflexivity| |lia].
  unfold PyStr.str. cbn [Z.to_int NilZero.string_of_int].
  destruct (Pos.to_uint p) eqn:E; try reflexivity;
    rewrite <- E; unfold NilZero.string_of_uint; rewrite E;
    apply string_of_uint_no_dot.
Qed.

(** The [major.minor] version strings are the strings made of two
    non-negative integers as [str] prints them, a dot in between. *)
Lemma is_version_iff (version : string) :
  is_version version = true
  <-> exists major minor,
        (0 <= major)%Z /\ (0 <= minor)%Z
        /\ version = PyStr.str major +++ "." +++ PyStr.str minor.
Proof.
  split.
  - unfold is_version.
    destruct (version_to_tuple version) as [[|major [|minor [|]]]|]; try discriminate.
    intros Hv. apply andb_true_iff in Hv as [Hv E].
    apply andb_true_iff in Hv as [HM Hm].
    apply String.eqb_eq in E. exists major, minor.
    repeat split; [lia|lia|]. symmetry. exact E.
  - intros (major & minor & HM & Hm & ->).
    unfold is_version, version_to_tuple.
    change (PyStr.str major +++ "." +++ PyStr.str minor)
      with (PyStr.str major +++ String "." (PyStr.str minor)).
    rewrite (split_app_sep _ _ _ (str_no_dot major HM)).
    rewrite (split_no_sep _ _ (str_no_dot minor Hm)).
    simpl. unfold int_part. rewrite (int_str major HM), (int_str minor Hm).
    apply andb_true_iff. split.
    + apply andb_true_iff. split; apply Z.leb_le; assumption.
    + apply String.eqb_refl.
Qed.

(** ** locate_nearest_version *)

Lemma is_version_parses (v : string) :
  is_version v = true ->
  version_to_tuple v = Ok (version_key v) /\ tuple_to_version (version_key v) = v.
Proof.
  unfold is_version, version_key.
  destruct (version_to_tuple v) as [[|major [|minor [|]]]|]; try discriminate.
  intros Hv. apply andb_true_iff in Hv as [_ Hv].
  apply String.eqb_eq in Hv. split; [reflexivity|assumption].
Qed.

Lemma map_result_versions (available : list string) :
  forallb is_version available = true ->
  map_result version_to_tuple available = Ok (map version_key available).
Proof.
  induction available as [|v l IH]; simpl; intros Hall; [reflexivity|].
  apply andb_true_iff in Hall as [Hv Hl].
  destruct (is_version_parses v Hv) as [-> _]. rewrite (IH Hl). reflexivity.
Qed.

Lemma is_version_key_inj (a b : string) :
  is_version a = true -> is_version b = true ->
  version_key a = version_key b -> a = b.
Proof.
  intros Ha Hb Hk.
  destruct (is_version_parses a Ha) as [_ <-].
  destruct (is_version_parses b Hb) as [_ <-].
  rewrite Hk. reflexivity.
Qed.

Lemma nth_version_key (available : list string) (i : nat) :
  nth i (map version_key available) [] = version_key (nth i available EmptyString)
  \/ length available <= i.
Proof.
  destruct (Nat.lt_ge_cases i (length available)) as [Hi|Hi]; [left|right; assumption].
  rewrite (nth_indep _ [] (version_key EmptyString)) by (rewrite length_map; assumption).
  apply map_nth.
Qed.

Lemma nth_key (available : list string) (i : nat) :
  i < length available ->
  nth i (map version_key available) [] = version_key (nth i available EmptyString).
Proof.
  intros Hi. destruct (nth_version_key available i) as [E|E]; [exact E|lia].
Qed.

Lemma forallb_nth (available : list string) (i : nat) :
  forallb is_version available = true -> i < length available ->
  is_version (nth i available EmptyString) = true.
Proof.
  intros Hall Hi. rewrite forallb_forall in Hall. apply Hall. apply nth_In. assumption.
Qed.

Lemma list_last_nth {A : Type} (l : list A) (d : A) :
  0 < length l -> list_last l = Some (nth (length l - 1) l d).
Proof.
  intros Hl. unfold list_last. destruct l as [|a l]; [simpl in Hl; lia|].
  apply nth_error_nth'. simpl. lia.
Qed.

(** C1. On a non-empty list of [major.minor] version strings sorted by
    their numeric value, [locate_nearest_version] returns a member of the
    list; the target itself when it is in the list; and in every case the
    smallest member not below the target or, when every member is below
    the target, the largest member.  The five examples of the docstring
    hold. *)
Theorem locate_nearest_version_spec :
  (forall available t,
      available <> [] ->
      forallb is_version available = true ->
      is_version t = true ->
      sorted_versions available = true ->
      exists r,
        locate_nearest_version available t = Ok r
        /\ In r available
        /\ (In t available -> r = t)
        /\ ((version_le t r
             /\ forall v, In v available -> version_le t v -> version_le r v)
            \/ ((forall v, In v available -> version_lt v t)
                /\ forall v, In v available -> version_le v r)))
  /\ map (locate_nearest_version ["2.7"; "3.6"; "3.7"; "3.8"])
         ["3.9"; "3.5"; "2.6"; "3.10"; "3.7"]
     = [Ok "3.8"; Ok "3.6"; Ok "2.7"; Ok "3.8"; Ok "3.7"].
Proof.
  split; [|vm_compute; reflexivity].
  intros available t Hne Hall Ht Hs.
  unfold locate_nearest_version, list_index.
  rewrite (map_result_versions available Hall).
  destruct (is_version_parses t Ht) as [-> _].
  pose proof (length_map version_key available) as Hlen.
  destruct (bisect_spec (map version_key available) (version_key t) Hs)
    as (Hk & Hbelow0 & Habove0).
  set (k := bisect (map version_key available) (version_key t)) in *.
  rewrite Hlen in Hk, Habove0.
  assert (Hbelow : forall j, j < k ->
            tuple_ltb (version_key (nth j available EmptyString)) (version_key t) = true).
  { intros j Hj. rewrite <- nth_key by lia. apply Hbelow0. assumption. }
  assert (Habove : forall j, k <= j -> j < length available ->
            tuple_ltb (version_key (nth j available EmptyString)) (version_key t) = false).
  { intros j Hj Hl. rewrite <- nth_key by lia. apply Habove0; assumption. }
  assert (Hsorted : forall i j, i <= j -> j < length available ->
            version_le (nth i available EmptyString) (nth j available EmptyString)).
  { intros i j Hij Hj. unfold version_le. rewrite <- !nth_key by lia.
    apply sorted_tuples_nth; [exact Hs|assumption|rewrite Hlen; assumption]. }
  clear Hbelow0 Habove0.
  assert (Hpos : 0 < length available) by (destruct available; [congruence|simpl; lia]).
  assert (Hindex : forall v, In v available ->
                     exists j, j < length available /\ nth j available EmptyString = v).
  { intros v Hv. destruct (In_nth _ _ EmptyString Hv) as (j & Hj & E). eauto. }
  destruct (Nat.lt_ge_cases k (length available)) as [Hin|Hout].
  - (* the insertion point is inside the list *)
    rewrite (nth_error_nth' (map version_key available) []) by (rewrite Hlen; assumption).
    rewrite (nth_key available k Hin).
    destruct (is_version_parses _ (forallb_nth available k Hall Hin)) as [_ Hprint].
    rewrite Hprint.
    assert (Hge : version_le t (nth k available EmptyString)).
    { unfold version_le. apply Habove; lia. }
    assert (Hmin : forall v, In v available -> version_le t v ->
                     version_le (nth k available EmptyString) v).
    { intros v Hv Hle. destruct (Hindex v Hv) as (j & Hj & <-).
      destruct (Nat.lt_ge_cases j k) as [Hjk|Hjk].
      - unfold version_le in Hle. rewrite (Hbelow j Hjk) in Hle. discriminate.
      - apply Hsorted; assumption. }
    exists (nth k available EmptyString). repeat split.
    + apply nth_In; assumption.
    + intros Hmem.
      apply is_version_key_inj; [apply forallb_nth; assumption|assumption|].
      apply tuple_ltb_antisym.
      * exact Hge.
      * apply (Hmin t Hmem). unfold version_le. apply tuple_ltb_irrefl.
    + left. split; assumption.
  - (* every member is below the target *)
    rewrite (proj2 (nth_error_None (map version_key available) k)) by (rewrite Hlen; lia).
    rewrite (list_last_nth (map version_key available) []) by (rewrite Hlen; assumption).
    rewrite Hlen.
    set (m := length available - 1).
    assert (Hm : m < length available) by (unfold m; lia).
    rewrite (nth_key available m Hm).
    destruct (is_version_parses _ (forallb_nth available m Hall Hm)) as [_ Hprint].
    rewrite Hprint.
    assert (Hall_below : forall v, In v available -> version_lt v t).
    { intros v Hv. destruct (Hindex v Hv) as (j & Hj & <-).
      unfold version_lt. apply Hbelow. lia. }
    exists (nth m available EmptyString). repeat split.
    + apply nth_In; assumption.
    + intros Hmem. pose proof (Hall_below t Hmem) as Hlt.
      unfold version_lt in Hlt. rewrite tuple_ltb_irrefl in Hlt. discriminate.
    + right. split; [assumption|].
      intros v Hv. destruct (Hindex v Hv) as (j & Hj & <-).
      apply Hsorted; [unfold m; lia|assumption].
Qed.

(** The theorem at the list of the docstring and the target 3.5. *)
Lemma locate_nearest_version_witness :
  exists r,
    locate_nearest_version ["2.7"; "3.6"; "3.7"; "3.8"] "3.5" = Ok r
    /\ In r ["2.7"; "3.6"; "3.7"; "3.8"]
    /\ (In "3.5" ["2.7"; "3.6"; "3.7"; "3.8"] -> r = "3.5")
    /\ ((version_le "3.5" r
         /\ forall v, In v ["2.7"; "3.6"; "3.7"; "3.8"] ->
                      version_le "3.5" v -> version_le r v)
        \/ ((forall v, In v ["2.7"; "3.6"; "3.7"; "3.8"] -> version_lt v "3.5")
            /\ forall v, In v ["2.7"; "3.6"; "3.7"; "3.8"] -> version_le v r)).
Proof.
  apply (proj1 locate_nearest_version_spec);
    [discriminate | reflexivity | reflexivity | reflexivity].
Defined.

(** Strings that are not in the notation [str] prints are brought to it:
    the result is then the normal form, not the string of the list. *)
Example locate_nearest_version_normalises :
  locate_nearest_version ["3.07"] "3.07" = Ok "3.7"
  /\ is_version "3.07" = false
  /\ is_version "3.10" = true.
Proof. vm_compute. repeat split. Qed.

(** An empty list is an [IndexError], raised by the handler's own
    [available_versions_tuples[-1]]. *)
Lemma locate_nearest_version_empty (t : string) :
  is_version t = true -> locate_nearest_version [] t = Raise IndexError.
Proof.
  intros Ht. unfold locate_nearest_version. simpl.
  destruct (is_version_parses t Ht) as [-> _]. reflexivity.
Qed.

(** ** changed_files *)

(** Induction on directory trees, with the hypothesis for every entry of
    a directory. *)
Lemma node_induction (P : node -> Prop) :
  (forall f, P (File f)) ->
  P Special ->
  (forall entries, Forall (fun e => P (snd e)) entries -> P (Dir entries)) ->
  forall x, P x.
Proof.
  intros HF HS HD.
  fix IH 1. intros [f|entries|].
  - apply HF.
  - apply HD. induction entries as [|[n y] rest IHrest]; constructor.
    + apply IH.
    + exact IHrest.
  - apply HS.
Qed.

Lemma distinct_NoDup (names : list string) :
  distinct names = true -> NoDup names.
Proof.
  induction names as [|n rest IH]; simpl; intros Hd; constructor.
  - apply andb_true_iff in Hd as [Hn _]. apply negb_true_iff in Hn.
    intros Hin. assert (existsb (String.eqb n) rest = true) as E.
    { apply existsb_exists. exists n. split; [assumption|apply String.eqb_refl]. }
    congruence.
  - apply andb_true_iff in Hd as [_ Hd]. auto.
Qed.

Lemma wf_node_Dir (entries : list (string * node)) :
  wf_node (Dir entries) = true ->
  NoDup (map fst entries) /\ Forall (fun e => wf_node (snd e) = true) entries.
Proof.
  simpl. intros Hwf. apply andb_true_iff in Hwf as [Hd Hall].
  split; [apply distinct_NoDup; assumption|].
  clear Hd. induction entries as [|[n y] rest IH]; constructor.
  - apply andb_true_iff in Hall as [Hy _]. exact Hy.
  - apply andb_true_iff in Hall as [_ Hall]. auto.
Qed.

Lemma lookup_In (name : string) (entries : list (string * node)) (x : node) :
  lookup name entries = Some x -> In (name, x) entries.
Proof.
  induction entries as [|[n y] rest IH]; simpl; [discriminate|].
  destruct (String.eqb_spec n name) as [->|Hne].
  - intros [= ->]. left. reflexivity.
  - intros Hl. right. auto.
Qed.

Lemma In_lookup (name : string) (entries : list (string * node)) (x : node) :
  NoDup (map fst entries) -> In (name, x) entries -> lookup name entries = Some x.
Proof.
  induction entries as [|[n y] rest IH]; simpl; intros Hnd Hin; [destruct Hin|].
  inversion Hnd as [|? ? Hnotin Hnd']; subst.
  destruct Hin as [[= -> ->]|Hin].
  - rewrite String.eqb_refl. reflexivity.
  - destruct (String.eqb_spec n name) as [->|Hne]; [|auto].
    exfalso. apply Hnotin. apply (in_map fst) in Hin. exact Hin.
Qed.

(** The differing files of one directory, as a flat map over its
    entries. *)
Lemma diff_files_flat_map (left right : list (string * node)) :
  diff_files left right
  = flat_map (fun e : string * node =>
                if skipped (fst e) then []
                else match snd e, lookup (fst e) right with
                     | File a, Some (File b) => if cmp a b then [] else [fst e]
                     | _, _ => []
                     end) left.
Proof.
  induction left as [|[n x] rest IH]; simpl; [reflexivity|].
  rewrite IH. reflexivity.
Qed.

(** One step of [traverse], the inner loop as a flat map. *)
Lemma traverse_Dir (base : list string) (entries right : list (string * node)) :
  traverse base (Dir entries) right
  = map (rel_path base) (diff_files entries right)
    ++ flat_map (fun e : string * node =>
                   if skipped (fst e) then []
                   else match snd e, lookup (fst e) right with
                        | Dir _, Some (Dir r) => traverse (base ++ [fst e]) (snd e) r
                        | _, _ => []
                        end) entries.
Proof.
  simpl. f_equal.
  induction entries as [|[n x] rest IH]; simpl; [reflexivity|].
  rewrite IH. reflexivity.
Qed.

Lemma diff_files_In (name : string) (left right : list (string * node)) :
  NoDup (map fst left) ->
  In name (diff_files left right)
  <-> skipped name = false
      /\ exists a b, lookup name left = Some (File a)
                     /\ lookup name right = Some (File b)
                     /\ cmp a b = false.
Proof.
  intros Hnd. rewrite diff_files_flat_map, in_flat_map. split.
  - intros ([n x] & Hin & Hname). simpl in Hname.
    destruct (skipped n) eqn:Hskip; [destruct Hname|].
    destruct x as [a| |]; try solve [destruct Hname].
    destruct (lookup n right) as [[b| |]|] eqn:Hr; try solve [destruct Hname].
    destruct (cmp a b) eqn:Hcmp; [destruct Hname|].
    destruct Hname as [<-|[]].
    split; [assumption|]. exists a, b. repeat split; try assumption.
    apply In_lookup; assumption.
  - intros (Hskip & a & b & Hl & Hr & Hcmp).
    exists (name, File a). split; [apply lookup_In; assumption|].
    simpl. rewrite Hskip, Hr, Hcmp. left. reflexivity.
Qed.

Lemma reported_one (left right : list (string * node)) (name : string) :
  reported left right [name]
  <-> skipped name = false
      /\ exists a b, lookup name left = Some (File a)
                     /\ lookup name right = Some (File b)
                     /\ cmp a b = false.
Proof.
  unfold reported. simpl. split.
  - intros (a & b & Hl & Hr & Hcmp & Hskip).
    rewrite andb_true_r in Hskip. apply negb_true_iff in Hskip.
    split; [assumption|]. exists a, b.
    destruct (lookup name left) as [[?| |]|]; try discriminate.
    destruct (lookup name right) as [[?| |]|]; try discriminate.
    injection Hl as ->. injection Hr as ->. auto.
  - intros (Hskip & a & b & Hl & Hr & Hcmp). exists a, b.
    rewrite Hl, Hr, Hskip. auto.
Qed.

Lemma reported_deeper (left right : list (string * node)) (name next : string)
  (rest : list string) :
  reported left right (name :: next :: rest)
  <-> skipped name = false
      /\ exists l r, lookup name left = Some (Dir l)
                     /\ lookup name right = Some (Dir r)
                     /\ reported l r (next :: rest).
Proof.
  unfold reported. cbn [file_at forallb]. split.
  - intros (a & b & Hl & Hr & Hcmp & Hskip).
    apply andb_true_iff in Hskip as [Hname Hskip]. apply negb_true_iff in Hname.
    split; [assumption|].
    destruct (lookup name left) as [[?|l|]|]; try discriminate.
    destruct (lookup name right) as [[?|r|]|]; try discriminate.
    exists l, r. repeat split. exists a, b. auto.
  - intros (Hname & l & r & Hl & Hr & a & b & Hfl & Hfr & Hcmp & Hskip).
    exists a, b. rewrite Hl, Hr, Hname. auto.
Qed.

Lemma traverse_spec (x : node) :
  wf_node x = true ->
  forall base right s,
    In s (traverse base x right)
    <-> exists entries path,
          x = Dir entries
          /\ s = PyStr.join "/" (base ++ path)
          /\ reported entries right path.
Proof.
  induction x as [f| |entries IH] using node_induction; intros Hwf base right s.
  - simpl. split; [intros []|intros (es & p & E & _); discriminate].
  - simpl. split; [intros []|intros (es & p & E & _); discriminate].
  - destruct (wf_node_Dir entries Hwf) as [Hnd Hall].
    rewrite traverse_Dir, in_app_iff, in_map_iff, in_flat_map. split.
    + intros [(name & <- & Hin)|([n y] & Hin & Hs)].
      * exists entries, [name]. repeat split.
        apply reported_one. apply diff_files_In; assumption.
      * simpl in Hs. destruct (skipped n) eqn:Hskip; [destruct Hs|].
        destruct y as [|l|]; try solve [destruct Hs].
        destruct (lookup n right) as [[|r|]|] eqn:Hr; try solve [destruct Hs].
        rewrite Forall_forall in IH, Hall.
        apply (IH _ Hin (Hall _ Hin)) in Hs as (l' & path & [= <-] & -> & Hrep).
        destruct path as [|next rest].
        { destruct Hrep as (a & b & Hfa & _). discriminate. }
        exists entries, (n :: next :: rest). repeat split.
        -- rewrite <- app_assoc. reflexivity.
        -- apply reported_deeper. split; [assumption|].
           exists l, r. repeat split; try assumption.
           apply In_lookup; assumption.
    + intros (es & path & [= <-] & -> & Hrep).
      destruct path as [|name [|next rest]].
      * destruct Hrep as (a & b & Hfa & _). discriminate.
      * left. exists name. split; [reflexivity|].
        apply diff_files_In; [assumption|]. apply reported_one. assumption.
      * right. apply reported_deeper in Hrep as (Hskip & l & r & Hl & Hr & Hrep).
        exists (name, Dir l). split; [apply lookup_In; assumption|].
        simpl. rewrite Hskip, Hr.
        rewrite Forall_forall in IH, Hall.
        apply lookup_In in Hl.
        apply (IH _ Hl (Hall _ Hl)).
        exists l, (next :: rest). repeat split; [|assumption].
        rewrite <- app_assoc. reflexivity.
Qed.

(** C2, as the code has it.  On two directories (no directory listing a
    name twice), [changed_files] returns the paths, relative to the left
    tree, of the regular files present in both trees, under directories
    present in both trees, that [filecmp] tells apart, the names
    [dircmp] ignores left out.  A file present in one tree only is not
    among them. *)
Theorem changed_files_spec (left right : list (string * node)) :
  wf_node (Dir left) = true ->
  exists changed,
    changed_files (Some (Dir left)) (Some (Dir right)) = Ok changed
    /\ forall s,
         In s changed
         <-> exists path, s = PyStr.join "/" path /\ reported left right path.
Proof.
  intros Hwf. exists (traverse [] (Dir left) right). split; [reflexivity|].
  intros s. rewrite (traverse_spec (Dir left) Hwf [] right s). split.
  - intros (entries & path & [= <-] & -> & Hrep). exists path. auto.
  - intros (path & -> & Hrep). exists left, path. auto.
Qed.

(** The theorem at the sample build and the sample published tree. *)
Lemma changed_files_witness :
  exists changed,
    changed_files (Some (Dir built_tree)) (Some (Dir published_tree)) = Ok changed
    /\ forall s,
         In s changed
         <-> exists path, s = PyStr.join "/" path /\ reported built_tree published_tree path.
Proof.
  apply changed_files_spec. reflexivity.
Defined.

(** C2, as stated, fails: a page added to the build and a page modified
    in it do not give those two paths.  The added page is in the build,
    not in the published tree, and not in the result. *)
Lemma changed_files_misses_added_file :
  changed_files (Some (Dir built_tree)) (Some (Dir published_tree))
  = Ok ["index.html"; "library/os.html"]
  /\ file_at built_tree ["whatsnew.html"]
     = Some {| st_mtime := 200; content := "added page" |}
  /\ file_at published_tree ["whatsnew.html"] = None
  /\ ~ In "whatsnew.html" ["index.html"; "library/os.html"].
Proof.
  repeat split; try reflexivity.
  intros [H|[H|[]]]; discriminate.
Qed.

(** Equal size and modification time are enough for [filecmp] to take
    two files for the same. *)
Example changed_files_shallow :
  changed_files
    (Some (Dir [("a.html", File {| st_mtime := 1; content := "abc" |})]))
    (Some (Dir [("a.html", File {| st_mtime := 1; content := "xyz" |})]))
  = Ok [].
Proof. reflexivity. Qed.

(** A missing side is an error of [os.listdir]. *)
Example changed_files_missing_build :
  changed_files None (Some (Dir published_tree)) = Raise (OSError FileNotFoundError).
Proof. reflexivity. Qed.

(** ** The effect monad *)

Section MonadFacts.

Context {W : Type}.

Lemma bind_ok {A B : Type} (m : M W A) (k : A -> M W B) (w : W) (a : A) :
  res (m w) = Ok a ->
  bind m k w
  = {| res := res (k a (final (m w)));
       final := final (k a (final (m w)));
       events := events (m w) ++ events (k a (final (m w))) |}.
Proof. intros E. unfold bind. rewrite E. reflexivity. Qed.

Lemma bind_raise {A B : Type} (m : M W A) (k : A -> M W B) (w : W) (e : exn) :
  res (m w) = Raise e ->
  bind m k w = {| res := Raise e; final := final (m w); events := events (m w) |}.
Proof. intros E. unfold bind. rewrite E. reflexivity. Qed.




Lemma raises_only_ret {A : Type} (P : exn -> Prop) (a : A) : @raises_only W A P (ret a).
Proof. intros w e. discriminate. Qed.

Lemma raises_only_emit (P : exn -> Prop) (ev : event) : @raises_only W unit P (emit ev).
Proof. intros w e. discriminate. Qed.

Lemma raises_only_raise {A : Type} (P : exn -> Prop) (e : exn) :
  P e -> raises_only P (@raise W A e).
Proof. intros HP w e' [= <-]. assumption. Qed.

Lemma raises_only_lift {A : Type} (P : exn -> Prop) (r : result A) :
  (forall e, r = Raise e -> P e) -> raises_only P (@lift W A r).
Proof. intros HP w e E. apply HP. exact E. Qed.

Lemma raises_only_bind {A B : Type} (P : exn -> Prop) (m : M W A) (k : A -> M W B) :
  raises_only P m -> (forall a, raises_only P (k a)) -> raises_only P (bind m k).
Proof.
  intros Hm Hk w e. unfold bind.
  destruct (res (m w)) as [a|e'] eqn:E; simpl.
  - apply Hk.
  - intros [= <-]. apply (Hm w). assumption.
Qed.

Lemma raises_only_try {A : Type} (P : exn -> Prop) (m : M W A)
  (catches : exn -> bool) (handler : exn -> M W A) :
  (forall w e, res (m w) = Raise e -> catches e = false -> P e) ->
  (forall e, raises_only P (handler e)) ->
  raises_only P (try_except m catches handler).
Proof.
  intros Hm Hh w e. unfold try_except.
  destruct (res (m w)) as [a|e'] eqn:E; [congruence|].
  destruct (catches e') eqn:C; simpl.
  - apply Hh.
  - rewrite E. intros [= <-]. apply (Hm w); assumption.
Qed.

Lemma raises_only_when (P : exn -> Prop) (b : bool) (m : M W unit) :
  raises_only P m -> raises_only P (when b m).
Proof. destruct b; simpl; [auto|]. intros _. apply (raises_only_ret P tt). Qed.

Lemma raises_only_for_each {A : Type} (P : exn -> Prop) (l : list A)
  (body : A -> M W unit) :
  (forall x, raises_only P (body x)) -> raises_only P (for_each l body).
Proof.
  intros Hb. induction l as [|x l IH]; simpl.
  - apply (raises_only_ret P tt).
  - apply raises_only_bind; auto.
Qed.


Lemma bind_assoc {A B C : Type} (m : M W A) (k : A -> M W B) (h : B -> M W C) (w : W) :
  bind (bind m k) h w = bind m (fun a => bind (k a) h) w.
Proof.
  unfold bind. destruct (res (m w)) as [a|e]; simpl; [|reflexivity].
  destruct (res (k a (final (m w)))) as [b|e]; simpl; [|reflexivity].
  rewrite app_assoc. reflexivity.
Qed.

Lemma bind_ext {A B : Type} (m : M W A) (k k' : A -> M W B) (w : W) :
  (forall a w', k a w' = k' a w') -> bind m k w = bind m k' w.
Proof. intros E. unfold bind. destruct (res (m w)); [rewrite E|]; reflexivity. Qed.

Lemma for_each_app {A : Type} (l1 l2 : list A) (body : A -> M W unit) (w : W) :
  for_each (l1 ++ l2) body w = bind (for_each l1 body) (fun _ => for_each l2 body) w.
Proof.
  revert w. induction l1 as [|x l1 IH]; intros w; simpl.
  - unfold bind, ret. simpl. destruct (for_each l2 body w). reflexivity.
  - rewrite bind_assoc. apply bind_ext. intros _ w'. apply IH.
Qed.

End MonadFacts.

Lemma executed_app (a b : list event) : executed (a ++ b) = executed a ++ executed b.
Proof. apply flat_map_app. Qed.

Lemma fs_calls_app (a b : list event) : fs_calls (a ++ b) = fs_calls a ++ fs_calls b.
Proof. apply flat_map_app. Qed.

(** ** shell_out *)

Section ShellOut.

Context {W : Type} `{Env W}.

(** A command that exits with a non-zero status, no log file given: what
    [shell_out] returns and emits. *)
Lemma shell_out_failed (cmd : command) (shell : bool)
  (w w1 w2 : W) (now output : string) :
  env_now w = (now, w1) ->
  env_check_output cmd shell w1 = (Failed output, w2) ->
  shell_out cmd shell None w
  = {| res := Ok None;
       final := w2;
       events :=
         [Logging DEBUG "Running command %r" [ACmd cmd];
          Exec cmd shell (Failed output)]
         ++ (if sentry_sdk then [SentryCapture CalledProcessError (Some cmd)] else [])
         ++ [Logging ERROR "Command failed with output %r" [AStr output]] |}.
Proof.
  intros Hnow Hrun.
  unfold shell_out, bind, logging, emit, datetime_now, check_output, when, ret.
  simpl. rewrite Hnow. simpl. rewrite Hrun. simpl.
  destruct sentry_sdk; reflexivity.
Qed.

Lemma shell_out_success (cmd : command) (shell : bool)
  (w w1 w2 : W) (now output : string) :
  env_now w = (now, w1) ->
  env_check_output cmd shell w1 = (Completed output, w2) ->
  shell_out cmd shell None w
  = {| res := Ok (Some output);
       final := w2;
       events :=
         [Logging DEBUG "Running command %r" [ACmd cmd];
          Exec cmd shell (Completed output)] |}.
Proof.
  intros Hnow Hrun.
  unfold shell_out, bind, logging, emit, datetime_now, check_output, when, ret.
  simpl. rewrite Hnow. simpl. rewrite Hrun. reflexivity.
Qed.

(** The same with a log file: the entry is written and [shell_out] goes
    on when the file can be opened; the [OSError] of [open] leaves
    [shell_out] when it cannot. *)
Lemma shell_out_failed_log (cmd : command) (shell : bool) (logfile : option string)
  (lf : string) (w w1 w2 w3 : W) (now output : string) (a : option os_error) :
  given logfile = Some lf ->
  env_now w = (now, w1) ->
  env_check_output cmd shell w1 = (Failed output, w2) ->
  env_append lf w2 = (a, w3) ->
  shell_out cmd shell logfile w
  = match a with
    | None =>
        {| res := Ok None;
           final := w3;
           events :=
             [Logging DEBUG "Running command %r" [ACmd cmd];
              Exec cmd shell (Failed output)]
             ++ (if sentry_sdk then [SentryCapture CalledProcessError (Some cmd)]
                 else [])
             ++ [LogfileAppend lf now cmd false output;
                 Logging ERROR "Command failed (see %s at %s)" [AStr lf; AStr now]] |}
    | Some e =>
        {| res := Raise (OSError e);
           final := w3;
           events :=
             [Logging DEBUG "Running command %r" [ACmd cmd];
              Exec cmd shell (Failed output)]
             ++ (if sentry_sdk then [SentryCapture CalledProcessError (Some cmd)]
                 else []) |}
    end.
Proof.
  intros Hlf Hnow Hrun Happend.
  unfold shell_out, bind, logging, emit, datetime_now, check_output, when, ret,
    append_log.
  simpl. rewrite Hnow. simpl. rewrite Hrun. simpl. rewrite Hlf.
  destruct sentry_sdk; simpl; rewrite Happend; destruct a; reflexivity.
Qed.

Lemma shell_out_success_log (cmd : command) (shell : bool) (logfile : option string)
  (lf : string) (w w1 w2 w3 : W) (now output : string) (a : option os_error) :
  given logfile = Some lf ->
  env_now w = (now, w1) ->
  env_check_output cmd shell w1 = (Completed output, w2) ->
  env_append lf w2 = (a, w3) ->
  shell_out cmd shell logfile w
  = match a with
    | None =>
        {| res := Ok (Some output);
           final := w3;
           events :=
             [Logging DEBUG "Running command %r" [ACmd cmd];
              Exec cmd shell (Completed output);
              LogfileAppend lf now cmd true output] |}
    | Some e =>
        {| res := Raise (OSError e);
           final := w3;
           events :=
             [Logging DEBUG "Running command %r" [ACmd cmd];
              Exec cmd shell (Completed output)] |}
    end.
Proof.
  intros Hlf Hnow Hrun Happend.
  unfold shell_out, bind, logging, emit, datetime_now, check_output, when, ret,
    append_log.
  simpl. rewrite Hnow. simpl. rewrite Hrun. simpl. rewrite Hlf.
  rewrite Happend; destruct a; reflexivity.
Qed.

Lemma given_None (logfile : option string) :
  given logfile = None -> forall cmd shell (w : W),
  shell_out cmd shell logfile w = shell_out cmd shell None w.
Proof.
  intros Hlf cmd shell w. unfold shell_out. rewrite Hlf. reflexivity.
Qed.

(** Without a log file [shell_out] returns, whatever the command does;
    it runs that one command and touches no file through the file-system
    calls. *)
Lemma shell_out_run (cmd : command) (shell : bool) (w : W) :
  exists r w' evs,
    shell_out cmd shell None w = {| res := Ok r; final := w'; events := evs |}
    /\ executed evs = [cmd]
    /\ fs_calls evs = [].
Proof.
  destruct (env_now w) as [now w1] eqn:Hnow.
  destruct (env_check_output cmd shell w1) as [[output|output] w2] eqn:Hrun.
  - rewrite (shell_out_success _ _ _ _ _ _ _ Hnow Hrun).
    do 3 eexists. split; [reflexivity|]. split; reflexivity.
  - rewrite (shell_out_failed _ _ _ _ _ _ _ Hnow Hrun).
    do 3 eexists. split; [reflexivity|].
    destruct sentry_sdk; split; reflexivity.
Qed.


(** With or without a log file, [shell_out] runs its one command, makes
    no file-system call, and raises nothing but the [OSError] of the log
    file. *)
Lemma shell_out_effects (cmd : command) (shell : bool) (logfile : option string)
  (w : W) :
  executed (events (shell_out cmd shell logfile w)) = [cmd]
  /\ fs_calls (events (shell_out cmd shell logfile w)) = []
  /\ forall e, res (shell_out cmd shell logfile w) = Raise e ->
                exists err, e = OSError err.
Proof.
  destruct (given logfile) as [lf|] eqn:Hlf.
  - destruct (env_now w) as [now w1] eqn:Hnow.
    destruct (env_check_output cmd shell w1) as [[output|output] w2] eqn:Hrun;
      destruct (env_append lf w2) as [a w3] eqn:Happend.
    + rewrite (shell_out_success_log _ _ _ _ _ _ _ _ _ _ _ Hlf Hnow Hrun Happend).
      destruct a; cbn [res events]; repeat split; try discriminate.
      intros e' [= <-]. eauto.
    + rewrite (shell_out_failed_log _ _ _ _ _ _ _ _ _ _ _ Hlf Hnow Hrun Happend).
      destruct a, sentry_sdk; cbn [res events]; repeat split; try discriminate;
        intros e' [= <-]; eauto.
  - rewrite (given_None _ Hlf).
    destruct (shell_out_run cmd shell w) as (r & w' & evs & -> & Hx & Hf).
    cbn [res events]. repeat split; try assumption. discriminate.
Qed.


End ShellOut.

Section ShellOutWitness.



End ShellOutWitness.

(** ** Running a computation step by step *)

Section Running.

Context {W : Type} `{Env W}.

Lemma bind_eq {A B : Type} (m : M W A) (k : A -> M W B) (w : W) :
  bind m k w = bind_with (m w) k.
Proof. unfold bind, bind_with, prepend. destruct (res (m w)); reflexivity. Qed.

Lemma try_except_eq {A : Type} (m : M W A) (catches : exn -> bool)
  (handler : exn -> M W A) (w : W) :
  try_except m catches handler w = handle_with (m w) catches handler.
Proof.
  unfold try_except, handle_with, prepend. destruct (res (m w)); [reflexivity|].
  destruct (catches e); reflexivity.
Qed.

Lemma bind_with_ok {A B : Type} (a : A) (w : W) (evs : list event) (k : A -> M W B) :
  bind_with {| res := Ok a; final := w; events := evs |} k = prepend evs (k a w).
Proof. reflexivity. Qed.

Lemma bind_with_raise {A B : Type} (e : exn) (w : W) (evs : list event)
  (k : A -> M W B) :
  bind_with {| res := Raise e; final := w; events := evs |} k
  = {| res := Raise e; final := w; events := evs |}.
Proof. reflexivity. Qed.

Lemma handle_with_ok {A : Type} (a : A) (w : W) (evs : list event)
  (catches : exn -> bool) (handler : exn -> M W A) :
  handle_with {| res := Ok a; final := w; events := evs |} catches handler
  = {| res := Ok a; final := w; events := evs |}.
Proof. reflexivity. Qed.

Lemma handle_with_raise {A : Type} (e : exn) (w : W) (evs : list event)
  (catches : exn -> bool) (handler : exn -> M W A) :
  handle_with {| res := Raise e; final := w; events := evs |} catches handler
  = if catches e then prepend evs (handler e w)
    else {| res := Raise e; final := w; events := evs |}.
Proof. reflexivity. Qed.

Lemma prepend_value {A : Type} (evs evs' : list event) (r : result A) (w : W) :
  prepend evs {| res := r; final := w; events := evs' |}
  = {| res := r; final := w; events := evs ++ evs' |}.
Proof. reflexivity. Qed.

Lemma ret_run {A : Type} (a : A) (w : W) :
  ret a w = {| res := Ok a; final := w; events := [] |}.
Proof. reflexivity. Qed.

Lemma raise_run {A : Type} (e : exn) (w : W) :
  @raise W A e w = {| res := Raise e; final := w; events := [] |}.
Proof. reflexivity. Qed.

Lemma lift_run {A : Type} (r : result A) (w : W) :
  lift r w = {| res := r; final := w; events := [] |}.
Proof. reflexivity. Qed.

Lemma emit_run (ev : event) (w : W) :
  emit ev w = {| res := Ok tt; final := w; events := [ev] |}.
Proof. reflexivity. Qed.

Lemma logging_run (lvl : level) (fmt : string) (args : list log_arg) (w : W) :
  logging lvl fmt args w
  = {| res := Ok tt; final := w; events := [Logging lvl fmt args] |}.
Proof. reflexivity. Qed.

Lemma os_path_isdir_run (path : string) (w : W) :
  os_path_isdir path w = {| res := Ok (env_isdir path w); final := w; events := [] |}.
Proof. reflexivity. Qed.

Lemma os_path_exists_run (path : string) (w : W) :
  os_path_exists path w = {| res := Ok (env_exists path w); final := w; events := [] |}.
Proof. reflexivity. Qed.

Lemma os_path_abspath_run (path : string) (w : W) :
  os_path_abspath path w
  = {| res := Ok (env_abspath path w); final := w; events := [] |}.
Proof. reflexivity. Qed.

Lemma when_true_run (m : M W unit) (w : W) : when true m w = m w.
Proof. reflexivity. Qed.

Lemma when_false_run (m : M W unit) (w : W) :
  when false m w = {| res := Ok tt; final := w; events := [] |}.
Proof. reflexivity. Qed.

Lemma fs_call_run (op : fs_op) (w w' : W) (err : option os_error) :
  env_fs op w = (err, w') ->
  fs_call op w
  = {| res := match err with None => Ok tt | Some e => Raise (OSError e) end;
       final := w';
       events := [Fs op err] |}.
Proof. intros E. unfold fs_call. rewrite E. reflexivity. Qed.

Lemma sentry_set_tags_value (version language : string) (w : W) :
  sentry_set_tags version language w
  = {| res := Ok tt;
       final := w;
       events := if sentry_sdk
                 then [SentryTag "version" version; SentryTag "language" language]
                 else [] |}.
Proof. unfold sentry_set_tags. destruct sentry_sdk; reflexivity. Qed.

End Running.

Create Rewrite HintDb run.

#[local] Hint Rewrite @bind_eq @try_except_eq @bind_with_ok @bind_with_raise
  @handle_with_ok @handle_with_raise @prepend_value @ret_run @raise_run @lift_run
  @emit_run @logging_run @os_path_isdir_run @os_path_exists_run @os_path_abspath_run
  @when_true_run @when_false_run @sentry_set_tags_value : run.

(** One call of [shell_out] in the goal replaced by what it returns. *)
Ltac run_shell_out :=
  match goal with
  | |- context [shell_out ?c ?s None ?w] =>
      let r := fresh "r" in
      let w' := fresh "w" in
      let evs := fresh "evs" in
      let E := fresh "E" in
      let Hx := fresh "Hx" in
      let Hf := fresh "Hf" in
      destruct (shell_out_run c s w) as (r & w' & evs & E & Hx & Hf);
      rewrite E; clear E
  end.

(** A file-system call whose outcome is a hypothesis. *)
Ltac run_fs_call :=
  match goal with
  | E : env_fs ?op ?w = _ |- context [fs_call ?op ?w] => rewrite (fs_call_run op w _ _ E)
  end.

(** A test whose value is a hypothesis. *)
Ltac run_test :=
  match goal with
  | E : ?b = true |- context [if ?b then _ else _] => rewrite E
  | E : ?b = false |- context [if ?b then _ else _] => rewrite E
  end.

Ltac run_steps :=
  repeat (progress (autorewrite with run; cbv beta iota)
          || run_test || run_fs_call || run_shell_out).

(** ** git_clone *)

Section GitClone.

Context {W : Type} `{Env W}.

(** C3, as the code has it.  When the directory has no [.git],
    [git_clone] removes the directory if it exists, creates it again,
    clones the repository into it (depth 1, all branches) and, when a
    branch is asked for, checks it out; whatever these commands exit
    with, [git_clone] returns normally. *)
Theorem git_clone_fresh (repository directory : string) (branch : option string)
  (w w1 w2 : W) :
  env_isdir (path_join directory ".git") w = false ->
  (if env_exists directory w then env_fs (Rmtree directory) w = (None, w1) else w1 = w) ->
  env_fs (Makedirs directory 509 false) w1 = (None, w2) ->
  res (git_clone repository directory branch w) = Ok tt
  /\ fs_calls (events (git_clone repository directory branch w))
     = (if env_exists directory w then [Rmtree directory] else [])
       ++ [Makedirs directory 509 false]
  /\ executed (events (git_clone repository directory branch w))
     = clone_command repository directory :: checkout_commands directory branch.
Proof.
  intros Hgit Hrm Hmk. unfold git_clone, clone_command, checkout_commands.
  autorewrite with run. cbv beta. rewrite Hgit. cbn [negb].
  destruct (env_exists directory w) eqn:Hthere; [|subst w1];
    destruct (given branch) as [b|]; run_steps; cbn [res final events];
    rewrite ?fs_calls_app, ?executed_app, ?Hx, ?Hf, ?Hx0, ?Hf0; repeat split.
Qed.

(** With a [.git] in place only the update commands run, whatever they
    exit with: [shell_out] raises no [CalledProcessError], so the
    handler of [git_clone] is never entered from them. *)
Lemma git_clone_update (repository directory : string) (branch : option string) (w : W) :
  env_isdir (path_join directory ".git") w = true ->
  res (git_clone repository directory branch w) = Ok tt
  /\ fs_calls (events (git_clone repository directory branch w)) = []
  /\ executed (events (git_clone repository directory branch w))
     = Argv ["git"; "-C"; directory; "fetch"]
       :: match given branch with
          | Some b => [ Argv ["git"; "-C"; directory; "checkout"; b];
                        Argv ["git"; "-C"; directory; "reset"; "--hard"; "origin/" +++ b] ]
          | None => []
          end.
Proof.
  intros Hgit. unfold git_clone.
  autorewrite with run. cbv beta. rewrite Hgit. cbn [negb].
  destruct (given branch) as [b|]; run_steps; cbn [res final events];
    rewrite ?fs_calls_app, ?executed_app, ?Hx, ?Hf, ?Hx0, ?Hf0, ?Hx1, ?Hf1;
    repeat split.
Qed.

End GitClone.
(** The theorem in a world without [.git] where every command works. *)
Lemma git_clone_fresh_witness :
  res (git_clone "https://github.com/python/cpython.git" "/srv/docsbuild/3.8/cpython-en"
         (Some "3.8") (sample_world (fun _ => false) false sample_branches)) = Ok tt
  /\ fs_calls (events (git_clone "https://github.com/python/cpython.git"
                         "/srv/docsbuild/3.8/cpython-en" (Some "3.8")
                         (sample_world (fun _ => false) false sample_branches)))
     = [Rmtree "/srv/docsbuild/3.8/cpython-en";
        Makedirs "/srv/docsbuild/3.8/cpython-en" 509 false]
  /\ executed (events (git_clone "https://github.com/python/cpython.git"
                         "/srv/docsbuild/3.8/cpython-en" (Some "3.8")
                         (sample_world (fun _ => false) false sample_branches)))
     = [clone_command "https://github.com/python/cpython.git" "/srv/docsbuild/3.8/cpython-en";
        Argv ["git"; "-C"; "/srv/docsbuild/3.8/cpython-en"; "checkout"; "3.8"]].
Proof.
  exact (git_clone_fresh "https://github.com/python/cpython.git"
           "/srv/docsbuild/3.8/cpython-en" (Some "3.8")
           (sample_world (fun _ => false) false sample_branches)
           (sample_world (fun _ => false) false sample_branches)
           (sample_world (fun _ => false) false sample_branches)
           eq_refl eq_refl eq_refl).
Defined.

(** C3, as stated, fails on the fallback path: the clone exits with a
    non-zero status and [git_clone] returns normally all the same. *)
Lemma git_clone_failed_clone_returns :
  res (git_clone "https://github.com/python/cpython.git" "/srv/docsbuild/3.8/cpython-en"
         (Some "3.8") (sample_world (argv_has "clone") false sample_branches)) = Ok tt
  /\ In (Exec (clone_command "https://github.com/python/cpython.git"
                 "/srv/docsbuild/3.8/cpython-en") false (Failed "failed"))
        (events (git_clone "https://github.com/python/cpython.git"
                   "/srv/docsbuild/3.8/cpython-en" (Some "3.8")
                   (sample_world (argv_has "clone") false sample_branches))).
Proof.
  split; [reflexivity|]. vm_compute. tauto.
Qed.

(** A failed fetch in a working copy that has its [.git]: no fallback,
    the checkout and the reset follow. *)
Example git_clone_failed_fetch :
  executed (events (git_clone "https://github.com/python/cpython.git"
                      "/srv/docsbuild/3.8/cpython-en" (Some "3.8")
                      (sample_world (argv_has "fetch") true sample_branches)))
  = [ Argv ["git"; "-C"; "/srv/docsbuild/3.8/cpython-en"; "fetch"];
      Argv ["git"; "-C"; "/srv/docsbuild/3.8/cpython-en"; "checkout"; "3.8"];
      Argv ["git"; "-C"; "/srv/docsbuild/3.8/cpython-en"; "reset"; "--hard"; "origin/3.8"] ]
  /\ In (Exec (Argv ["git"; "-C"; "/srv/docsbuild/3.8/cpython-en"; "fetch"]) false
           (Failed "failed"))
        (events (git_clone "https://github.com/python/cpython.git"
                   "/srv/docsbuild/3.8/cpython-en" (Some "3.8")
                   (sample_world (argv_has "fetch") true sample_branches))).
Proof.
  split; [reflexivity|]. vm_compute. tauto.
Qed.

(** ** build_one and the publish step *)

Lemma truthy_append_r (a b : string) : PyStr.truthy b = true -> PyStr.truthy (a +++ b) = true.
Proof. destruct a; simpl; auto. Qed.



Section BuildOne.

Context {W : Type} `{Env W}.




End BuildOne.

(** Membership in a computed list of events. *)
Ltac find_event := vm_compute; repeat (try (left; reflexivity); right).


(** ** translation_branch *)

Example version_branches_sample :
  version_branches sample_branches = ["3.7"; "3.8"; "3.8"]
  /\ version_branches unversioned_branches = [].
Proof. vm_compute. split; reflexivity. Qed.

Example re_match_version_branch_samples :
  map re_match_version_branch
    [ "  origin/3.8"; "origin/3.10"; "  origin/HEAD -> origin/3.8";
      "origin/master"; "origin/3.x"; "origin/3.8-wip"; "3.8"; "origin/3."; "origin/.8" ]
  = [ true; true; true; false; false; false; false; false; false ].
Proof. vm_compute. reflexivity. Qed.

Lemma version_branches_none (listing : string) :
  (forall branch, In branch (PyStr.split PyStr.nl listing) ->
                  re_match_version_branch branch = false) ->
  version_branches listing = [].
Proof.
  intros Hnone. unfold version_branches.
  induction (PyStr.split PyStr.nl listing) as [|branch l IH]; [reflexivity|].
  simpl. rewrite (Hnone branch) by (left; reflexivity).
  apply IH. intros b Hb. apply Hnone. right. assumption.
Qed.

Lemma locate_nearest_version_nothing (needed : string) :
  (exists t, version_to_tuple needed = Ok t) ->
  locate_nearest_version [] needed = Raise IndexError.
Proof.
  intros [t Ht]. unfold locate_nearest_version. simpl. rewrite Ht. reflexivity.
Qed.

Section TranslationBranch.

Context {W : Type} `{Env W}.

(** C8, as the code has it.  When the listing of the remote branches
    holds no branch of the form [major.minor], [translation_branch]
    hands the empty list to [locate_nearest_version], which raises
    [IndexError]; that error is what [translation_branch] raises, and
    no branch is returned. *)
Theorem translation_branch_no_match (locale_repo locale_clone_dir needed : string)
  (w w1 w2 : W) (now listing : string) :
  res (git_clone locale_repo locale_clone_dir None w) = Ok tt ->
  env_now (final (git_clone locale_repo locale_clone_dir None w)) = (now, w1) ->
  env_check_output (Argv ["git"; "-C"; locale_clone_dir; "branch"; "-r"]) false w1
  = (Completed listing, w2) ->
  (forall branch, In branch (PyStr.split PyStr.nl listing) ->
                  re_match_version_branch branch = false) ->
  (exists t, version_to_tuple needed = Ok t) ->
  locate_nearest_version (version_branches listing) needed = Raise IndexError
  /\ res (translation_branch locale_repo locale_clone_dir needed w) = Raise IndexError.
Proof.
  intros Hclone Hnow Hrun Hnomatch Hneeded.
  pose proof (version_branches_none listing Hnomatch) as Hnone.
  assert (Hlocate : locate_nearest_version (version_branches listing) needed
                    = Raise IndexError)
    by (rewrite Hnone; apply locate_nearest_version_nothing; assumption).
  split; [exact Hlocate|].
  unfold translation_branch. rewrite bind_eq.
  destruct (git_clone locale_repo locale_clone_dir None w) as [r wf evs].
  cbn [res final] in Hclone, Hnow. subst r.
  autorewrite with run. cbv beta.
  rewrite (shell_out_success _ _ _ _ _ _ _ Hnow Hrun).
  autorewrite with run. cbv beta iota. autorewrite with run.
  cbn [res]. exact Hlocate.
Qed.

End TranslationBranch.

Lemma unversioned_no_match (branch : string) :
  In branch (PyStr.split PyStr.nl unversioned_branches) ->
  re_match_version_branch branch = false.
Proof.
  intros [<-|[<-|[<-|[]]]]; reflexivity.
Qed.

(** The theorem in a world whose translation repository has no version
    branch. *)
Lemma translation_branch_no_match_witness :
  locate_nearest_version (version_branches unversioned_branches) "3.9" = Raise IndexError
  /\ res (translation_branch "https://github.com/python/python-docs-fr.git"
            "/srv/docsbuild/3.9/locale/fr/LC_MESSAGES" "3.9"
            (sample_world (fun _ => false) true unversioned_branches))
     = Raise IndexError.
Proof.
  exact (translation_branch_no_match "https://github.com/python/python-docs-fr.git"
           "/srv/docsbuild/3.9/locale/fr/LC_MESSAGES" "3.9"
           (sample_world (fun _ => false) true unversioned_branches)
           (sample_world (fun _ => false) true unversioned_branches)
           (sample_world (fun _ => false) true unversioned_branches)
           "2020-01-01 00:00:00" unversioned_branches
           eq_refl eq_refl eq_refl unversioned_no_match
           (ex_intro _ [3; 9]%Z eq_refl)).
Defined.

(** C8, as stated, fails: no remote branch has the form [major.minor],
    [locate_nearest_version] is called with the empty list all the same,
    and what comes out of [translation_branch] is the [IndexError] of a
    list index out of range; the unit then fails with that error. *)
Lemma translation_branch_index_error :
  version_branches unversioned_branches = []
  /\ locate_nearest_version [] "3.9" = Raise IndexError
  /\ res (translation_branch "https://github.com/python/python-docs-fr.git"
            "/srv/docsbuild/3.9/locale/fr/LC_MESSAGES" "3.9"
            (sample_world (fun _ => false) true unversioned_branches))
     = Raise IndexError
  /\ In (Logging ERROR "Exception while building %s version %s: %s"
           [AStr "fr"; AStr "3.9"; AExn IndexError])
        (events (build_unit sample_arguments "/srv/docsbuild/venv" ("3.9", "3.9", true) "fr"
                   (sample_world (fun _ => false) true unversioned_branches))).
Proof.
  split; [vm_compute; reflexivity|].
  split; [vm_compute; reflexivity|].
  split; [vm_compute; reflexivity|].
  find_event.
Qed.

(** ** The cache purge *)



Lemma append_empty_r (a : string) : a +++ EmptyString = a.
Proof. induction a as [|c a IH]; simpl; [reflexivity|]. rewrite IH. reflexivity. Qed.

Lemma prefix_append (a c : string) : prefix a (a +++ c) = true.
Proof.
  induction a as [|x a IH]; simpl; [destruct c; reflexivity|].
  destruct (ascii_dec x x) as [_|N]; [assumption|congruence].
Qed.



Lemma to_purge_of_In (prefixes changed : list string) (p : string) :
  In p (to_purge_of prefixes changed)
  <-> In p prefixes
      \/ exists prefix c, In prefix prefixes /\ In c changed /\ p = prefix +++ c.
Proof.
  unfold to_purge_of. rewrite in_app_iff, in_flat_map. split.
  - intros [Hp|(prefix & Hprefix & Hin)]; [left; assumption|right].
    apply in_map_iff in Hin as (c & <- & Hc). eauto.
  - intros [Hp|(prefix & c & Hprefix & Hc & ->)]; [left; assumption|right].
    exists prefix. split; [assumption|]. apply in_map_iff. eauto.
Qed.



Section PurgeCache.

Context {W : Type} `{Env W}.


(** When the lookup of the aliases fails, its result is [None] and the
    [replace] on it raises: no purge request is made. *)
Lemma purge_cache_lookup_failed (changed : list string) (www_root target : string)
  (w w1 w2 : W) (now output : string) :
  changed <> [] ->
  env_now w = (now, w1) ->
  env_check_output (Argv ["find"; "-L"; www_root; "-samefile"; target]) false w1
  = (Failed output, w2) ->
  res (purge_cache changed false www_root target w) = Raise AttributeError
  /\ purges (events (purge_cache changed false www_root target w)) = [].
Proof.
  intros Hne Hnow Hrun.
  unfold purge_cache. destruct changed as [|c changed]; [congruence|].
  autorewrite with run. cbv beta. cbn [negb andb].
  autorewrite with run. cbv beta.
  rewrite (shell_out_failed _ _ _ _ _ _ _ Hnow Hrun).
  run_steps. cbn [res final events]. split; [reflexivity|].
  destruct sentry_sdk; reflexivity.
Qed.

End PurgeCache.

Example purge_of_two_pages :
  to_purge_of
    (alias_prefixes "/srv/docs.python.org"
       (lines ["/srv/docs.python.org/3.8"; "/srv/docs.python.org/3"]))
    ["index.html"; "library/os.html"]
  = [ "3.8/"; "3/";
      "3.8/index.html"; "3.8/library/os.html";
      "3/index.html"; "3/library/os.html" ].
Proof. vm_compute. reflexivity. Qed.

(** ** What the script can raise *)

Lemma dict_get_raises {A : Type} (d : list (string * A)) (key : string) (e : exn) :
  dict_get d key = Raise e -> caught_by_main e.
Proof.
  induction d as [|[k v] d IH]; simpl.
  - intros [= <-]. reflexivity.
  - destruct (String.eqb k key); [discriminate|assumption].
Qed.

Lemma pep_545_raises (tag : string) (e : exn) :
  pep_545_tag_to_gettext_tag tag = Raise e -> caught_by_main e.
Proof.
  unfold pep_545_tag_to_gettext_tag.
  destruct (negb (PyStr.contains "-" tag)); [discriminate|].
  destruct (PyStr.split "-" tag) as [|? [|? [|? ?]]]; try discriminate;
    intros [= <-]; reflexivity.
Qed.

Lemma map_result_raises {A B : Type} (f : A -> result B) (l : list A) (e : exn) :
  (forall a e', f a = Raise e' -> caught_by_main e') ->
  map_result f l = Raise e -> caught_by_main e.
Proof.
  intros Hf. induction l as [|a l IH]; simpl; [discriminate|].
  destruct (f a) as [b|e'] eqn:Ea.
  - destruct (map_result f l) as [bs|e'']; [discriminate|].
    intros [= <-]. apply IH. reflexivity.
  - intros [= <-]. apply (Hf a). assumption.
Qed.

Lemma version_to_tuple_raises (version : string) (e : exn) :
  version_to_tuple version = Raise e -> caught_by_main e.
Proof.
  apply map_result_raises. intros part e'. unfold int_part.
  destruct (PyStr.int part); [discriminate|]. intros [= <-]. reflexivity.
Qed.

Lemma locate_nearest_version_raises (available : list string) (target : string) (e : exn) :
  locate_nearest_version available target = Raise e -> caught_by_main e.
Proof.
  unfold locate_nearest_version.
  destruct (map_result version_to_tuple available) as [tuples|e'] eqn:Ea.
  - destruct (version_to_tuple target) as [t|e''] eqn:Et.
    + destruct (list_index tuples (bisect tuples t)); [discriminate|].
      destruct (list_last tuples); [discriminate|]. intros [= <-]. reflexivity.
    + intros [= <-]. apply (version_to_tuple_raises target). assumption.
  - intros [= <-].
    apply (map_result_raises version_to_tuple available); [|assumption].
    apply version_to_tuple_raises.
Qed.

Lemma changed_files_raises (left right : option node) (e : exn) :
  changed_files left right = Raise e -> caught_by_main e.
Proof.
  unfold changed_files.
  destruct left as [[?|?|]|]; try (intros [= <-]; reflexivity).
  destruct right as [[?|?|]|]; try (intros [= <-]; reflexivity); try discriminate.
Qed.

Section Raises.

Context {W : Type} `{Env W}.

Lemma raises_only_try_weak {A : Type} (P : exn -> Prop) (m : M W A)
  (catches : exn -> bool) (handler : exn -> M W A) :
  raises_only P m -> (forall e, raises_only P (handler e)) ->
  raises_only P (try_except m catches handler).
Proof.
  intros Hm Hh. apply raises_only_try; [|assumption].
  intros w e E _. apply (Hm w). assumption.
Qed.

Lemma shell_out_raises (P : exn -> Prop) (cmd : command) (shell : bool)
  (logfile : option string) :
  (forall err, P (OSError err)) -> raises_only P (shell_out cmd shell logfile).
Proof.
  intros HP w e E.
  destruct (shell_out_effects cmd shell logfile w) as (_ & _ & Hraise).
  destruct (Hraise e E) as [err ->]. apply HP.
Qed.

Lemma shell_out_returns (P : exn -> Prop) (cmd : command) (shell : bool) :
  raises_only P (shell_out cmd shell None).
Proof.
  intros w e. destruct (shell_out_run cmd shell w) as (r & w' & evs & -> & _).
  discriminate.
Qed.

Lemma logging_raises (P : exn -> Prop) (lvl : level) (fmt : string)
  (args : list log_arg) : @raises_only W unit P (logging lvl fmt args).
Proof. apply raises_only_emit. Qed.

Lemma fs_call_raises (op : fs_op) : raises_only caught_by_main (fs_call op).
Proof.
  intros w e. unfold fs_call. destruct (env_fs op w) as [[err|] w']; simpl.
  - intros [= <-]. reflexivity.
  - discriminate.
Qed.

Lemma os_listdir_raises (path : string) : raises_only caught_by_main (os_listdir path).
Proof.
  intros w e. unfold os_listdir. simpl.
  destruct (env_listdir path w); [|discriminate]. intros [= <-]. reflexivity.
Qed.

Lemma os_path_isdir_raises (P : exn -> Prop) (path : string) :
  raises_only P (os_path_isdir path).
Proof. intros w e. discriminate. Qed.

Lemma os_path_exists_raises (P : exn -> Prop) (path : string) :
  raises_only P (os_path_exists path).
Proof. intros w e. discriminate. Qed.

Lemma changed_files_of_raises (left right : string) :
  raises_only caught_by_main (changed_files_of left right).
Proof. intros w e. apply changed_files_raises. Qed.

Lemma sentry_set_tags_raises (P : exn -> Prop) (version language : string) :
  raises_only P (sentry_set_tags version language).
Proof. intros w e. rewrite sentry_set_tags_value. discriminate. Qed.

End Raises.

(** The pieces of a computation, one after the other. *)
Ltac raises_step :=
  match goal with
  | |- raises_only _ (bind _ _) => apply raises_only_bind; [|intros ?]
  | |- raises_only _ (try_except _ _ _) => apply raises_only_try_weak; [|intros ?]
  | |- raises_only _ (@ret _ unit _) => apply (raises_only_ret _ tt)
  | |- raises_only _ (ret _) => apply raises_only_ret
  | |- raises_only _ (emit _) => apply raises_only_emit
  | |- raises_only _ (logging _ _ _) => apply logging_raises
  | |- raises_only _ (when _ _) => apply raises_only_when
  | |- raises_only _ (raise _) => apply raises_only_raise; reflexivity
  | |- raises_only _ (shell_out _ _ None) => apply shell_out_returns
  | |- raises_only _ (shell_out _ _ _) =>
      apply shell_out_raises; intros ?; first [reflexivity | exact I]
  | |- raises_only _ (fs_call _) => apply fs_call_raises
  | |- raises_only _ (os_listdir _) => apply os_listdir_raises
  | |- raises_only _ (os_path_isdir _) => apply os_path_isdir_raises
  | |- raises_only _ (os_path_exists _) => apply os_path_exists_raises
  | |- raises_only _ (changed_files_of _ _) => apply changed_files_of_raises
  | |- raises_only _ (sentry_set_tags _ _) => apply sentry_set_tags_raises
  | |- raises_only _ (lift (dict_get _ _)) =>
      apply raises_only_lift; apply dict_get_raises
  | |- raises_only _ (lift (pep_545_tag_to_gettext_tag _)) =>
      apply raises_only_lift; apply pep_545_raises
  | |- raises_only _ (lift (locate_nearest_version _ _)) =>
      apply raises_only_lift; apply locate_nearest_version_raises
  | |- raises_only _ (if ?b then _ else _) => destruct b
  | |- raises_only _ (match ?x with _ => _ end) => destruct x
  end.

Section Units.

Context {W : Type} `{Env W}.

Lemma git_clone_raises (repository directory : string) (branch : option string) :
  raises_only caught_by_main (git_clone repository directory branch).
Proof. unfold git_clone. repeat raises_step. Qed.

Lemma translation_branch_raises (locale_repo locale_clone_dir needed : string) :
  raises_only caught_by_main (translation_branch locale_repo locale_clone_dir needed).
Proof.
  unfold translation_branch.
  apply raises_only_bind; [apply git_clone_raises|intros ?].
  repeat raises_step.
Qed.

Lemma build_one_raises (version git_branch : string) (isdev quick : bool)
  (venv build_root group log_directory language : string) :
  raises_only caught_by_main
    (build_one version git_branch isdev quick venv build_root group log_directory
       language).
Proof.
  unfold build_one, build_one_sync, build_one_make.
  repeat first [ apply git_clone_raises | apply translation_branch_raises | raises_step ].
Qed.

Lemma copy_build_to_webroot_raises (build_root version language group : string)
  (quick skip : bool) (www_root : string) :
  raises_only caught_by_main
    (copy_build_to_webroot build_root version language group quick skip www_root).
Proof.
  unfold copy_build_to_webroot, publish_build, purge_cache, chgrp_or_warn.
  repeat raises_step.
Qed.

Lemma build_and_publish_raises (args : arguments) (venv : string)
  (branch : string * string * bool) (language : string) :
  raises_only caught_by_main (build_and_publish args venv branch language).
Proof.
  destruct branch as [[version git_branch] devel]. unfold build_and_publish.
  apply raises_only_bind; [apply build_one_raises|intros ?].
  apply copy_build_to_webroot_raises.
Qed.

(** One unit: whatever happens in it, the loop body returns; an
    exception of the unit is logged and sent to the telemetry sink. *)
Lemma build_unit_value (args : arguments) (venv version git_branch : string)
  (devel : bool) (language : string) (w : W) :
  build_unit args venv (version, git_branch, devel) language w
  = prepend
      (if sentry_sdk
       then [SentryTag "version" version;
             SentryTag "language" (if PyStr.truthy language then language else "en")]
       else [])
      match res (build_and_publish args venv (version, git_branch, devel) language w) with
      | Ok _ => build_and_publish args venv (version, git_branch, devel) language w
      | Raise e =>
          {| res := Ok tt;
             final := final (build_and_publish args venv (version, git_branch, devel)
                               language w);
             events :=
               events (build_and_publish args venv (version, git_branch, devel)
                         language w)
               ++ Logging ERROR "Exception while building %s version %s: %s"
                    [AStr language; AStr version; AExn e]
                  :: (if sentry_sdk then [SentryCapture e None] else []) |}
      end.
Proof.
  unfold build_unit. autorewrite with run. cbv beta.
  pose proof (build_and_publish_raises args venv (version, git_branch, devel) language w)
    as Hraises.
  destruct (build_and_publish args venv (version, git_branch, devel) language w)
    as [[[]|e] wf evs]; cbn [res final events] in *.
  - autorewrite with run. reflexivity.
  - rewrite handle_with_raise. rewrite (Hraises e eq_refl).
    destruct sentry_sdk; autorewrite with run; cbv beta; autorewrite with run;
      reflexivity.
Qed.

Lemma build_unit_returns (args : arguments) (venv : string)
  (branch : string * string * bool) (language : string) (w : W) :
  res (build_unit args venv branch language w) = Ok tt.
Proof.
  destruct branch as [[version git_branch] devel]. rewrite build_unit_value.
  cbn [prepend res].
  destruct (res (build_and_publish args venv (version, git_branch, devel) language w))
    as [[]|e] eqn:E; [exact E|reflexivity].
Qed.

Lemma build_unit_reports (args : arguments) (venv version git_branch : string)
  (devel : bool) (language : string) (w : W) (e : exn) :
  res (build_and_publish args venv (version, git_branch, devel) language w) = Raise e ->
  In (Logging ERROR "Exception while building %s version %s: %s"
        [AStr language; AStr version; AExn e])
     (events (build_unit args venv (version, git_branch, devel) language w))
  /\ (sentry_sdk = true ->
      In (SentryCapture e None)
         (events (build_unit args venv (version, git_branch, devel) language w))).
Proof.
  intros E. rewrite build_unit_value, E. cbn [prepend events]. split.
  - apply in_or_app. right. apply in_or_app. right. left. reflexivity.
  - intros ->. apply in_or_app. right. apply in_or_app. right. right. left. reflexivity.
Qed.

End Units.

(** ** The changes of a full publish *)

Section Publish.

Context {W : Type} `{Env W}.

Lemma returns_bind {A B : Type} (P : B -> Prop) (m : M W A) (k : A -> M W B) (w : W) :
  (forall a w', returns P (res (k a w'))) -> returns P (res (bind m k w)).
Proof.
  intros Hk. unfold bind. destruct (res (m w)); simpl; [apply Hk|exact I].
Qed.


(** *** No purge request before the last block *)









End Publish.


Section PublishPurge.

Context {W : Type} `{Env W}.


(** *** The purge of a publish *)




(** *** A publish in a cooperative environment comes to its end *)








End PublishPurge.

Example nonquick_publish_sample :
  purges (events (copy_build_to_webroot "/srv/docsbuild" "3.8" "en" "docs"
                    false false "/srv/docs.python.org"
                    (sample_world (fun _ => false) true sample_branches)))
  = [purge_command
       [ "3.8/"; "3/";
         "3.8/index.html"; "3.8/library/os.html"; "3.8/archives/";
         "3.8/archives/python-3.8-docs-html.zip";
         "3/index.html"; "3/library/os.html"; "3/archives/";
         "3/archives/python-3.8-docs-html.zip" ]].
Proof. vm_compute. reflexivity. Qed.

(** ** The loops of main *)

Section Loops.

Context {W : Type}.

Lemma bind_ext2 {A B : Type} (m m' : M W A) (k k' : A -> M W B) (w : W) :
  (forall w', m w' = m' w') -> (forall a w', k a w' = k' a w') ->
  bind m k w = bind m' k' w.
Proof.
  intros Em Ek. unfold bind. rewrite Em.
  destruct (res (m' w)); [rewrite Ek|]; reflexivity.
Qed.

Lemma for_each_map {A B : Type} (g : A -> B) (l : list A) (body : B -> M W unit)
  (w : W) :
  for_each (map g l) body w = for_each l (fun x => body (g x)) w.
Proof.
  revert w. induction l as [|x l IH]; intros w; simpl; [reflexivity|].
  apply bind_ext. intros _ w'. apply IH.
Qed.

(** Two nested loops are one loop over the pairs. *)
Lemma for_each_nested {A B : Type} (la : list A) (lb : list B)
  (body : A -> B -> M W unit) (w : W) :
  for_each la (fun a => for_each lb (body a)) w
  = for_each (list_prod la lb) (fun u => body (fst u) (snd u)) w.
Proof.
  revert w. induction la as [|a la IH]; intros w; simpl; [reflexivity|].
  rewrite for_each_app. apply bind_ext2.
  - intros w'. rewrite for_each_map. reflexivity.
  - intros _ w'. apply IH.
Qed.

Lemma for_each_returns {A : Type} (l : list A) (body : A -> M W unit) (w : W) :
  (forall x w', res (body x w') = Ok tt) -> res (for_each l body w) = Ok tt.
Proof.
  intros Hbody. revert w. induction l as [|x l IH]; intros w; simpl; [reflexivity|].
  rewrite (bind_ok _ _ _ _ (Hbody x w)). simpl. apply IH.
Qed.

(** A loop whose body always returns reaches every element: the events
    of the element are part of the events of the loop. *)
Lemma for_each_reaches {A : Type} (before : list A) (x : A) (after : list A)
  (body : A -> M W unit) (w : W) :
  (forall y w', res (body y w') = Ok tt) ->
  exists w_x evs_before evs_after,
    events (for_each (before ++ x :: after) body w)
    = evs_before ++ events (body x w_x) ++ evs_after.
Proof.
  intros Hbody.
  exists (final (for_each before body w)), (events (for_each before body w)),
    (events (for_each after body (final (body x (final (for_each before body w)))))).
  rewrite for_each_app.
  rewrite (bind_ok _ _ _ _ (for_each_returns before body w Hbody)). simpl.
  rewrite (bind_ok _ _ _ _ (Hbody x _)). reflexivity.
Qed.

End Loops.

Section Main.

Context {W : Type} `{Env W}.

Lemma abspath_if_set_value (path : string) (w : W) :
  abspath_if_set path w
  = {| res := Ok (if PyStr.truthy path then env_abspath path w else path);
       final := w;
       events := [] |}.
Proof. unfold abspath_if_set. destruct (PyStr.truthy path); reflexivity. Qed.

Lemma settle_arguments_value (args : arguments) (w : W) :
  exists settled,
    settle_arguments args w = {| res := Ok settled; final := w; events := [] |}
    /\ arg_version settled = arg_version args.
Proof.
  unfold settle_arguments. autorewrite with run.
  rewrite !abspath_if_set_value.
  repeat (autorewrite with run; cbv beta; rewrite ?abspath_if_set_value).
  eexists. split; reflexivity.
Qed.

(** C7.  A run that builds (no [--version]) goes through every unit of
    the versions and languages asked for, whatever happened in the
    units before: the events of each unit are part of the events of the
    run.  The body of the loop returns for every unit; an exception
    raised while building or publishing a unit is logged and sent to
    the telemetry sink when there is one; and [main] itself returns
    normally. *)
Theorem main_isolates_failures (args : arguments) (w : W) :
  arg_version args = false ->
  exists settled,
    res (settle_arguments args w) = Ok settled
    /\ res (main args w) = Ok tt
    /\ forall before version git_branch devel language after,
         units_of (branches_to_do settled) (arg_languages settled)
         = before ++ ((version, git_branch, devel), language) :: after ->
         exists w_unit evs_before evs_after,
           events (main args w)
           = evs_before
             ++ events (build_unit settled (path_join (arg_build_root settled) "venv")
                          (version, git_branch, devel) language w_unit)
             ++ evs_after
           /\ res (build_unit settled (path_join (arg_build_root settled) "venv")
                     (version, git_branch, devel) language w_unit) = Ok tt
           /\ forall e,
                res (build_and_publish settled
                       (path_join (arg_build_root settled) "venv")
                       (version, git_branch, devel) language w_unit) = Raise e ->
                In (Logging ERROR "Exception while building %s version %s: %s"
                      [AStr language; AStr version; AExn e])
                   (events (build_unit settled
                              (path_join (arg_build_root settled) "venv")
                              (version, git_branch, devel) language w_unit))
                /\ (sentry_sdk = true ->
                    In (SentryCapture e None)
                       (events (build_unit settled
                                  (path_join (arg_build_root settled) "venv")
                                  (version, git_branch, devel) language w_unit))).
Proof.
  intros Hversion.
  destruct (settle_arguments_value args w) as (settled & Hsettle & _).
  exists settled.
  assert (Hmain : main args w = build_all settled w).
  { unfold main. rewrite Hversion. rewrite bind_eq, Hsettle, bind_with_ok.
    destruct (build_all settled w). reflexivity. }
  assert (Hloop : build_all settled w
                  = for_each (units_of (branches_to_do settled) (arg_languages settled))
                      (fun u => build_unit settled
                                  (path_join (arg_build_root settled) "venv")
                                  (fst u) (snd u)) w).
  { unfold build_all, units_of. apply for_each_nested. }
  assert (Hbody : forall (u : (string * string * bool) * string) (w' : W),
             res (build_unit settled (path_join (arg_build_root settled) "venv")
                    (fst u) (snd u) w') = Ok tt).
  { intros u w'. apply build_unit_returns. }
  split; [rewrite Hsettle; reflexivity|].
  split; [rewrite Hmain, Hloop; apply for_each_returns; exact Hbody|].
  intros before version git_branch devel language after Hunits.
  rewrite Hmain, Hloop, Hunits.
  destruct (for_each_reaches before ((version, git_branch, devel), language) after
              (fun u => build_unit settled (path_join (arg_build_root settled) "venv")
                          (fst u) (snd u)) w Hbody)
    as (w_unit & evs_before & evs_after & Hevents).
  exists w_unit, evs_before, evs_after. cbn [fst snd] in Hevents.
  split; [exact Hevents|].
  split; [apply build_unit_returns|].
  intros e. apply build_unit_reports.
Qed.

End Main.

(** The theorem for the run of the sample command line (version 3.8,
    English and French) in a world where every command fails, at the
    French unit: it comes after the English one. *)
Lemma main_isolates_failures_witness :
  exists settled,
    res (settle_arguments sample_arguments
           (sample_world (fun _ => true) true sample_branches)) = Ok settled
    /\ res (main sample_arguments (sample_world (fun _ => true) true sample_branches))
       = Ok tt
    /\ forall before version git_branch devel language after,
         units_of (branches_to_do settled) (arg_languages settled)
         = before ++ ((version, git_branch, devel), language) :: after ->
         exists w_unit evs_before evs_after,
           events (main sample_arguments
                     (sample_world (fun _ => true) true sample_branches))
           = evs_before
             ++ events (build_unit settled (path_join (arg_build_root settled) "venv")
                          (version, git_branch, devel) language w_unit)
             ++ evs_after
           /\ res (build_unit settled (path_join (arg_build_root settled) "venv")
                     (version, git_branch, devel) language w_unit) = Ok tt
           /\ forall e,
                res (build_and_publish settled
                       (path_join (arg_build_root settled) "venv")
                       (version, git_branch, devel) language w_unit) = Raise e ->
                In (Logging ERROR "Exception while building %s version %s: %s"
                      [AStr language; AStr version; AExn e])
                   (events (build_unit settled
                              (path_join (arg_build_root settled) "venv")
                              (version, git_branch, devel) language w_unit))
                /\ (sentry_sdk = true ->
                    In (SentryCapture e None)
                       (events (build_unit settled
                                  (path_join (arg_build_root settled) "venv")
                                  (version, git_branch, devel) language w_unit))).
Proof.
  apply main_isolates_failures. reflexivity.
Defined.

(** In that run the French unit fails (the listing of the translation
    branches failed, so there is nothing to split) and the failure is
    logged; the English unit before it was published. *)
Example run_with_failing_commands :
  units_of (branches_to_do sample_arguments) (arg_languages sample_arguments)
  = [(("3.8", "3.8", false), "en"); (("3.8", "3.8", false), "fr")]
  /\ res (main sample_arguments (sample_world (fun _ => true) true sample_branches))
     = Ok tt
  /\ In (Logging ERROR "Exception while building %s version %s: %s"
           [AStr "fr"; AStr "3.8"; AExn AttributeError])
        (events (main sample_arguments (sample_world (fun _ => true) true sample_branches)))
  /\ In (Logging INFO "Publishing start for version: %s, language: %s"
           [AStr "3.8"; AStr "en"])
        (events (main sample_arguments (sample_world (fun _ => true) true sample_branches))).
Proof.
  split; [reflexivity|]. split; [vm_compute; reflexivity|]. split; find_event.
Qed.

(** * Further properties *)

(** ** Splitting and joining *)

Lemma split_nonempty (sep : ascii) (s : string) : PyStr.split sep s <> [].
Proof.
  destruct s as [|c s]; simpl; [discriminate|].
  destruct (Ascii.eqb c sep); [discriminate|].
  destruct (PyStr.split sep s); discriminate.
Qed.

Lemma join_cons (sep x y : string) (l : list string) :
  PyStr.join sep (x :: y :: l) = x +++ sep +++ PyStr.join sep (y :: l).
Proof. reflexivity. Qed.

(** Joining what a split gave is the string again. *)
Lemma join_split (sep : ascii) (s : string) :
  PyStr.join (String sep EmptyString) (PyStr.split sep s) = s.
Proof.
  induction s as [|c s IH]; [reflexivity|]. simpl.
  destruct (Ascii.eqb_spec c sep) as [->|Hne].
  - destruct (PyStr.split sep s) as [|h t] eqn:E; [destruct (split_nonempty _ _ E)|].
    rewrite join_cons, IH. reflexivity.
  - destruct (PyStr.split sep s) as [|h t] eqn:E; [destruct (split_nonempty _ _ E)|].
    destruct t as [|h' t].
    + simpl in *. rewrite IH. reflexivity.
    + rewrite join_cons in *. rewrite <- IH. reflexivity.
Qed.

(** The fields of a split hold no separator. *)
Lemma split_fields (sep : ascii) (s : string) :
  Forall (fun field => PyStr.contains sep field = false) (PyStr.split sep s).
Proof.
  induction s as [|c s IH]; simpl; [repeat constructor|].
  destruct (Ascii.eqb c sep) eqn:Ec.
  - constructor; [reflexivity|assumption].
  - destruct (PyStr.split sep s) as [|h t]; [repeat constructor; simpl; rewrite Ec; reflexivity|].
    inversion IH; subst. constructor; [|assumption].
    simpl. rewrite Ec. assumption.
Qed.

(** Splitting what a join of separator-free fields gave is the list of
    the fields again. *)
Lemma split_join (sep : ascii) (l : list string) :
  l <> [] ->
  Forall (fun field => PyStr.contains sep field = false) l ->
  PyStr.split sep (PyStr.join (String sep EmptyString) l) = l.
Proof.
  induction l as [|x l IH]; [congruence|]. intros _ Hall.
  inversion Hall as [|? ? Hx Hl]; subst.
  destruct l as [|y l].
  - simpl. apply split_no_sep. assumption.
  - rewrite join_cons.
    change (x +++ String sep EmptyString +++ PyStr.join (String sep EmptyString) (y :: l))
      with (x +++ String sep (PyStr.join (String sep EmptyString) (y :: l))).
    rewrite (split_app_sep _ _ _ Hx), IH; [reflexivity|discriminate|assumption].
Qed.

Lemma split_with_sep (sep : ascii) (s : string) :
  PyStr.contains sep s = true -> 2 <= length (PyStr.split sep s).
Proof.
  induction s as [|c s IH]; simpl; [discriminate|].
  destruct (Ascii.eqb c sep); simpl.
  - intros _. pose proof (split_nonempty sep s).
    destruct (PyStr.split sep s); [congruence|simpl; lia].
  - intros Hc. specialize (IH Hc).
    destruct (PyStr.split sep s); simpl in *; lia.
Qed.

Lemma firstn_incl {A} (n : nat) (l : list A) (x : A) :
  In x (firstn n l) -> In x l.
Proof.
  revert l. induction n as [|n IH]; intros [|y l]; simpl; try tauto.
  intros [->|H]; [left; reflexivity|right; apply IH; assumption].
Qed.

(** ** head *)

(** X1. [head(lines, n)] keeps the first [n] lines: it is the whole text
    when the text has at most [n] lines, its lines are the first [n]
    lines of the text when [n] is not zero, and it is empty for [n = 0]. *)
Theorem head_first_lines (text : string) (n : nat) :
  (length (PyStr.split PyStr.nl text) <= n -> head text n = text)
  /\ (1 <= n ->
      PyStr.split PyStr.nl (head text n) = firstn n (PyStr.split PyStr.nl text))
  /\ head text 0 = EmptyString.
Proof.
  unfold head. repeat split.
  - intros Hn. rewrite firstn_all2 by assumption. apply join_split.
  - intros Hn. apply split_join.
    + pose proof (split_nonempty PyStr.nl text).
      destruct (PyStr.split PyStr.nl text); [congruence|].
      destruct n; [lia|discriminate].
    + pose proof (split_fields PyStr.nl text) as Hf.
      rewrite Forall_forall in *. intros x Hx. apply Hf.
      apply (firstn_incl _ _ _ Hx).
Qed.

Lemma contains_app (sep : ascii) (a b : string) :
  PyStr.contains sep (a +++ b) = PyStr.contains sep a || PyStr.contains sep b.
Proof.
  induction a as [|c a IH]; simpl; [reflexivity|].
  rewrite IH. apply orb_assoc.
Qed.

Lemma length_app (a b : string) :
  String.length (a +++ b) = String.length a + String.length b.
Proof. induction a as [|c a IH]; simpl; [reflexivity|]. rewrite IH. reflexivity. Qed.

Lemma upper_length (s : string) : String.length (PyStr.upper s) = String.length s.
Proof. induction s as [|c s IH]; simpl; [reflexivity|]. rewrite IH. reflexivity. Qed.

Lemma upper_char_dash (c : ascii) :
  Ascii.eqb (PyStr.upper_char c) "-" = Ascii.eqb c "-".
Proof. destruct c as [[] [] [] [] [] [] [] []]; reflexivity. Qed.

Lemma upper_dash (s : string) :
  PyStr.contains "-" (PyStr.upper s) = PyStr.contains "-" s.
Proof.
  induction s as [|c s IH]; simpl; [reflexivity|].
  rewrite upper_char_dash, IH. reflexivity.
Qed.

(** ** pep_545_tag_to_gettext_tag, every tag *)

(** X2. [pep_545_tag_to_gettext_tag] fails exactly on the tags with two
    separators or more, and then with [ValueError]; what it returns for
    a tag of ASCII characters holds no separator, is as long as the tag,
    and is left unchanged by a second conversion. *)
Theorem pep_545_tag_to_gettext_tag_outcome (tag : string) :
  (pep_545_tag_to_gettext_tag tag = Raise ValueError
   <-> 3 <= length (PyStr.split "-" tag))
  /\ (forall e, pep_545_tag_to_gettext_tag tag = Raise e -> e = ValueError)
  /\ (forall gettext_tag,
         is_ascii tag = true ->
         pep_545_tag_to_gettext_tag tag = Ok gettext_tag ->
         PyStr.contains "-" gettext_tag = false
         /\ String.length gettext_tag = String.length tag
         /\ pep_545_tag_to_gettext_tag gettext_tag = Ok gettext_tag).
Proof.
  unfold pep_545_tag_to_gettext_tag at 1 2 3.
  destruct (PyStr.contains "-" tag) eqn:Hc; simpl negb; cbv iota.
  - pose proof (split_with_sep _ _ Hc) as Hlen.
    pose proof (join_split "-" tag) as Hjoin.
    pose proof (split_fields "-" tag) as Hfields.
    destruct (PyStr.split "-" tag) as [|language [|region [|third rest]]];
      simpl in Hlen; try lia.
    + pose proof (Forall_inv Hfields) as Hl.
      pose proof (Forall_inv (Forall_inv_tail Hfields)) as Hr.
      simpl in Hl, Hr.
      assert (Hnone : PyStr.contains "-" (language +++ "_" +++ PyStr.upper region) = false)
        by (rewrite !contains_app, Hl, upper_dash, Hr; reflexivity).
      split; [split; [discriminate|simpl; lia]|].
      split; [discriminate|].
      intros r _ [= <-]. split; [assumption|]. split.
      * rewrite <- Hjoin.
        change (PyStr.join "-" [language; region]) with (language +++ "-" +++ region).
        rewrite !length_app. simpl. rewrite upper_length. reflexivity.
      * unfold pep_545_tag_to_gettext_tag.
        change (language +++ String "_" (PyStr.upper region))
          with (language +++ "_" +++ PyStr.upper region).
        rewrite Hnone. reflexivity.
    + split; [split; [simpl; lia|reflexivity]|].
      split; [|discriminate].
      intros e [= <-]. reflexivity.
  - rewrite (split_no_sep _ _ Hc).
    split; [split; [discriminate|simpl; lia]|].
    split; [discriminate|].
    intros r _ [= <-]. split; [assumption|]. split; [reflexivity|].
    unfold pep_545_tag_to_gettext_tag. rewrite Hc. reflexivity.
Qed.

(** ** Version strings and tuples *)

Lemma map_result_ok {A B : Type} (f : A -> result B) (l : list A) (bs : list B) :
  map_result f l = Ok bs -> Forall2 (fun a b => f a = Ok b) l bs.
Proof.
  revert bs. induction l as [|a l IH]; simpl; intros bs.
  - intros [= <-]. constructor.
  - destruct (f a) as [b|] eqn:Ea; [|discriminate].
    destruct (map_result f l) as [bs'|]; [|discriminate].
    intros [= <-]. constructor; [assumption|apply IH; reflexivity].
Qed.

Lemma map_result_raise {A B : Type} (f : A -> result B) (l : list A) (e : exn) :
  map_result f l = Raise e -> exists a, In a l /\ f a = Raise e.
Proof.
  induction l as [|a l IH]; simpl; [discriminate|].
  destruct (f a) as [b|e'] eqn:Ea.
  - destruct (map_result f l) as [bs|e'']; [discriminate|].
    intros [= <-]. destruct (IH eq_refl) as (x & Hx & Hfx). eauto.
  - intros [= <-]. eauto.
Qed.

(** A version string that does not parse fails with [ValueError]. *)
Lemma version_to_tuple_value_error (version : string) (e : exn) :
  version_to_tuple version = Raise e -> e = ValueError.
Proof.
  intros Hv. apply map_result_raise in Hv as (part & _ & Hpart).
  unfold int_part in Hpart. destruct (PyStr.int part); congruence.
Qed.

Lemma map_result_keys (available : list string) (tuples : list version_tuple) :
  map_result version_to_tuple available = Ok tuples ->
  tuples = map version_key available.
Proof.
  intros Hm. apply map_result_ok in Hm.
  induction Hm as [|v t l ts Hv _ IH]; [reflexivity|].
  simpl. unfold version_key at 1. rewrite Hv, IH. reflexivity.
Qed.

(** X3. Printing a tuple of non-negative integers and parsing the string
    gives the tuple back. *)
Theorem version_tuple_round_trip (t : version_tuple) :
  t <> [] ->
  Forall (fun n => (0 <= n)%Z) t ->
  version_to_tuple (tuple_to_version t) = Ok t.
Proof.
  intros Hne Hall. unfold version_to_tuple, tuple_to_version.
  rewrite split_join.
  - clear Hne. induction Hall as [|n l Hn _ IH]; [reflexivity|].
    simpl. unfold int_part at 1. rewrite (int_str n Hn), IH. reflexivity.
  - destruct t; [congruence|discriminate].
  - clear Hne. induction Hall as [|n l Hn _ IH]; constructor; [|assumption].
    apply str_no_dot. assumption.
Qed.

(** The theorem at the tuple of 3.10. *)
Lemma version_tuple_round_trip_witness :
  version_to_tuple (tuple_to_version [3; 10]%Z) = Ok [3; 10]%Z.
Proof.
  apply version_tuple_round_trip; [discriminate|].
  repeat constructor; lia.
Defined.

(** ** locate_nearest_version, every input *)

Lemma locate_nearest_version_cases (available : list string) (target : string) :
  (forall found,
      locate_nearest_version available target = Ok found ->
      exists version,
        In version available /\ found = tuple_to_version (version_key version))
  /\ (locate_nearest_version available target = Raise IndexError
      <-> available = [] /\ exists t, version_to_tuple target = Ok t)
  /\ (locate_nearest_version available target = Raise ValueError
      <-> exists version,
            (In version available \/ version = target)
            /\ version_to_tuple version = Raise ValueError)
  /\ (forall e,
         locate_nearest_version available target = Raise e ->
         e = IndexError \/ e = ValueError).
Proof.
  unfold locate_nearest_version.
  destruct (map_result version_to_tuple available) as [tuples|e'] eqn:Ea.
  - pose proof (map_result_keys _ _ Ea) as Hkeys.
    assert (Hparse : forall v, In v available -> version_to_tuple v <> Raise ValueError).
    { apply map_result_ok in Ea. clear Hkeys.
      induction Ea as [|v t l ts Hv _ IH]; intros x [].
      - subst. congruence.
      - apply IH. assumption. }
    destruct (version_to_tuple target) as [t|e''] eqn:Et.
    + assert (Hmember : forall found, In found tuples ->
                exists version, In version available
                                /\ tuple_to_version found = tuple_to_version (version_key version)).
      { intros found Hin. rewrite Hkeys in Hin. apply in_map_iff in Hin as (v & <- & Hv).
        eauto. }
      destruct (list_index tuples (bisect tuples t)) as [found|] eqn:Hidx.
      * split; [|split; [|split]]; try discriminate.
        -- intros r [= <-]. apply nth_error_In in Hidx.
           destruct (Hmember _ Hidx) as (v & Hv & E). eauto.
        -- split; [discriminate|]. intros [-> _]. simpl in Ea. injection Ea as <-.
           destruct (bisect [] t); discriminate.
        -- split; [discriminate|]. intros (v & [Hv| ->] & Hbad).
           ++ destruct (Hparse v Hv Hbad).
           ++ congruence.
      * destruct (list_last tuples) as [found|] eqn:Hlast.
        -- split; [|split; [|split]]; try discriminate.
           ++ intros r [= <-]. unfold list_last in Hlast.
              destruct tuples as [|t0 ts]; [discriminate|].
              apply nth_error_In in Hlast.
              destruct (Hmember _ Hlast) as (v & Hv & E). eauto.
           ++ split; [discriminate|]. intros [-> _]. simpl in Ea. injection Ea as <-.
              discriminate.
           ++ split; [discriminate|]. intros (v & [Hv| ->] & Hbad).
              ** destruct (Hparse v Hv Hbad).
              ** congruence.
        -- split; [discriminate|]. split; [|split].
           ++ split; [|reflexivity]. intros _. split; [|eauto].
              destruct tuples as [|t0 ts].
              ** destruct available as [|v l]; [reflexivity|]. discriminate.
              ** unfold list_last in Hlast. apply nth_error_None in Hlast.
                 simpl in Hlast. lia.
           ++ split; [discriminate|]. intros (v & [Hv| ->] & Hbad).
              ** destruct (Hparse v Hv Hbad).
              ** congruence.
           ++ intros e [= <-]. left. reflexivity.
    + pose proof (version_to_tuple_value_error _ _ Et) as ->.
      split; [discriminate|]. split; [|split].
      * split; [discriminate|]. intros [_ [t Ht]]. congruence.
      * split; [|reflexivity]. intros _. exists target. auto.
      * intros e [= <-]. right. reflexivity.
  - destruct (map_result_raise _ _ _ Ea) as (v & Hv & Hbad).
    pose proof (version_to_tuple_value_error _ _ Hbad) as ->.
    split; [discriminate|]. split; [|split].
    + split; [discriminate|]. intros [-> _]. destruct Hv.
    + split; [|reflexivity]. intros _. exists v. auto.
    + intros e [= <-]. right. reflexivity.
Qed.

(** X4. Whatever the order and the form of the available versions,
    [locate_nearest_version] returns the printed tuple of one of them;
    it raises [IndexError] exactly when the list is empty (and the target
    parses), [ValueError] exactly when one of the strings does not parse,
    and nothing else. *)
Theorem locate_nearest_version_outcome (available : list string) (target : string) :
  (forall found,
      locate_nearest_version available target = Ok found ->
      exists version,
        In version available /\ found = tuple_to_version (version_key version))
  /\ (locate_nearest_version available target = Raise IndexError
      <-> available = [] /\ exists t, version_to_tuple target = Ok t)
  /\ (locate_nearest_version available target = Raise ValueError
      <-> exists version,
            (In version available \/ version = target)
            /\ version_to_tuple version = Raise ValueError)
  /\ (forall e,
         locate_nearest_version available target = Raise e ->
         e = IndexError \/ e = ValueError).
Proof. apply locate_nearest_version_cases. Qed.

(** ** changed_files: what a reported path tells *)

Lemma cmp_refl (a : file_stat) : cmp a a = true.
Proof. unfold cmp. rewrite Nat.eqb_refl, Z.eqb_refl. reflexivity. Qed.

Lemma cmp_sym (a b : file_stat) : cmp a b = cmp b a.
Proof.
  unfold cmp. rewrite (Nat.eqb_sym (st_size b)), (Z.eqb_sym (st_mtime b)).
  rewrite (String.eqb_sym (content b)). reflexivity.
Qed.

Lemma cmp_content (a b : file_stat) : cmp a b = false -> content a <> content b.
Proof.
  unfold cmp, st_size. intros Hcmp E. rewrite E, Nat.eqb_refl in Hcmp.
  destruct (st_mtime a =? st_mtime b)%Z; [discriminate|].
  simpl in Hcmp. rewrite String.eqb_refl in Hcmp. discriminate.
Qed.

Lemma cmp_size (a b : file_stat) : st_size a <> st_size b -> cmp a b = false.
Proof.
  intros Hsize. unfold cmp. apply Nat.eqb_neq in Hsize. rewrite Hsize. reflexivity.
Qed.

Lemma reported_sym (left right : list (string * node)) (path : list string) :
  reported left right path -> reported right left path.
Proof.
  intros (a & b & Ha & Hb & Hcmp & Hskip). exists b, a.
  rewrite cmp_sym. auto.
Qed.

(** X5. [changed_files] gives no false alarm and misses no change of
    size: every path it returns names a regular file of both trees whose
    contents differ, and a file of both trees whose sizes differ is
    returned (unless a name on its path is one [dircmp] ignores). *)
Theorem changed_files_sound (left right : list (string * node)) :
  wf_node (Dir left) = true ->
  exists changed,
    changed_files (Some (Dir left)) (Some (Dir right)) = Ok changed
    /\ (forall s,
           In s changed ->
           exists path a b,
             s = PyStr.join "/" path
             /\ file_at left path = Some a
             /\ file_at right path = Some b
             /\ content a <> content b)
    /\ (forall path a b,
           file_at left path = Some a ->
           file_at right path = Some b ->
           st_size a <> st_size b ->
           forallb (fun name => negb (skipped name)) path = true ->
           In (PyStr.join "/" path) changed).
Proof.
  intros Hwf. exists (traverse [] (Dir left) right). split; [reflexivity|]. split.
  - intros s Hs. apply (traverse_spec (Dir left) Hwf [] right s) in Hs
      as (entries & path & [= <-] & -> & a & b & Ha & Hb & Hcmp & _).
    exists path, a, b. repeat split; try assumption. apply cmp_content. assumption.
  - intros path a b Ha Hb Hsize Hskip.
    apply (traverse_spec (Dir left) Hwf [] right). exists left, path.
    repeat split. exists a, b. repeat split; try assumption.
    apply cmp_size. assumption.
Qed.

(** The theorem at the sample build and the sample published tree. *)
Lemma changed_files_sound_witness :
  exists changed,
    changed_files (Some (Dir built_tree)) (Some (Dir published_tree)) = Ok changed
    /\ (forall s,
           In s changed ->
           exists path a b,
             s = PyStr.join "/" path
             /\ file_at built_tree path = Some a
             /\ file_at published_tree path = Some b
             /\ content a <> content b)
    /\ (forall path a b,
           file_at built_tree path = Some a ->
           file_at published_tree path = Some b ->
           st_size a <> st_size b ->
           forallb (fun name => negb (skipped name)) path = true ->
           In (PyStr.join "/" path) changed).
Proof.
  apply changed_files_sound. reflexivity.
Defined.

(** X6. A tree compared with itself has no changed file. *)
Theorem changed_files_same_tree (tree : list (string * node)) :
  wf_node (Dir tree) = true ->
  changed_files (Some (Dir tree)) (Some (Dir tree)) = Ok [].
Proof.
  intros Hwf. unfold changed_files. f_equal.
  destruct (traverse [] (Dir tree) tree) as [|s rest] eqn:E; [reflexivity|].
  assert (Hs : In s (traverse [] (Dir tree) tree)) by (rewrite E; left; reflexivity).
  apply (traverse_spec (Dir tree) Hwf [] tree s) in Hs
    as (entries & path & [= <-] & -> & a & b & Ha & Hb & Hcmp & _).
  rewrite Ha in Hb. injection Hb as <-. rewrite cmp_refl in Hcmp. discriminate.
Qed.

(** The theorem at the sample build. *)
Lemma changed_files_same_tree_witness :
  changed_files (Some (Dir built_tree)) (Some (Dir built_tree)) = Ok [].
Proof.
  apply changed_files_same_tree. reflexivity.
Defined.

(** X7. The two orders of the arguments report the same paths. *)
Theorem changed_files_symmetric (left right : list (string * node)) :
  wf_node (Dir left) = true ->
  wf_node (Dir right) = true ->
  exists changed changed',
    changed_files (Some (Dir left)) (Some (Dir right)) = Ok changed
    /\ changed_files (Some (Dir right)) (Some (Dir left)) = Ok changed'
    /\ forall s, In s changed <-> In s changed'.
Proof.
  intros Hl Hr. do 2 eexists. split; [reflexivity|]. split; [reflexivity|].
  intros s.
  rewrite (traverse_spec (Dir left) Hl [] right s),
          (traverse_spec (Dir right) Hr [] left s).
  split; intros (entries & path & [= <-] & -> & Hrep);
    eexists _, path; repeat split; apply reported_sym; assumption.
Qed.

(** The theorem at the sample build and the sample published tree. *)
Lemma changed_files_symmetric_witness :
  exists changed changed',
    changed_files (Some (Dir built_tree)) (Some (Dir published_tree)) = Ok changed
    /\ changed_files (Some (Dir published_tree)) (Some (Dir built_tree)) = Ok changed'
    /\ forall s, In s changed <-> In s changed'.
Proof.
  apply changed_files_symmetric; reflexivity.
Defined.

(** ** shell_out, every outcome *)

Section ShellOutContract.

Context {W : Type} `{Env W}.


End ShellOutContract.

(** ** git_clone: the update path and the errors *)

Section GitCloneMore.

Context {W : Type} `{Env W}.

(** X9. When the directory holds a [.git], [git_clone] only updates it:
    it runs the fetch and, when a branch is asked for, the checkout and
    the hard reset to the remote branch, removes and creates nothing,
    and returns normally whatever these commands exit with. *)
Theorem git_clone_in_place (repository directory : string) (branch : option string)
  (w : W) :
  env_isdir (path_join directory ".git") w = true ->
  res (git_clone repository directory branch w) = Ok tt
  /\ fs_calls (events (git_clone repository directory branch w)) = []
  /\ executed (events (git_clone repository directory branch w))
     = Argv ["git"; "-C"; directory; "fetch"]
       :: match given branch with
          | Some b => [ Argv ["git"; "-C"; directory; "checkout"; b];
                        Argv ["git"; "-C"; directory; "reset"; "--hard"; "origin/" +++ b] ]
          | None => []
          end.
Proof. apply git_clone_update. Qed.

(** X10. [git_clone] fails only through a file-system call of its fallback
    path: what it raises is the [OSError] of [shutil.rmtree] or of
    [os.makedirs], the directory had no [.git], and no git command has
    been run. *)
Theorem git_clone_errors (repository directory : string) (branch : option string)
  (w : W) (e : exn) :
  res (git_clone repository directory branch w) = Raise e ->
  env_isdir (path_join directory ".git") w = false
  /\ executed (events (git_clone repository directory branch w)) = []
  /\ exists op err,
       e = OSError err
       /\ (op = Rmtree directory \/ op = Makedirs directory 509 false)
       /\ In (Fs op (Some err)) (events (git_clone repository directory branch w)).
Proof.
  destruct (env_isdir (path_join directory ".git") w) eqn:Hgit.
  { intros Hres. destruct (git_clone_update repository directory branch w Hgit) as [E _].
    congruence. }
  unfold git_clone. autorewrite with run. cbv beta. rewrite Hgit. cbn [negb].
  autorewrite with run. cbv beta iota. cbn [negb]. autorewrite with run. cbv beta.
  destruct (env_exists directory w) eqn:Hthere.
  - destruct (env_fs (Rmtree directory) w) as [[err|] w1] eqn:Hrm.
    + run_steps. cbn [res events]. intros [= <-]. repeat split.
      exists (Rmtree directory), err. simpl. tauto.
    + destruct (env_fs (Makedirs directory 509 false) w1) as [[err|] w2] eqn:Hmk.
      * run_steps. cbn [res events]. intros [= <-]. repeat split.
        exists (Makedirs directory 509 false), err. simpl. tauto.
      * destruct (given branch); run_steps; cbn [res]; discriminate.
  - destruct (env_fs (Makedirs directory 509 false) w) as [[err|] w2] eqn:Hmk.
    + run_steps. cbn [res events]. intros [= <-]. repeat split.
      exists (Makedirs directory 509 false), err. simpl. tauto.
    + destruct (given branch); run_steps; cbn [res]; discriminate.
Qed.

End GitCloneMore.

(** The theorem in a world whose working copy has its [.git] and whose
    fetch fails. *)
Lemma git_clone_in_place_witness :
  res (git_clone "https://github.com/python/cpython.git" "/srv/docsbuild/3.8/cpython-en"
         (Some "3.8") (sample_world (argv_has "fetch") true sample_branches)) = Ok tt
  /\ fs_calls (events (git_clone "https://github.com/python/cpython.git"
                         "/srv/docsbuild/3.8/cpython-en" (Some "3.8")
                         (sample_world (argv_has "fetch") true sample_branches))) = []
  /\ executed (events (git_clone "https://github.com/python/cpython.git"
                         "/srv/docsbuild/3.8/cpython-en" (Some "3.8")
                         (sample_world (argv_has "fetch") true sample_branches)))
     = [ Argv ["git"; "-C"; "/srv/docsbuild/3.8/cpython-en"; "fetch"];
         Argv ["git"; "-C"; "/srv/docsbuild/3.8/cpython-en"; "checkout"; "3.8"];
         Argv ["git"; "-C"; "/srv/docsbuild/3.8/cpython-en"; "reset"; "--hard";
               "origin/" +++ "3.8"] ].
Proof.
  exact (git_clone_in_place "https://github.com/python/cpython.git"
           "/srv/docsbuild/3.8/cpython-en" (Some "3.8")
           (sample_world (argv_has "fetch") true sample_branches) eq_refl).
Defined.

(** The theorem in a world without [.git] where the directory cannot be
    created. *)
Lemma git_clone_errors_witness :
  env_isdir (path_join "/srv/docsbuild/3.8/cpython-en" ".git")
    (with_fs no_makedirs (sample_world (fun _ => false) false sample_branches)) = false
  /\ executed (events (git_clone "https://github.com/python/cpython.git"
                         "/srv/docsbuild/3.8/cpython-en" (Some "3.8")
                         (with_fs no_makedirs
                            (sample_world (fun _ => false) false sample_branches)))) = []
  /\ exists op err,
       OSError PermissionError = OSError err
       /\ (op = Rmtree "/srv/docsbuild/3.8/cpython-en"
           \/ op = Makedirs "/srv/docsbuild/3.8/cpython-en" 509 false)
       /\ In (Fs op (Some err))
             (events (git_clone "https://github.com/python/cpython.git"
                        "/srv/docsbuild/3.8/cpython-en" (Some "3.8")
                        (with_fs no_makedirs
                           (sample_world (fun _ => false) false sample_branches)))).
Proof.
  exact (git_clone_errors "https://github.com/python/cpython.git"
           "/srv/docsbuild/3.8/cpython-en" (Some "3.8")
           (with_fs no_makedirs (sample_world (fun _ => false) false sample_branches))
           (OSError PermissionError) eq_refl).
Defined.

(** ** build_one: the languages *)

(** The languages of [SPHINXOPTS] are those of [LANGUAGES]. *)
Lemma sphinxopts_keys (language : string) :
  ~ In language LANGUAGES -> dict_get SPHINXOPTS language = Raise KeyError.
Proof.
  intros Hnot. unfold SPHINXOPTS. cbn [dict_get].
  repeat match goal with
         | |- context [String.eqb ?k language] =>
             destruct (String.eqb_spec k language) as [E|_];
             [exfalso; apply Hnot; rewrite <- E; simpl; tauto|]
         end.
  reflexivity.
Qed.

Section BuildOneMore.

Context {W : Type} `{Env W}.

Lemma build_one_unknown_language (version git_branch : string) (isdev quick : bool)
  (venv build_root group log_directory language : string) (w : W) :
  PyStr.truthy language = true ->
  ~ In language LANGUAGES ->
  build_one version git_branch isdev quick venv build_root group log_directory language w
  = {| res := Raise KeyError;
       final := w;
       events := (if sentry_sdk
                  then [SentryTag "version" version; SentryTag "language" language]
                  else [])
                 ++ [Logging INFO "Build start for version: %s, language: %s"
                       [AStr version; AStr language]] |}.
Proof.
  intros Htruthy Hnot. unfold build_one, build_one_sync.
  rewrite Htruthy. cbn [negb]. autorewrite with run. cbv beta.
  rewrite (sphinxopts_keys _ Hnot). autorewrite with run. reflexivity.
Qed.

(** X11. A language that is not one of [LANGUAGES] has no Sphinx options:
    [build_one] raises [KeyError] before it runs anything, and the unit
    of [main] runs no command, makes no file-system call and logs the
    [KeyError]. *)
Theorem unknown_language_unit (args : arguments) (venv version git_branch : string)
  (devel : bool) (language : string) (w : W) :
  PyStr.truthy language = true ->
  ~ In language LANGUAGES ->
  res (build_one version git_branch devel (arg_quick args) venv (arg_build_root args)
         (arg_group args) (arg_log_directory args) language w) = Raise KeyError
  /\ res (build_unit args venv (version, git_branch, devel) language w) = Ok tt
  /\ executed (events (build_unit args venv (version, git_branch, devel) language w)) = []
  /\ fs_calls (events (build_unit args venv (version, git_branch, devel) language w)) = []
  /\ In (Logging ERROR "Exception while building %s version %s: %s"
           [AStr language; AStr version; AExn KeyError])
        (events (build_unit args venv (version, git_branch, devel) language w)).
Proof.
  intros Htruthy Hnot.
  pose proof (build_one_unknown_language version git_branch devel (arg_quick args) venv
                (arg_build_root args) (arg_group args) (arg_log_directory args)
                language w Htruthy Hnot) as Hbuild.
  split; [rewrite Hbuild; reflexivity|].
  rewrite build_unit_value. unfold build_and_publish.
  rewrite bind_eq, Hbuild, bind_with_raise. cbn [res final events prepend].
  split; [reflexivity|].
  destruct sentry_sdk; repeat split; simpl; tauto.
Qed.




End BuildOneMore.

(** The theorem at a language without options. *)
Lemma unknown_language_unit_witness :
  res (build_one "3.8" "3.8" false (arg_quick sample_arguments) "/srv/docsbuild/venv"
         (arg_build_root sample_arguments) (arg_group sample_arguments)
         (arg_log_directory sample_arguments) "de"
         (sample_world (fun _ => false) true sample_branches)) = Raise KeyError
  /\ res (build_unit sample_arguments "/srv/docsbuild/venv" ("3.8", "3.8", false) "de"
            (sample_world (fun _ => false) true sample_branches)) = Ok tt
  /\ executed (events (build_unit sample_arguments "/srv/docsbuild/venv"
                         ("3.8", "3.8", false) "de"
                         (sample_world (fun _ => false) true sample_branches))) = []
  /\ fs_calls (events (build_unit sample_arguments "/srv/docsbuild/venv"
                         ("3.8", "3.8", false) "de"
                         (sample_world (fun _ => false) true sample_branches))) = []
  /\ In (Logging ERROR "Exception while building %s version %s: %s"
           [AStr "de"; AStr "3.8"; AExn KeyError])
        (events (build_unit sample_arguments "/srv/docsbuild/venv" ("3.8", "3.8", false)
                   "de" (sample_world (fun _ => false) true sample_branches))).
Proof.
  apply (unknown_language_unit sample_arguments "/srv/docsbuild/venv" "3.8" "3.8" false
           "de" (sample_world (fun _ => false) true sample_branches) eq_refl).
  simpl. intros H. repeat (destruct H as [H|H]; [discriminate|]). exact H.
Defined.


(** The same unit when the log file cannot be opened: make is the last
    command, and the [PermissionError] leaves [build_one]. *)
Example build_one_english_log_refused :
  res (build_one "3.8" "3.8" false false "/srv/docsbuild/venv" "/srv/docsbuild" "docs"
         "/var/log/docsbuild/" "en"
         (with_append no_append (sample_world (fun _ => false) true sample_branches)))
  = Raise (OSError PermissionError)
  /\ executed (events (build_one "3.8" "3.8" false false "/srv/docsbuild/venv"
                         "/srv/docsbuild" "docs" "/var/log/docsbuild/" "en"
                         (with_append no_append
                            (sample_world (fun _ => false) true sample_branches))))
     = [ Argv ["git"; "-C"; checkout_of "/srv/docsbuild" "3.8" "en"; "fetch"];
         Argv ["git"; "-C"; checkout_of "/srv/docsbuild" "3.8" "en"; "checkout"; "3.8"];
         Argv ["git"; "-C"; checkout_of "/srv/docsbuild" "3.8" "en"; "reset"; "--hard";
               "origin/" +++ "3.8"];
         make_command (checkout_of "/srv/docsbuild" "3.8" "en") "/srv/docsbuild/venv"
           (maketarget_of false false)
           ["-D latex_engine=xelatex"; "-D latex_elements.inputenc=";
            "-D latex_elements.fontenc="; "-q"] ].
Proof. vm_compute. split; reflexivity. Qed.

(** ** main: the command line *)

Section MainMore.

Context {W : Type} `{Env W}.

Lemma settle_arguments_fields (args : arguments) (w : W) :
  exists settled,
    settle_arguments args w = {| res := Ok settled; final := w; events := [] |}
    /\ arg_branch settled = arg_branch args
    /\ arg_languages settled = match arg_languages args with
                               | [] => LANGUAGES
                               | l => l
                               end.
Proof.
  unfold settle_arguments. autorewrite with run.
  rewrite !abspath_if_set_value.
  repeat (autorewrite with run; cbv beta; rewrite ?abspath_if_set_value).
  eexists. repeat split.
Qed.

(** X13. With [--version], [main] builds nothing.  It asks platex for its
    version and, when platex answers, xelatex for its own.  When both
    commands complete it prints one text, with the version of the
    script, the three first lines of what platex printed and the two
    first lines of what xelatex printed, and exits with status 0.  When
    platex exits with a non-zero status xelatex is not run; when either
    does, the [CalledProcessError] goes out of [main] and nothing is
    printed.  In no case does [main] return normally, log, or touch the
    file system. *)
Theorem main_version (args : arguments) (w w1 w2 : W) (o1 o2 : proc_outcome) :
  arg_version args = true ->
  env_check_output (Argv ["platex"; "--version"]) false w = (o1, w1) ->
  env_check_output (Argv ["xelatex"; "--version"]) false w1 = (o2, w2) ->
  main args w
  = match o1, o2 with
    | Failed _, _ =>
        {| res := Raise CalledProcessError;
           final := w1;
           events := [Exec (Argv ["platex"; "--version"]) false o1] |}
    | Completed _, Failed _ =>
        {| res := Raise CalledProcessError;
           final := w2;
           events := [Exec (Argv ["platex"; "--version"]) false o1;
                      Exec (Argv ["xelatex"; "--version"]) false o2] |}
    | Completed platex, Completed xelatex =>
        {| res := Raise (SystemExit 0);
           final := w2;
           events :=
             [Exec (Argv ["platex"; "--version"]) false o1;
              Exec (Argv ["xelatex"; "--version"]) false o2;
              Print (lines ["build_docs: 19.0"; EmptyString;
                            "# platex"; EmptyString;
                            lines (firstn 3 (PyStr.split PyStr.nl platex));
                            EmptyString; EmptyString;
                            "# xelatex"; EmptyString;
                            lines (firstn 2 (PyStr.split PyStr.nl xelatex));
                            "    "])] |}
    end.
Proof.
  intros Hversion Hplatex Hxelatex. unfold main. rewrite Hversion.
  unfold version_info, check_output_or_raise, check_output.
  autorewrite with run. cbv beta. rewrite Hplatex.
  destruct o1 as [platex|failure].
  - autorewrite with run. cbv beta iota. autorewrite with run. cbv beta.
    rewrite Hxelatex. destruct o2 as [xelatex|failure].
    + autorewrite with run. cbv beta iota. autorewrite with run. reflexivity.
    + autorewrite with run. cbv beta iota. autorewrite with run. reflexivity.
  - autorewrite with run. cbv beta iota. autorewrite with run. reflexivity.
Qed.

(** X14. A value of [-b] that is neither a version nor a git branch of
    [BRANCHES] selects nothing: [main] returns normally, and it has run
    no command, made no file-system call and logged no record. *)
Theorem main_unknown_branch (args : arguments) (b : string) (w : W) :
  arg_version args = false ->
  arg_branch args = Some b ->
  PyStr.truthy b = true ->
  (forall version git_branch devel,
      In (version, git_branch, devel) BRANCHES -> version <> b /\ git_branch <> b) ->
  main args w = {| res := Ok tt; final := w; events := [] |}.
Proof.
  intros Hversion Hb Htruthy Hnone. unfold main. rewrite Hversion.
  destruct (settle_arguments_fields args w) as (settled & Hsettle & Hbranch & _).
  rewrite bind_eq, Hsettle, bind_with_ok. unfold build_all, branches_to_do.
  rewrite Hbranch, Hb. unfold given. rewrite Htruthy.
  assert (Hfilter : filter (fun branch : string * string * bool =>
                              let '(version, git_branch, _) := branch in
                              String.eqb version b || String.eqb git_branch b) BRANCHES
                    = []).
  { induction BRANCHES as [|[[version git_branch] devel] l IH]; [reflexivity|].
    simpl. destruct (Hnone version git_branch devel (or_introl eq_refl)) as [Hv Hg].
    apply String.eqb_neq in Hv, Hg. rewrite Hv, Hg. simpl.
    apply IH. intros v g d Hin. apply (Hnone v g d). right. assumption. }
  rewrite Hfilter. reflexivity.
Qed.

(** X15. The [--devel] option has no effect: the builds take the stable or
    the development make target from [BRANCHES] alone, and [main] does
    the same whatever the value of the option. *)
Theorem main_ignores_devel (args : arguments) (devel : bool) (w : W) :
  main (with_devel devel args) w = main args w.
Proof.
  unfold main, with_devel. cbn [arg_version].
  destruct (arg_version args); [reflexivity|].
  unfold settle_arguments. cbn [arg_log_directory arg_build_root arg_www_root arg_quick
    arg_branch arg_skip_cache_invalidation arg_group arg_languages arg_version arg_devel].
  autorewrite with run. rewrite !abspath_if_set_value.
  repeat (autorewrite with run; cbv beta; rewrite ?abspath_if_set_value).
  reflexivity.
Qed.

End MainMore.

(** The theorem for [-b 2.7]. *)
Lemma main_unknown_branch_witness :
  main old_branch_arguments (sample_world (fun _ => false) true sample_branches)
  = {| res := Ok tt;
       final := sample_world (fun _ => false) true sample_branches;
       events := [] |}.
Proof.
  apply (main_unknown_branch old_branch_arguments "2.7" _ eq_refl eq_refl eq_refl).
  intros version git_branch devel Hin. simpl in Hin.
  repeat (destruct Hin as [Hin|Hin]; [injection Hin as <- <- <-; split; discriminate|]).
  destruct Hin.
Defined.

(** The theorem in a world where xelatex exits with a non-zero status. *)
Lemma main_version_witness :
  main version_arguments (sample_world (argv_has "xelatex") true sample_branches)
  = {| res := Raise CalledProcessError;
       final := sample_world (argv_has "xelatex") true sample_branches;
       events := [Exec (Argv ["platex"; "--version"]) false (Completed "done");
                  Exec (Argv ["xelatex"; "--version"]) false (Failed "failed")] |}.
Proof.
  exact (main_version version_arguments
           (sample_world (argv_has "xelatex") true sample_branches)
           (sample_world (argv_has "xelatex") true sample_branches)
           (sample_world (argv_has "xelatex") true sample_branches)
           (Completed "done") (Failed "failed") eq_refl eq_refl eq_refl).
Defined.

(** ** copy_build_to_webroot: the file-system errors *)

Lemma events_prepend {W A : Type} (evs : list event) (o : outcome W A) :
  events (prepend evs o) = evs ++ events o.
Proof. reflexivity. Qed.

Lemma res_prepend {W A : Type} (evs : list event) (o : outcome W A) :
  res (prepend evs o) = res o.
Proof. reflexivity. Qed.

Lemma events_bind_with {W A B : Type} (o : outcome W A) (k : A -> M W B) :
  exists rest, events (bind_with o k) = events o ++ rest.
Proof.
  unfold bind_with. destruct (res o).
  - eexists. reflexivity.
  - exists []. simpl. rewrite app_nil_r. reflexivity.
Qed.

Section PublishErrors.

Context {W : Type} `{Env W}.

(** X16. [os.chmod] on the target directory: a [PermissionError] is only
    a warning, the publish goes on with the chgrp of the target; any
    other [OSError] ends [copy_build_to_webroot] before a command has
    been run. *)
Theorem chmod_target_refused (build_root version group : string)
  (quick skip_cache_invalidation : bool) (www_root : string) (w w1 w2 : W)
  (err : os_error) :
  env_fs (Makedirs (path_join www_root version) 511 true) w = (None, w1) ->
  env_fs (Chmod (path_join www_root version) 509) w1 = (Some err, w2) ->
  (err = PermissionError ->
   In (Logging WARNING "Can't change mod of %s: %s"
         [AStr (path_join www_root version); AExn (OSError PermissionError)])
      (events (copy_build_to_webroot build_root version "en" group quick
                 skip_cache_invalidation www_root w))
   /\ In (Argv ["chgrp"; "-R"; group; path_join www_root version])
         (executed (events (copy_build_to_webroot build_root version "en" group quick
                              skip_cache_invalidation www_root w))))
  /\ (err <> PermissionError ->
      res (copy_build_to_webroot build_root version "en" group quick
             skip_cache_invalidation www_root w) = Raise (OSError err)
      /\ executed (events (copy_build_to_webroot build_root version "en" group quick
                             skip_cache_invalidation www_root w)) = []).
Proof.
  intros Hmk Hch. unfold copy_build_to_webroot, publish_build.
  cbn [String.eqb Ascii.eqb Bool.eqb]. unfold chgrp_or_warn.
  split.
  - intros ->. run_steps. cbn [is_PermissionError]. run_steps.
    match goal with
    | |- context [events (bind_with ?o ?k)] =>
        destruct (events_bind_with o k) as [rest ->]
    end.
    rewrite !events_prepend.
    match goal with
    | |- context [events (bind_with ?o ?k)] =>
        destruct (events_bind_with o k) as [rest' ->]
    end.
    rewrite !executed_app, Hx. rewrite !in_app_iff. simpl. tauto.
  - intros Hother. run_steps.
    assert (Hcatch : is_PermissionError (OSError err) = false)
      by (destruct err; try reflexivity; congruence).
    rewrite Hcatch. run_steps. cbn [res events]. split; reflexivity.
Qed.

End PublishErrors.

(** The theorem in a world where [os.chmod] is refused. *)
Lemma chmod_target_refused_witness :
  (PermissionError = PermissionError ->
   In (Logging WARNING "Can't change mod of %s: %s"
         [AStr (path_join "/srv/docs.python.org" "3.8"); AExn (OSError PermissionError)])
      (events (copy_build_to_webroot "/srv/docsbuild" "3.8" "en" "docs" false false
                 "/srv/docs.python.org"
                 (with_fs no_chmod (sample_world (fun _ => false) true sample_branches))))
   /\ In (Argv ["chgrp"; "-R"; "docs"; path_join "/srv/docs.python.org" "3.8"])
         (executed (events (copy_build_to_webroot "/srv/docsbuild" "3.8" "en" "docs"
                              false false "/srv/docs.python.org"
                              (with_fs no_chmod
                                 (sample_world (fun _ => false) true sample_branches))))))
  /\ (PermissionError <> PermissionError ->
      res (copy_build_to_webroot "/srv/docsbuild" "3.8" "en" "docs" false false
             "/srv/docs.python.org"
             (with_fs no_chmod (sample_world (fun _ => false) true sample_branches)))
      = Raise (OSError PermissionError)
      /\ executed (events (copy_build_to_webroot "/srv/docsbuild" "3.8" "en" "docs"
                             false false "/srv/docs.python.org"
                             (with_fs no_chmod
                                (sample_world (fun _ => false) true sample_branches))))
         = []).
Proof.
  exact (chmod_target_refused "/srv/docsbuild" "3.8" "docs" false false
           "/srv/docs.python.org"
           (with_fs no_chmod (sample_world (fun _ => false) true sample_branches))
           (with_fs no_chmod (sample_world (fun _ => false) true sample_branches))
           (with_fs no_chmod (sample_world (fun _ => false) true sample_branches))
           PermissionError eq_refl eq_refl).
Defined.

Section PublishTranslation.

Context {W : Type} `{Env W}.

(** X17. For a translation, [os.chmod] on the directory of the language is
    not guarded: whatever [OSError] it raises, a [PermissionError]
    included, ends [copy_build_to_webroot] after the chgrp of that
    directory, before the target directory is made and before anything
    is copied. *)
Theorem chmod_language_dir_refused (build_root version language group : string)
  (quick skip_cache_invalidation : bool) (www_root : string) (w w1 w2 : W)
  (err : os_error) :
  String.eqb language "en" = false ->
  env_fs (Makedirs (path_join www_root language) 511 true) w = (None, w1) ->
  env_fs (Chmod (path_join www_root language) 509)
    (final (shell_out (Argv ["chgrp"; "-R"; group; path_join www_root language])
              false None w1)) = (Some err, w2) ->
  res (copy_build_to_webroot build_root version language group quick
         skip_cache_invalidation www_root w) = Raise (OSError err)
  /\ executed (events (copy_build_to_webroot build_root version language group quick
                         skip_cache_invalidation www_root w))
     = [Argv ["chgrp"; "-R"; group; path_join www_root language]]
  /\ fs_calls (events (copy_build_to_webroot build_root version language group quick
                         skip_cache_invalidation www_root w))
     = [Makedirs (path_join www_root language) 511 true;
        Chmod (path_join www_root language) 509].
Proof.
  intros Hlang Hmk Hch. unfold copy_build_to_webroot, publish_build.
  rewrite Hlang. unfold chgrp_or_warn.
  autorewrite with run. cbv beta. run_fs_call. autorewrite with run. cbv beta.
  destruct (shell_out_run (Argv ["chgrp"; "-R"; group; path_join www_root language])
              false w1) as (r & w' & evs & E & Hx & Hf).
  rewrite E in Hch |- *. cbn [final] in Hch.
  run_steps. cbn [res events].
  rewrite !fs_calls_app, !executed_app, Hx, Hf. repeat split.
Qed.

End PublishTranslation.

(** The theorem for the French translation in a world where [os.chmod]
    is refused. *)
Lemma chmod_language_dir_refused_witness :
  res (copy_build_to_webroot "/srv/docsbuild" "3.8" "fr" "docs" false false
         "/srv/docs.python.org"
         (with_fs no_chmod (sample_world (fun _ => false) true sample_branches)))
  = Raise (OSError PermissionError)
  /\ executed (events (copy_build_to_webroot "/srv/docsbuild" "3.8" "fr" "docs" false
                         false "/srv/docs.python.org"
                         (with_fs no_chmod
                            (sample_world (fun _ => false) true sample_branches))))
     = [Argv ["chgrp"; "-R"; "docs"; path_join "/srv/docs.python.org" "fr"]]
  /\ fs_calls (events (copy_build_to_webroot "/srv/docsbuild" "3.8" "fr" "docs" false
                         false "/srv/docs.python.org"
                         (with_fs no_chmod
                            (sample_world (fun _ => false) true sample_branches))))
     = [Makedirs (path_join "/srv/docs.python.org" "fr") 511 true;
        Chmod (path_join "/srv/docs.python.org" "fr") 509].
Proof.
  exact (chmod_language_dir_refused "/srv/docsbuild" "3.8" "fr" "docs" false false
           "/srv/docs.python.org"
           (with_fs no_chmod (sample_world (fun _ => false) true sample_branches))
           (with_fs no_chmod (sample_world (fun _ => false) true sample_branches))
           (with_fs no_chmod (sample_world (fun _ => false) true sample_branches))
           PermissionError eq_refl eq_refl eq_refl).
Defined.

(** ** The log records of a run *)

Lemma records_app (lvl : level) (fmt : string) (a b : list event) :
  records lvl fmt (a ++ b) = records lvl fmt a ++ records lvl fmt b.
Proof. apply flat_map_app. Qed.

Section Silent.

Context {W : Type} `{Env W}.

Variable lvl : level.
Variable fmt : string.

Lemma records_bind {A B : Type} (m : M W A) (k : A -> M W B) (w : W) :
  records lvl fmt (events (bind m k w))
  = records lvl fmt (events (m w))
    ++ match res (m w) with
       | Ok a => records lvl fmt (events (k a (final (m w))))
       | Raise _ => []
       end.
Proof.
  unfold bind. destruct (res (m w)); cbn [events].
  - apply records_app.
  - rewrite app_nil_r. reflexivity.
Qed.

Lemma silent_bind {A B : Type} (m : M W A) (k : A -> M W B) :
  silent lvl fmt m -> (forall a, silent lvl fmt (k a)) -> silent lvl fmt (bind m k).
Proof.
  intros Hm Hk w. rewrite records_bind, Hm. destruct (res (m w)); [apply Hk|reflexivity].
Qed.

Lemma silent_try {A : Type} (m : M W A) (catches : exn -> bool)
  (handler : exn -> M W A) :
  silent lvl fmt m -> (forall e, silent lvl fmt (handler e)) ->
  silent lvl fmt (try_except m catches handler).
Proof.
  intros Hm Hh w. unfold try_except. specialize (Hm w).
  destruct (res (m w)) as [a|e]; [assumption|].
  destruct (catches e); [|assumption].
  cbn [events]. rewrite records_app, Hm. apply Hh.
Qed.

Lemma silent_ret {A : Type} (a : A) : @silent W A lvl fmt (ret a).
Proof. intros w. reflexivity. Qed.

Lemma silent_raise {A : Type} (e : exn) : @silent W A lvl fmt (raise e).
Proof. intros w. reflexivity. Qed.

Lemma silent_lift {A : Type} (r : result A) : @silent W A lvl fmt (lift r).
Proof. intros w. reflexivity. Qed.

Lemma silent_logging (l : level) (f : string) (args : list log_arg) :
  level_eqb l lvl && String.eqb f fmt = false ->
  @silent W unit lvl fmt (logging l f args).
Proof.
  intros Hno w. cbn [logging emit events]. unfold records. cbn [flat_map app].
  rewrite Hno. reflexivity.
Qed.

Lemma silent_when (b : bool) (m : M W unit) :
  silent lvl fmt m -> silent lvl fmt (when b m).
Proof. intros Hm. destruct b; [assumption|apply silent_ret]. Qed.

Lemma silent_capture (e : exn) (fingerprint : option command) :
  @silent W unit lvl fmt (emit (SentryCapture e fingerprint)).
Proof. intros w. reflexivity. Qed.

Lemma silent_fs_call (op : fs_op) : silent lvl fmt (fs_call op).
Proof. intros w. unfold fs_call. destruct (env_fs op w). reflexivity. Qed.

Lemma silent_os_listdir (path : string) : silent lvl fmt (os_listdir path).
Proof. intros w. reflexivity. Qed.

Lemma silent_os_path_isdir (path : string) : silent lvl fmt (os_path_isdir path).
Proof. intros w. reflexivity. Qed.

Lemma silent_os_path_exists (path : string) : silent lvl fmt (os_path_exists path).
Proof. intros w. reflexivity. Qed.

Lemma silent_changed_files_of (left right : string) :
  silent lvl fmt (changed_files_of left right).
Proof. intros w. reflexivity. Qed.

Lemma silent_sentry_set_tags (version language : string) :
  silent lvl fmt (sentry_set_tags version language).
Proof. intros w. rewrite sentry_set_tags_value. destruct sentry_sdk; reflexivity. Qed.

(** [shell_out] logs the command at level DEBUG and a failure at level
    ERROR, nothing else. *)
Lemma silent_shell_out (cmd : command) (shell : bool) (logfile : option string) :
  level_eqb DEBUG lvl && String.eqb "Running command %r" fmt = false ->
  level_eqb ERROR lvl && String.eqb "Command failed (see %s at %s)" fmt = false ->
  level_eqb ERROR lvl && String.eqb "Command failed with output %r" fmt = false ->
  silent lvl fmt (shell_out cmd shell logfile).
Proof.
  intros Hrun Hsee Hout w.
  destruct (env_now w) as [now w1] eqn:Hnow.
  destruct (env_check_output cmd shell w1) as [[output|output] w2] eqn:Hexec.
  - destruct (given logfile) as [lf|] eqn:Hlf.
    + destruct (env_append lf w2) as [a w3] eqn:Happend.
      rewrite (shell_out_success_log _ _ _ _ _ _ _ _ _ _ _ Hlf Hnow Hexec Happend).
      destruct a; cbn [events]; unfold records; cbn [flat_map app];
        rewrite Hrun; reflexivity.
    + rewrite (given_None _ Hlf), (shell_out_success _ _ _ _ _ _ _ Hnow Hexec).
      cbn [events]; unfold records; cbn [flat_map app]; rewrite Hrun; reflexivity.
  - destruct (given logfile) as [lf|] eqn:Hlf.
    + destruct (env_append lf w2) as [a w3] eqn:Happend.
      rewrite (shell_out_failed_log _ _ _ _ _ _ _ _ _ _ _ Hlf Hnow Hexec Happend).
      destruct a, sentry_sdk; cbn [events]; unfold records; cbn [flat_map app];
        rewrite Hrun, ?Hsee; reflexivity.
    + rewrite (given_None _ Hlf), (shell_out_failed _ _ _ _ _ _ _ Hnow Hexec).
      destruct sentry_sdk; cbn [events]; unfold records; cbn [flat_map app];
        rewrite Hrun, ?Hout; reflexivity.
Qed.

Lemma silent_for_each {A : Type} (l : list A) (body : A -> M W unit) :
  (forall x, silent lvl fmt (body x)) -> silent lvl fmt (for_each l body).
Proof.
  intros Hbody. induction l as [|x l IH]; simpl; [apply silent_ret|].
  apply silent_bind; [apply Hbody|intros _; apply IH].
Qed.

End Silent.

(** The pieces of a computation, one after the other; the level and the
    format are given, so that the tests on them compute. *)
Ltac silent_step :=
  match goal with
  | |- silent _ _ (bind _ _) => apply silent_bind; [|intros ?]
  | |- silent _ _ (try_except _ _ _) => apply silent_try; [|intros ?]
  | |- silent _ _ (ret _) => apply silent_ret
  | |- silent _ _ (raise _) => apply silent_raise
  | |- silent _ _ (lift _) => apply silent_lift
  | |- silent _ _ (logging _ _ _) => apply silent_logging; reflexivity
  | |- silent _ _ (when _ _) => apply silent_when
  | |- silent _ _ (emit (SentryCapture _ _)) => apply silent_capture
  | |- silent _ _ (shell_out _ _ _) => apply silent_shell_out; reflexivity
  | |- silent _ _ (fs_call _) => apply silent_fs_call
  | |- silent _ _ (os_listdir _) => apply silent_os_listdir
  | |- silent _ _ (os_path_isdir _) => apply silent_os_path_isdir
  | |- silent _ _ (os_path_exists _) => apply silent_os_path_exists
  | |- silent _ _ (changed_files_of _ _) => apply silent_changed_files_of
  | |- silent _ _ (sentry_set_tags _ _) => apply silent_sentry_set_tags
  | |- silent _ _ (if ?b then _ else _) => destruct b
  | |- silent _ _ (match ?x with _ => _ end) => destruct x
  end.

Section DeadHandlers.

Context {W : Type} `{Env W}.

(** X18. The warning of the two [except subprocess.CalledProcessError]
    clauses around the chgrp calls of [copy_build_to_webroot] is never
    logged: [shell_out] raises no [CalledProcessError], a chgrp that
    fails is logged by [shell_out] at level ERROR and the publish goes
    on. *)
Theorem chgrp_warning_never_logged (build_root version language group : string)
  (quick skip_cache_invalidation : bool) (www_root : string) (w : W) :
  records WARNING "Can't change group of %s: %s"
    (events (copy_build_to_webroot build_root version language group quick
               skip_cache_invalidation www_root w)) = [].
Proof.
  revert w.
  change (silent WARNING "Can't change group of %s: %s"
            (copy_build_to_webroot build_root version language group quick
               skip_cache_invalidation www_root)).
  unfold copy_build_to_webroot, publish_build, purge_cache.
  assert (Hchgrp : forall path,
             silent WARNING "Can't change group of %s: %s" (chgrp_or_warn group path)).
  { intros path w. unfold chgrp_or_warn. rewrite try_except_eq, bind_eq.
    destruct (shell_out_run (Argv ["chgrp"; "-R"; group; path]) false w)
      as (r & w' & evs & E & _).
    pose proof (silent_shell_out WARNING "Can't change group of %s: %s"
                  (Argv ["chgrp"; "-R"; group; path]) false None
                  eq_refl eq_refl eq_refl w) as Hquiet.
    rewrite E in Hquiet |- *. cbn [events] in Hquiet.
    autorewrite with run. cbn [events]. rewrite records_app, Hquiet. reflexivity. }
  repeat first [ apply Hchgrp | silent_step ].
Qed.

End DeadHandlers.

Section UnitRecords.

Context {W : Type} `{Env W}.

Lemma records_bind_silent {A B : Type} (lvl : level) (fmt : string)
  (m : M W A) (k : A -> M W B) (w : W) :
  (forall a, silent lvl fmt (k a)) ->
  records lvl fmt (events (bind m k w)) = records lvl fmt (events (m w)).
Proof.
  intros Hk. rewrite records_bind.
  destruct (res (m w)); [rewrite Hk|]; apply app_nil_r.
Qed.

Lemma silent_git_clone (lvl : level) (fmt : string)
  (repository directory : string) (branch : option string) :
  level_eqb INFO lvl && String.eqb "Updating repository %s in %s" fmt = false ->
  level_eqb INFO lvl && String.eqb "Cloning %s into %s" fmt = false ->
  level_eqb DEBUG lvl && String.eqb "Running command %r" fmt = false ->
  level_eqb ERROR lvl && String.eqb "Command failed (see %s at %s)" fmt = false ->
  level_eqb ERROR lvl && String.eqb "Command failed with output %r" fmt = false ->
  silent lvl fmt (git_clone repository directory branch).
Proof.
  intros Hupdating Hcloning Hrun Hsee Hout. unfold git_clone.
  repeat first [ apply silent_logging; assumption
               | apply silent_shell_out; assumption
               | silent_step ].
Qed.

Lemma silent_translation_branch (lvl : level) (fmt : string)
  (locale_repo locale_clone_dir needed : string) :
  level_eqb INFO lvl && String.eqb "Updating repository %s in %s" fmt = false ->
  level_eqb INFO lvl && String.eqb "Cloning %s into %s" fmt = false ->
  level_eqb DEBUG lvl && String.eqb "Running command %r" fmt = false ->
  level_eqb ERROR lvl && String.eqb "Command failed (see %s at %s)" fmt = false ->
  level_eqb ERROR lvl && String.eqb "Command failed with output %r" fmt = false ->
  silent lvl fmt (translation_branch locale_repo locale_clone_dir needed).
Proof.
  intros Hupdating Hcloning Hrun Hsee Hout. unfold translation_branch.
  repeat first [ apply silent_git_clone; assumption
               | apply silent_shell_out; assumption
               | silent_step ].
Qed.

(** One piece of [build_one] or [copy_build_to_webroot] that logs no
    record of the level and the format of the goal. *)
Ltac silent_unit_step :=
  first [ apply silent_git_clone; reflexivity
        | apply silent_translation_branch; reflexivity
        | silent_step ].

Lemma build_one_start (version git_branch : string) (isdev quick : bool)
  (venv build_root group log_directory language : string) (w : W) :
  records INFO "Build start for version: %s, language: %s"
    (events (build_one version git_branch isdev quick venv build_root group
               log_directory language w))
  = [[AStr version; AStr (if PyStr.truthy language then language else "en")]].
Proof.
  unfold build_one. rewrite records_bind_silent.
  2: { intros synced. unfold build_one_make. repeat silent_unit_step. }
  unfold build_one_sync. rewrite records_bind.
  rewrite (silent_sentry_set_tags _ _ _ _ w), sentry_set_tags_value.
  cbn [res final app]. rewrite records_bind_silent.
  2: { intros _. repeat silent_unit_step. }
  destruct (PyStr.truthy language); reflexivity.
Qed.

Lemma silent_build_one (lvl : level) (fmt : string) (version git_branch : string)
  (isdev quick : bool) (venv build_root group log_directory language : string) :
  lvl = ERROR /\ fmt = "Exception while building %s version %s: %s"
  \/ lvl = INFO /\ fmt = "Publishing done for version: %s, language: %s" ->
  silent lvl fmt
    (build_one version git_branch isdev quick venv build_root group log_directory
       language).
Proof.
  intros [[-> ->]|[-> ->]]; unfold build_one, build_one_sync, build_one_make;
    repeat silent_unit_step.
Qed.


Lemma silent_copy_build_to_webroot (build_root version language group : string)
  (quick skip_cache_invalidation : bool) (www_root : string) :
  silent ERROR "Exception while building %s version %s: %s"
    (copy_build_to_webroot build_root version language group quick
       skip_cache_invalidation www_root)
  /\ silent INFO "Build start for version: %s, language: %s"
       (copy_build_to_webroot build_root version language group quick
          skip_cache_invalidation www_root).
Proof.
  split; unfold copy_build_to_webroot, publish_build, purge_cache, chgrp_or_warn;
    repeat silent_unit_step.
Qed.

Lemma copy_build_to_webroot_done (build_root version language group : string)
  (quick skip_cache_invalidation : bool) (www_root : string) (w : W) :
  records INFO "Publishing done for version: %s, language: %s"
    (events (copy_build_to_webroot build_root version language group quick
               skip_cache_invalidation www_root w))
  = match res (copy_build_to_webroot build_root version language group quick
                 skip_cache_invalidation www_root w) with
    | Ok _ => [[AStr version; AStr language]]
    | Raise _ => []
    end.
Proof.
  unfold copy_build_to_webroot. rewrite records_bind.
  assert (Hpublish : silent INFO "Publishing done for version: %s, language: %s"
                       (publish_build build_root version language group quick www_root)).
  { unfold publish_build, chgrp_or_warn. repeat silent_unit_step. }
  rewrite Hpublish. cbn [app]. unfold bind at 2.
  destruct (res (publish_build build_root version language group quick www_root w))
    as [published|e]; [|reflexivity].
  cbn [res]. rewrite records_bind.
  assert (Hpurge : silent INFO "Publishing done for version: %s, language: %s"
                     (purge_cache (snd published) skip_cache_invalidation www_root
                        (fst published))).
  { unfold purge_cache. repeat silent_unit_step. }
  rewrite Hpurge. cbn [app]. unfold bind.
  destruct (res (purge_cache (snd published) skip_cache_invalidation www_root
                   (fst published) _)); reflexivity.
Qed.

(** X19. The log tells how a unit ended.  "Publishing done" is logged,
    once, exactly when the build and the publish of the unit raised
    nothing; otherwise "Exception while building" is logged, once, with
    the exception; a unit never has both records. *)
Theorem unit_verdict (args : arguments) (venv version git_branch : string)
  (devel : bool) (language : string) (w : W) :
  records INFO "Publishing done for version: %s, language: %s"
    (events (build_unit args venv (version, git_branch, devel) language w))
  = match res (build_and_publish args venv (version, git_branch, devel) language w) with
    | Ok _ => [[AStr version; AStr language]]
    | Raise _ => []
    end
  /\ records ERROR "Exception while building %s version %s: %s"
       (events (build_unit args venv (version, git_branch, devel) language w))
     = match res (build_and_publish args venv (version, git_branch, devel) language w) with
       | Ok _ => []
       | Raise e => [[AStr language; AStr version; AExn e]]
       end.
Proof.
  rewrite build_unit_value.
  assert (Hdone : records INFO "Publishing done for version: %s, language: %s"
                    (events (build_and_publish args venv (version, git_branch, devel)
                               language w))
                  = match res (build_and_publish args venv (version, git_branch, devel)
                                 language w) with
                    | Ok _ => [[AStr version; AStr language]]
                    | Raise _ => []
                    end).
  { unfold build_and_publish. rewrite records_bind.
    rewrite (silent_build_one INFO _ version git_branch devel (arg_quick args) venv
               (arg_build_root args) (arg_group args) (arg_log_directory args) language
               (or_intror (conj eq_refl eq_refl)) w).
    cbn [app]. unfold bind.
    destruct (res (build_one version git_branch devel (arg_quick args) venv
                     (arg_build_root args) (arg_group args) (arg_log_directory args)
                     language w)); [|reflexivity].
    cbn [res]. apply copy_build_to_webroot_done. }
  assert (Hquiet : records ERROR "Exception while building %s version %s: %s"
                     (events (build_and_publish args venv (version, git_branch, devel)
                                language w)) = []).
  { unfold build_and_publish. apply silent_bind.
    - apply silent_build_one. left. split; reflexivity.
    - intros _. apply silent_copy_build_to_webroot. }
  destruct (res (build_and_publish args venv (version, git_branch, devel) language w))
    as [[]|e] eqn:Hres; cbn [prepend events]; rewrite !records_app.
  - rewrite Hdone, Hquiet. destruct sentry_sdk; split; reflexivity.
  - rewrite Hdone, Hquiet. destruct sentry_sdk; split; reflexivity.
Qed.

Lemma build_unit_start (args : arguments) (venv version git_branch : string)
  (devel : bool) (language : string) (w : W) :
  records INFO "Build start for version: %s, language: %s"
    (events (build_unit args venv (version, git_branch, devel) language w))
  = [[AStr version; AStr (if PyStr.truthy language then language else "en")]].
Proof.
  rewrite build_unit_value.
  assert (Hstart : records INFO "Build start for version: %s, language: %s"
                     (events (build_and_publish args venv (version, git_branch, devel)
                                language w))
                   = [[AStr version;
                       AStr (if PyStr.truthy language then language else "en")]]).
  { unfold build_and_publish. rewrite records_bind_silent.
    - apply build_one_start.
    - intros _. apply silent_copy_build_to_webroot. }
  destruct (res (build_and_publish args venv (version, git_branch, devel) language w))
    as [[]|e]; cbn [prepend events]; rewrite !records_app, Hstart;
    destruct sentry_sdk; reflexivity.
Qed.

Lemma records_for_each {A : Type} (lvl : level) (fmt : string) (l : list A)
  (body : A -> M W unit) (f : A -> list (list log_arg)) (w : W) :
  (forall x w', res (body x w') = Ok tt) ->
  (forall x w', records lvl fmt (events (body x w')) = f x) ->
  records lvl fmt (events (for_each l body w)) = flat_map f l.
Proof.
  intros Hres Hrec. revert w. induction l as [|x l IH]; intros w; [reflexivity|].
  simpl. rewrite records_bind, Hrec, (Hres x w), IH. reflexivity.
Qed.

(** X20. A run that builds starts every unit once, in the order of the
    loops: the "Build start" records of the run are those of the
    versions selected, each with every language asked for (all of
    [LANGUAGES] when none is), whatever happened to the units before. *)
Theorem main_starts_every_unit (args : arguments) (w : W) :
  arg_version args = false ->
  records INFO "Build start for version: %s, language: %s" (events (main args w))
  = map (fun unit : (string * string * bool) * string =>
           [AStr (fst (fst (fst unit)));
            AStr (if PyStr.truthy (snd unit) then snd unit else "en")])
        (units_of (branches_to_do args)
           match arg_languages args with
           | [] => LANGUAGES
           | l => l
           end).
Proof.
  intros Hversion. unfold main. rewrite Hversion.
  destruct (settle_arguments_fields args w) as (settled & Hsettle & Hbranch & Hlanguages).
  rewrite bind_eq, Hsettle, bind_with_ok. cbn [prepend events app].
  unfold build_all. rewrite for_each_nested.
  rewrite (records_for_each _ _ _ _
             (fun unit : (string * string * bool) * string =>
                [[AStr (fst (fst (fst unit)));
                  AStr (if PyStr.truthy (snd unit) then snd unit else "en")]])).
  - unfold units_of, branches_to_do. rewrite Hbranch, Hlanguages.
    induction (list_prod _ _) as [|u l IH]; [reflexivity|].
    simpl. rewrite IH. reflexivity.
  - intros [[[version git_branch] devel] language] w'. apply build_unit_returns.
  - intros [[[version git_branch] devel] language] w'. apply build_unit_start.
Qed.

End UnitRecords.

(** The theorem for [-b 3.8] with the languages en and fr, in a world
    where make fails. *)
Lemma main_starts_every_unit_witness :
  records INFO "Build start for version: %s, language: %s"
    (events (main sample_arguments (sample_world (argv_has "make") true sample_branches)))
  = map (fun unit : (string * string * bool) * string =>
           [AStr (fst (fst (fst unit)));
            AStr (if PyStr.truthy (snd unit) then snd unit else "en")])
        (units_of (branches_to_do sample_arguments)
           match arg_languages sample_arguments with
           | [] => LANGUAGES
           | l => l
           end).
Proof.
  exact (main_starts_every_unit sample_arguments
           (sample_world (argv_has "make") true sample_branches) eq_refl).
Defined.

(** ** The pattern of translation_branch *)

Lemma append_nil (a b : string) :
  a +++ b = EmptyString -> a = EmptyString /\ b = EmptyString.
Proof. destruct a; simpl; [auto|discriminate]. Qed.

Lemma append_cons (a b : string) (c : ascii) (s : string) :
  a +++ b = String c s ->
  a = EmptyString /\ b = String c s
  \/ exists a', a = String c a' /\ s = a' +++ b.
Proof.
  destruct a as [|d a]; simpl; [auto|].
  intros [= -> <-]. right. eauto.
Qed.

Lemma append_assoc (a b c : string) : (a +++ b) +++ c = a +++ b +++ c.
Proof. induction a as [|x a IH]; simpl; [reflexivity|]. rewrite IH. reflexivity. Qed.

Lemma matches_cat (r1 r2 : regex) (s : string) :
  matches (Cat r1 r2) s
  <-> exists s1 s2, s = s1 +++ s2 /\ matches r1 s1 /\ matches r2 s2.
Proof.
  split.
  - intros Hm. inversion Hm; subst. eauto.
  - intros (s1 & s2 & -> & H1 & H2). constructor; assumption.
Qed.

Lemma matches_alt (r1 r2 : regex) (s : string) :
  matches (Alt r1 r2) s <-> matches r1 s \/ matches r2 s.
Proof.
  split.
  - intros Hm. inversion Hm; subst; auto.
  - intros [Hm|Hm]; [apply MAltL|apply MAltR]; assumption.
Qed.

Lemma nullable_matches (r : regex) : nullable r = true <-> matches r EmptyString.
Proof.
  induction r as [| | | | |r1 IH1 r2 IH2|r1 IH1 r2 IH2|r IH]; simpl.
  - split; [discriminate|]. intros Hm. inversion Hm.
  - split; [constructor|reflexivity].
  - split; [discriminate|]. intros Hm. inversion Hm.
  - split; [discriminate|]. intros Hm. inversion Hm.
  - split; [discriminate|]. intros Hm. inversion Hm.
  - rewrite andb_true_iff, IH1, IH2, matches_cat. split.
    + intros [H1 H2]. exists EmptyString, EmptyString. auto.
    + intros (s1 & s2 & E & H1 & H2). symmetry in E.
      apply append_nil in E as [-> ->]. auto.
  - rewrite orb_true_iff, IH1, IH2, matches_alt. reflexivity.
  - split; [constructor|reflexivity].
Qed.

(** A non-empty match of a star starts with a non-empty match of its
    body. *)
Lemma star_cons (r : regex) (c : ascii) (s : string) :
  matches (Star r) (String c s) ->
  exists s1 s2, s = s1 +++ s2 /\ matches r (String c s1) /\ matches (Star r) s2.
Proof.
  intros Hm. remember (Star r) as r' eqn:Er. remember (String c s) as t eqn:Et.
  revert s Et. induction Hm as [| | | | | | | |r0 s1 s2 H1 _ H2 IH2]; try discriminate.
  intros s Et. injection Er as ->.
  apply append_cons in Et as [[-> ->]|(s1' & -> & ->)].
  - apply IH2; reflexivity.
  - exists s1', s2. auto.
Qed.

Lemma deriv_matches (c : ascii) (r : regex) (s : string) :
  matches (deriv c r) s <-> matches r (String c s).
Proof.
  revert s. induction r as [| | |d| |r1 IH1 r2 IH2|r1 IH1 r2 IH2|r IH]; intros s; simpl.
  - split; intros Hm; inversion Hm.
  - split; intros Hm; inversion Hm.
  - destruct (Ascii.eqb c PyStr.nl) eqn:Ec; split; intros Hm; inversion Hm; subst;
      try congruence; constructor; assumption.
  - destruct (Ascii.eqb_spec c d) as [->|Hne]; split; intros Hm; inversion Hm; subst;
      try congruence; constructor.
  - destruct (PyStr.is_digit c) eqn:Ec; split; intros Hm; inversion Hm; subst;
      try congruence; constructor; assumption.
  - assert (Hcat : matches (Cat (deriv c r1) r2) s
                   <-> exists s1 s2, s = s1 +++ s2 /\ matches r1 (String c s1)
                                     /\ matches r2 s2).
    { rewrite matches_cat. split; intros (s1 & s2 & E & H1 & H2);
        exists s1, s2; repeat split; try assumption; apply IH1; assumption. }
    rewrite (matches_cat r1 r2). split.
    + intros Hm.
      assert (Hleft : matches (Cat (deriv c r1) r2) s ->
                      exists s1 s2, String c s = s1 +++ s2 /\ matches r1 s1
                                    /\ matches r2 s2).
      { intros Hc. apply Hcat in Hc as (s1 & s2 & -> & H1 & H2).
        exists (String c s1), s2. auto. }
      destruct (nullable r1) eqn:Hn; [|auto].
      apply matches_alt in Hm as [Hm|Hm]; [auto|].
      exists EmptyString, (String c s). repeat split.
      * apply nullable_matches. assumption.
      * apply IH2. assumption.
    + intros (s1 & s2 & E & H1 & H2). symmetry in E.
      apply append_cons in E as [[-> ->]|(s1' & -> & ->)].
      * apply nullable_matches in H1. rewrite H1. apply MAltR. apply IH2. assumption.
      * assert (Hc : matches (Cat (deriv c r1) r2) (s1' +++ s2))
          by (apply Hcat; eauto).
        destruct (nullable r1); [apply MAltL|]; assumption.
  - rewrite !matches_alt, IH1, IH2. reflexivity.
  - rewrite matches_cat. split.
    + intros (s1 & s2 & -> & H1 & H2).
      apply IH in H1. apply (MStarS _ (String c s1) s2); assumption.
    + intros Hm. apply star_cons in Hm as (s1 & s2 & -> & H1 & H2).
      exists s1, s2. repeat split; [apply IH|]; assumption.
Qed.

(** The matcher by derivatives accepts the strings the pattern matches. *)
Lemma fullmatch_matches (r : regex) (s : string) :
  fullmatch r s = true <-> matches r s.
Proof.
  revert r. induction s as [|c s IH]; intros r; simpl.
  - apply nullable_matches.
  - rewrite IH. apply deriv_matches.
Qed.

Lemma matches_chr (c : ascii) (s : string) :
  matches (Chr c) s <-> s = String c EmptyString.
Proof.
  split.
  - intros Hm. inversion Hm. reflexivity.
  - intros ->. constructor.
Qed.

Lemma matches_dot (s : string) :
  matches Dot s -> exists c, s = String c EmptyString /\ Ascii.eqb c PyStr.nl = false.
Proof. intros Hm. inversion Hm. eauto. Qed.

Lemma matches_digit (s : string) :
  matches Digit s -> exists c, s = String c EmptyString /\ PyStr.is_digit c = true.
Proof. intros Hm. inversion Hm. eauto. Qed.

Lemma matches_star_dot (s : string) :
  matches (Star Dot) s <-> PyStr.contains PyStr.nl s = false.
Proof.
  split.
  - intros Hm. remember (Star Dot) as r eqn:Er.
    induction Hm as [| | | | | | | |r0 s1 s2 H1 _ H2 IH2]; try discriminate.
    + reflexivity.
    + injection Er as ->. apply matches_dot in H1 as (c & -> & Hc). simpl.
      rewrite Hc. apply IH2. reflexivity.
  - induction s as [|c s IH]; simpl; intros Hc; [constructor|].
    apply orb_false_elim in Hc as [Hc Hs].
    apply (MStarS Dot (String c EmptyString) s); [constructor; assumption|auto].
Qed.

Lemma matches_star_digit (s : string) :
  matches (Star Digit) s <-> all_digits s = true.
Proof.
  split.
  - intros Hm. remember (Star Digit) as r eqn:Er.
    induction Hm as [| | | | | | | |r0 s1 s2 H1 _ H2 IH2]; try discriminate.
    + reflexivity.
    + injection Er as ->. apply matches_digit in H1 as (c & -> & Hc). simpl.
      rewrite Hc. apply IH2. reflexivity.
  - induction s as [|c s IH]; simpl; intros Hc; [constructor|].
    apply andb_true_iff in Hc as [Hc Hs].
    apply (MStarS Digit (String c EmptyString) s); [constructor; assumption|auto].
Qed.

Lemma matches_plus_digit (s : string) :
  matches (Plus Digit) s <-> is_digits s = true.
Proof.
  unfold Plus, is_digits. rewrite matches_cat. split.
  - intros (s1 & s2 & -> & H1 & H2). apply matches_digit in H1 as (c & -> & Hc).
    apply matches_star_digit in H2. simpl. rewrite Hc, H2. reflexivity.
  - destruct s as [|c s]; simpl; [discriminate|]. intros Hc.
    apply andb_true_iff in Hc as [Hc Hs].
    exists (String c EmptyString), s. repeat split.
    + constructor. assumption.
    + apply matches_star_digit. assumption.
Qed.

Lemma version_branch_re_matches (branch : string) :
  re_match_version_branch branch = true
  <-> exists remote major minor tail,
        branch = remote +++ "/" +++ major +++ "." +++ minor +++ tail
        /\ PyStr.contains PyStr.nl remote = false
        /\ is_digits major = true
        /\ is_digits minor = true
        /\ (tail = EmptyString \/ tail = String PyStr.nl EmptyString).
Proof.
  unfold re_match_version_branch, version_branch_re.
  rewrite fullmatch_matches. split.
  - intros Hm.
    apply matches_cat in Hm as (remote & s1 & -> & Hremote & Hm).
    apply matches_cat in Hm as (slash & s2 & -> & Hslash & Hm).
    apply matches_cat in Hm as (major & s3 & -> & Hmajor & Hm).
    apply matches_cat in Hm as (dot & s4 & -> & Hdot & Hm).
    apply matches_cat in Hm as (minor & tail & -> & Hminor & Htail).
    apply matches_chr in Hslash as ->. apply matches_chr in Hdot as ->.
    exists remote, major, minor, tail. repeat split.
    + apply matches_star_dot. assumption.
    + apply matches_plus_digit. assumption.
    + apply matches_plus_digit. assumption.
    + apply matches_alt in Htail as [He|Hn].
      * inversion He. left. reflexivity.
      * apply matches_chr in Hn. right. assumption.
  - intros (remote & major & minor & tail & -> & Hremote & Hmajor & Hminor & Htail).
    apply MCat; [apply matches_star_dot; assumption|].
    apply (MCat _ _ "/"); [constructor|].
    apply MCat; [apply matches_plus_digit; assumption|].
    apply (MCat _ _ "."); [constructor|].
    apply MCat; [apply matches_plus_digit; assumption|].
    destruct Htail as [-> | ->]; [apply MAltL|apply MAltR]; constructor.
Qed.

(** X21. The branches [translation_branch] keeps: [re.match] with the
    pattern [.*/[0-9]+\.[0-9]+$] accepts a line exactly when it is made
    of any text without a newline, a slash, one digit or more, a dot and
    one digit or more, possibly followed by one final newline. *)
Theorem version_branch_pattern (branch : string) :
  re_match_version_branch branch = true
  <-> exists remote major minor tail,
        branch = remote +++ "/" +++ major +++ "." +++ minor +++ tail
        /\ PyStr.contains PyStr.nl remote = false
        /\ is_digits major = true
        /\ is_digits minor = true
        /\ (tail = EmptyString \/ tail = String PyStr.nl EmptyString).
Proof. apply version_branch_re_matches. Qed.

(** ** translation_branch: the branch it returns *)

Lemma last_split (sep : ascii) (a b d : string) :
  last (PyStr.split sep (a +++ String sep b)) d = last (PyStr.split sep b) d.
Proof.
  induction a as [|c a IH]; simpl.
  - rewrite Ascii.eqb_refl.
    pose proof (split_nonempty sep b). destruct (PyStr.split sep b); [congruence|reflexivity].
  - pose proof (split_with_sep sep (a +++ String sep b) (contains_app_sep sep a b)) as Hlen.
    destruct (PyStr.split sep (a +++ String sep b)) as [|h [|h' t]]; simpl in Hlen; try lia.
    destruct (Ascii.eqb c sep); exact IH.
Qed.

Lemma all_digits_free (c : ascii) (s : string) :
  PyStr.is_digit c = false -> all_digits s = true -> PyStr.contains c s = false.
Proof.
  intros Hc. induction s as [|d s IH]; simpl; [reflexivity|].
  intros Hd. apply andb_true_iff in Hd as [Hd Hs]. rewrite (IH Hs), orb_false_r.
  destruct (Ascii.eqb_spec d c) as [->|]; [congruence|reflexivity].
Qed.

Lemma is_digits_all (s : string) : is_digits s = true -> all_digits s = true.
Proof. unfold is_digits. intros Hs. apply andb_true_iff in Hs. tauto. Qed.

(** A string of digits is the decimal notation of a number. *)
Lemma is_digits_uint (s : string) :
  is_digits s = true ->
  exists d, d <> Decimal.Nil /\ s = NilEmpty.string_of_uint d.
Proof.
  unfold is_digits. destruct s as [|c s]; [discriminate|]. cbn [PyStr.truthy andb].
  revert c. induction s as [|c' s IH]; intros c Hs; cbn [all_digits] in Hs;
    apply andb_true_iff in Hs as [Hc Hs].
  - destruct c as [[] [] [] [] [] [] [] []]; try discriminate Hc;
      first [ exists (Decimal.D0 Decimal.Nil); split; [discriminate|reflexivity]
            | exists (Decimal.D1 Decimal.Nil); split; [discriminate|reflexivity]
            | exists (Decimal.D2 Decimal.Nil); split; [discriminate|reflexivity]
            | exists (Decimal.D3 Decimal.Nil); split; [discriminate|reflexivity]
            | exists (Decimal.D4 Decimal.Nil); split; [discriminate|reflexivity]
            | exists (Decimal.D5 Decimal.Nil); split; [discriminate|reflexivity]
            | exists (Decimal.D6 Decimal.Nil); split; [discriminate|reflexivity]
            | exists (Decimal.D7 Decimal.Nil); split; [discriminate|reflexivity]
            | exists (Decimal.D8 Decimal.Nil); split; [discriminate|reflexivity]
            | exists (Decimal.D9 Decimal.Nil); split; [discriminate|reflexivity] ].
  - destruct (IH c' Hs) as (d & Hd & E).
    destruct c as [[] [] [] [] [] [] [] []]; try discriminate Hc; rewrite E;
      first [ exists (Decimal.D0 d); split; [discriminate|reflexivity]
            | exists (Decimal.D1 d); split; [discriminate|reflexivity]
            | exists (Decimal.D2 d); split; [discriminate|reflexivity]
            | exists (Decimal.D3 d); split; [discriminate|reflexivity]
            | exists (Decimal.D4 d); split; [discriminate|reflexivity]
            | exists (Decimal.D5 d); split; [discriminate|reflexivity]
            | exists (Decimal.D6 d); split; [discriminate|reflexivity]
            | exists (Decimal.D7 d); split; [discriminate|reflexivity]
            | exists (Decimal.D8 d); split; [discriminate|reflexivity]
            | exists (Decimal.D9 d); split; [discriminate|reflexivity] ].
Qed.

Lemma is_digits_int (s : string) :
  is_digits s = true -> exists n, PyStr.int s = Some n.
Proof.
  intros Hs. destruct (is_digits_uint s Hs) as (d & Hd & ->).
  rewrite (int_uint d Hd). eauto.
Qed.

(** The branch of a line the pattern accepts, and the tuple it stands
    for. *)
Lemma version_branch_of_line (line : string) :
  PyStr.contains PyStr.nl line = false ->
  re_match_version_branch line = true ->
  exists remote major minor M m,
    line = remote +++ "/" +++ major +++ "." +++ minor
    /\ is_digits major = true /\ is_digits minor = true
    /\ PyStr.int major = Some M /\ PyStr.int minor = Some m
    /\ last (PyStr.split "/" line) EmptyString = major +++ "." +++ minor
    /\ version_to_tuple (major +++ "." +++ minor) = Ok [M; m].
Proof.
  intros Hline Hmatch.
  apply version_branch_re_matches in Hmatch
    as (remote & major & minor & tail & -> & _ & Hmajor & Hminor & Htail).
  assert (tail = EmptyString) as ->.
  { destruct Htail as [-> | ->]; [reflexivity|].
    rewrite !contains_app in Hline. simpl in Hline.
    rewrite !orb_true_r in Hline. discriminate. }
  rewrite append_empty_r.
  destruct (is_digits_int major Hmajor) as [M HM].
  destruct (is_digits_int minor Hminor) as [m Hm].
  pose proof (is_digits_all _ Hmajor) as Amajor.
  pose proof (is_digits_all _ Hminor) as Aminor.
  exists remote, major, minor, M, m. repeat split; try assumption.
  - change (remote +++ "/" +++ major +++ "." +++ minor)
      with (remote +++ String "/" (major +++ "." +++ minor)).
    rewrite last_split, split_no_sep; [reflexivity|].
    change (major +++ "." +++ minor) with (major +++ String "." minor).
    rewrite contains_app. simpl.
    rewrite (all_digits_free "/" major), (all_digits_free "/" minor); auto.
  - unfold version_to_tuple.
    change (major +++ "." +++ minor) with (major +++ String "." minor).
    rewrite split_app_sep by (apply all_digits_free; auto).
    rewrite split_no_sep by (apply all_digits_free; auto).
    simpl. unfold int_part. rewrite HM, Hm. reflexivity.
Qed.

Lemma version_branches_In (listing version : string) :
  In version (version_branches listing) ->
  exists line remote major minor M m,
    In line (PyStr.split PyStr.nl listing)
    /\ line = remote +++ "/" +++ major +++ "." +++ minor
    /\ is_digits major = true /\ is_digits minor = true
    /\ PyStr.int major = Some M /\ PyStr.int minor = Some m
    /\ version = major +++ "." +++ minor
    /\ version_to_tuple version = Ok [M; m].
Proof.
  unfold version_branches. intros Hin.
  apply in_map_iff in Hin as (line & <- & Hline).
  apply filter_In in Hline as [Hline Hmatch].
  pose proof (split_fields PyStr.nl listing) as Hfields.
  rewrite Forall_forall in Hfields.
  destruct (version_branch_of_line line (Hfields _ Hline) Hmatch)
    as (remote & major & minor & M & m & E & Hmajor & Hminor & HM & Hm & Hlast & Htuple).
  exists line, remote, major, minor, M, m. rewrite Hlast. auto 10.
Qed.

Section TranslationBranchMore.

Context {W : Type} `{Env W}.

(** X22. What [translation_branch] gives once the clone step has
    returned.  When [git branch -r] exits with a non-zero status it
    raises [AttributeError].  When the command completes, a branch it
    returns is the major.minor of one of the listed lines of the form
    remote/digits.digits, printed without leading zeros; it raises
    [ValueError] only for a needed version that does not parse, and
    nothing but [IndexError] and [ValueError]. *)
Theorem translation_branch_outcome (locale_repo locale_clone_dir needed : string)
  (w w1 w2 : W) (now : string) (o : proc_outcome) :
  res (git_clone locale_repo locale_clone_dir None w) = Ok tt ->
  env_now (final (git_clone locale_repo locale_clone_dir None w)) = (now, w1) ->
  env_check_output (Argv ["git"; "-C"; locale_clone_dir; "branch"; "-r"]) false w1
  = (o, w2) ->
  match o with
  | Failed _ =>
      res (translation_branch locale_repo locale_clone_dir needed w) = Raise AttributeError
  | Completed listing =>
      (forall branch,
          res (translation_branch locale_repo locale_clone_dir needed w) = Ok branch ->
          exists line remote major minor M m,
            In line (PyStr.split PyStr.nl listing)
            /\ line = remote +++ "/" +++ major +++ "." +++ minor
            /\ is_digits major = true /\ is_digits minor = true
            /\ PyStr.int major = Some M /\ PyStr.int minor = Some m
            /\ branch = PyStr.str M +++ "." +++ PyStr.str m)
      /\ (res (translation_branch locale_repo locale_clone_dir needed w)
          = Raise ValueError ->
          version_to_tuple needed = Raise ValueError)
      /\ (forall e,
             res (translation_branch locale_repo locale_clone_dir needed w) = Raise e ->
             e = IndexError \/ e = ValueError)
  end.
Proof.
  intros Hclone Hnow Hrun.
  unfold translation_branch. rewrite bind_eq.
  destruct (git_clone locale_repo locale_clone_dir None w) as [r wf evs].
  cbn [res final] in Hclone, Hnow. subst r.
  autorewrite with run. cbv beta.
  destruct o as [listing|output].
  - rewrite (shell_out_success _ _ _ _ _ _ _ Hnow Hrun).
    autorewrite with run. cbv beta iota. autorewrite with run. cbn [res].
    destruct (locate_nearest_version_cases (version_branches listing) needed)
      as (Hfound & _ & Hvalue & Honly).
    split; [|split].
    + intros branch Hres. destruct (Hfound branch Hres) as (version & Hin & ->).
      destruct (version_branches_In listing version Hin)
        as (line & remote & major & minor & M & m & Hline & E & Hmajor & Hminor
            & HM & Hm & _ & Htuple).
      exists line, remote, major, minor, M, m.
      unfold version_key. rewrite Htuple. repeat split; assumption.
    + intros Hres. apply Hvalue in Hres as (version & [Hin| ->] & Hbad); [|assumption].
      destruct (version_branches_In listing version Hin)
        as (_ & _ & _ & _ & M & m & _ & _ & _ & _ & _ & _ & _ & Htuple).
      congruence.
    + exact Honly.
  - rewrite (shell_out_failed _ _ _ _ _ _ _ Hnow Hrun).
    autorewrite with run. cbv beta iota. autorewrite with run. reflexivity.
Qed.

End TranslationBranchMore.

(** The theorem for the French translation of 3.9 in a repository with
    the branches 3.7 and 3.8. *)
Lemma translation_branch_outcome_witness :
  (forall branch,
      res (translation_branch "https://github.com/python/python-docs-fr.git"
             "/srv/docsbuild/3.9/locale/fr/LC_MESSAGES" "3.9"
             (sample_world (fun _ => false) true sample_branches)) = Ok branch ->
      exists line remote major minor M m,
        In line (PyStr.split PyStr.nl sample_branches)
        /\ line = remote +++ "/" +++ major +++ "." +++ minor
        /\ is_digits major = true /\ is_digits minor = true
        /\ PyStr.int major = Some M /\ PyStr.int minor = Some m
        /\ branch = PyStr.str M +++ "." +++ PyStr.str m)
  /\ (res (translation_branch "https://github.com/python/python-docs-fr.git"
             "/srv/docsbuild/3.9/locale/fr/LC_MESSAGES" "3.9"
             (sample_world (fun _ => false) true sample_branches))
      = Raise ValueError ->
      version_to_tuple "3.9" = Raise ValueError)
  /\ (forall e,
         res (translation_branch "https://github.com/python/python-docs-fr.git"
                "/srv/docsbuild/3.9/locale/fr/LC_MESSAGES" "3.9"
                (sample_world (fun _ => false) true sample_branches)) = Raise e ->
         e = IndexError \/ e = ValueError).
Proof.
  exact (translation_branch_outcome "https://github.com/python/python-docs-fr.git"
           "/srv/docsbuild/3.9/locale/fr/LC_MESSAGES" "3.9"
           (sample_world (fun _ => false) true sample_branches)
           (sample_world (fun _ => false) true sample_branches)
           (sample_world (fun _ => false) true sample_branches)
           "2020-01-01 00:00:00" (Completed sample_branches) eq_refl eq_refl eq_refl).
Defined.

(** The branch returned in that world. *)
Example translation_branch_sample :
  res (translation_branch "https://github.com/python/python-docs-fr.git"
         "/srv/docsbuild/3.9/locale/fr/LC_MESSAGES" "3.9"
         (sample_world (fun _ => false) true sample_branches)) = Ok "3.8".
Proof. vm_compute. reflexivity. Qed.

(** ** The purge prefixes *)

Lemma replace_skip (old new a t : string) :
  PyStr.replace_from old new (String.length a) (a +++ t) = PyStr.replace_from old new 0 t.
Proof.
  induction a as [|c a IH]; [reflexivity|].
  simpl. exact IH.
Qed.

Lemma replace_occurrence (old new t : string) :
  PyStr.truthy old = true ->
  PyStr.replace_from old new 0 (old +++ t) = new +++ PyStr.replace_from old new 0 t.
Proof.
  destruct old as [|c old]; [discriminate|]. intros _.
  cbn [append PyStr.replace_from].
  change (String c (old +++ t)) with (String c old +++ t).
  rewrite prefix_append. f_equal.
  replace (String.length (String c old) - 1) with (String.length old)
    by (cbn [String.length]; lia).
  apply replace_skip.
Qed.

Lemma replace_keep (old new u t : string) :
  (forall u1 u2, u = u1 +++ u2 -> PyStr.truthy u2 = true -> prefix old (u2 +++ t) = false) ->
  PyStr.replace_from old new 0 (u +++ t) = u +++ PyStr.replace_from old new 0 t.
Proof.
  induction u as [|c u IH]; intros Hfree; [reflexivity|].
  cbn [append PyStr.replace_from].
  change (String c (u +++ t)) with (String c u +++ t).
  rewrite (Hfree EmptyString (String c u) eq_refl eq_refl).
  cbn [append]. f_equal. apply IH. intros u1 u2 -> Hu2.
  apply (Hfree (String c u1) u2 eq_refl Hu2).
Qed.

(** A string without a newline that starts a line lies within it. *)
Lemma prefix_in_line (old n t : string) :
  PyStr.contains PyStr.nl old = false ->
  prefix old (n +++ String PyStr.nl t) = true ->
  exists b, n = old +++ b.
Proof.
  revert n. induction old as [|c old IH]; intros n Hold Hp; [exists n; reflexivity|].
  simpl in Hold. apply orb_false_elim in Hold as [Hc Hold].
  destruct n as [|d n]; simpl in Hp.
  - destruct (Ascii.ascii_dec c PyStr.nl) as [->|_]; [|discriminate].
    rewrite Ascii.eqb_refl in Hc. discriminate.
  - destruct (Ascii.ascii_dec c d) as [->|]; [|discriminate].
    destruct (IH n Hold Hp) as [b ->]. exists b. reflexivity.
Qed.

Lemma suffix_of_line (name u1 u2 : string) :
  name +++ String PyStr.nl EmptyString = u1 +++ u2 ->
  PyStr.truthy u2 = true ->
  exists n2, name = u1 +++ n2 /\ u2 = n2 +++ String PyStr.nl EmptyString.
Proof.
  revert name. induction u1 as [|c u1 IH]; intros name E Hu2.
  - exists name. simpl in E. auto.
  - destruct name as [|d name]; simpl in E.
    + injection E as <- E. destruct u1; [|discriminate]. simpl in E. subst u2.
      discriminate.
    + injection E as <- E. destruct (IH name E Hu2) as (n2 & -> & ->).
      exists n2. auto.
Qed.

Lemma concat_cons (x : string) (l : list string) :
  String.concat EmptyString (x :: l) = x +++ String.concat EmptyString l.
Proof.
  destruct l as [|y l]; cbn [String.concat]; [|reflexivity].
  rewrite append_empty_r. reflexivity.
Qed.

Lemma split_lines (names : list string) :
  Forall (fun name => PyStr.contains PyStr.nl name = false) names ->
  PyStr.split PyStr.nl
    (String.concat EmptyString
       (map (fun name => name +++ String PyStr.nl EmptyString) names))
  = names ++ [EmptyString].
Proof.
  induction 1 as [|name names Hname _ IH]; [reflexivity|].
  cbn [map]. rewrite concat_cons, append_assoc. cbn [append].
  rewrite (split_app_sep _ _ _ Hname), IH. reflexivity.
Qed.

(** What [alias_prefixes] makes of the lines [find] prints. *)
Lemma alias_prefixes_names (targets_dir : string) (names : list string) :
  PyStr.contains PyStr.nl targets_dir = false ->
  Forall (fun name =>
            PyStr.truthy name = true
            /\ PyStr.contains PyStr.nl name = false
            /\ forall a b, name <> a +++ (targets_dir +++ "/") +++ b) names ->
  alias_prefixes targets_dir (find_output targets_dir names)
  = map (fun name => name +++ "/") names.
Proof.
  intros Hdir Hnames. unfold alias_prefixes, PyStr.replace.
  assert (Hold : PyStr.contains PyStr.nl (targets_dir +++ "/") = false)
    by (rewrite contains_app, Hdir; reflexivity).
  assert (Htruthy : PyStr.truthy (targets_dir +++ "/") = true)
    by (apply truthy_append_r; reflexivity).
  assert (Hreplace :
            PyStr.replace_from (targets_dir +++ "/") EmptyString 0
              (find_output targets_dir names)
            = String.concat EmptyString
                (map (fun name => name +++ String PyStr.nl EmptyString) names)).
  { unfold find_output. induction Hnames as [|name rest (_ & _ & Hfree) _ IH];
      [reflexivity|].
    cbn [map]. rewrite !concat_cons. rewrite <- IH.
    match goal with
    | |- PyStr.replace_from _ _ _ (_ +++ ?rest') = _ =>
        assert (Eassoc :
                  (targets_dir +++ "/" +++ name +++ String PyStr.nl EmptyString) +++ rest'
                  = (targets_dir +++ "/")
                      +++ (name +++ String PyStr.nl EmptyString) +++ rest')
          by (rewrite !append_assoc; reflexivity);
        rewrite Eassoc
    end.
    rewrite (replace_occurrence _ _ _ Htruthy). cbn [append].
    apply replace_keep. intros u1 u2 Eu Hu2.
    destruct (suffix_of_line name u1 u2 Eu Hu2) as (n2 & -> & ->).
    destruct (prefix (targets_dir +++ "/") ((n2 +++ String PyStr.nl EmptyString) +++ _))
      eqn:Hp; [|reflexivity].
    rewrite append_assoc in Hp. cbn [append] in Hp.
    destruct (prefix_in_line _ _ _ Hold Hp) as [b ->].
    destruct (Hfree u1 b). reflexivity. }
  rewrite Hreplace, split_lines.
  - rewrite filter_app. cbn [filter PyStr.truthy]. rewrite app_nil_r.
    f_equal. clear Hreplace.
    induction Hnames as [|name rest (Hname & _) _ IH]; [reflexivity|].
    cbn [filter]. rewrite Hname, IH. reflexivity.
  - eapply Forall_impl; [|exact Hnames]. intros name (_ & Hnl & _). exact Hnl.
Qed.

(** X23. The prefixes of the purge are the paths of the aliases relative
    to the web root, each with a closing slash: when [find] prints the
    target under the names [names] below [targets_dir], one path a
    line, the prefixes are the names, in order, each followed by a
    slash. *)
Theorem alias_prefixes_relative (targets_dir : string) (names : list string) :
  PyStr.contains PyStr.nl targets_dir = false ->
  Forall (fun name =>
            PyStr.truthy name = true
            /\ PyStr.contains PyStr.nl name = false
            /\ forall a b, name <> a +++ (targets_dir +++ "/") +++ b) names ->
  alias_prefixes targets_dir (find_output targets_dir names)
  = map (fun name => name +++ "/") names.
Proof.
  apply alias_prefixes_names.
Qed.

(** The theorem for a target known as 3.8 and as 3. *)
Lemma alias_prefixes_relative_witness :
  alias_prefixes "/srv/docs.python.org" (find_output "/srv/docs.python.org" ["3.8"; "3"])
  = map (fun name => name +++ "/") ["3.8"; "3"].
Proof.
  apply alias_prefixes_relative; [reflexivity|].
  repeat constructor; intros a b E;
    apply (f_equal (PyStr.contains "/")) in E;
    rewrite !contains_app in E; simpl in E; rewrite ?orb_true_r in E; discriminate.
Defined.

(** ** What a publish runs *)

Section RunsOnly.

Context {W : Type} `{Env W}.

Variable P : command -> Prop.

Lemma runs_only_bind {A B : Type} (m : M W A) (k : A -> M W B) :
  runs_only P m -> (forall a, runs_only P (k a)) -> runs_only P (bind m k).
Proof.
  intros Hm Hk w cmd. unfold bind. specialize (Hm w cmd).
  destruct (res (m w)) as [a|e]; cbn [events]; [|assumption].
  rewrite executed_app, in_app_iff. intros [Hin|Hin]; [auto|].
  apply (Hk a _ _ Hin).
Qed.

Lemma runs_only_bind_fails {A B : Type} (m : M W A) (k : A -> M W B) :
  fails m -> runs_only P m -> runs_only P (bind m k).
Proof.
  intros Hf Hm w cmd. unfold bind. destruct (Hf w) as [e E]. rewrite E. apply Hm.
Qed.

Lemma runs_only_try {A : Type} (m : M W A) (catches : exn -> bool)
  (handler : exn -> M W A) :
  runs_only P m -> (forall e, runs_only P (handler e)) ->
  runs_only P (try_except m catches handler).
Proof.
  intros Hm Hh w cmd. unfold try_except. specialize (Hm w cmd).
  destruct (res (m w)) as [a|e]; [assumption|].
  destruct (catches e); [|assumption].
  cbn [events]. rewrite executed_app, in_app_iff. intros [Hin|Hin]; [auto|].
  apply (Hh e _ _ Hin).
Qed.

Lemma runs_only_ret {A : Type} (a : A) : @runs_only W A P (ret a).
Proof. intros w cmd []. Qed.

Lemma runs_only_raise {A : Type} (e : exn) : @runs_only W A P (raise e).
Proof. intros w cmd []. Qed.

Lemma runs_only_logging (lvl : level) (fmt : string) (args : list log_arg) :
  @runs_only W unit P (logging lvl fmt args).
Proof. intros w cmd []. Qed.

Lemma runs_only_fs_call (op : fs_op) : runs_only P (fs_call op).
Proof. intros w cmd. unfold fs_call. destruct (env_fs op w). intros []. Qed.

Lemma runs_only_os_listdir (path : string) : runs_only P (os_listdir path).
Proof. intros w cmd []. Qed.

Lemma runs_only_changed_files_of (left right : string) :
  runs_only P (changed_files_of left right).
Proof. intros w cmd []. Qed.

Lemma runs_only_shell_out (cmd : command) (shell : bool) (logfile : option string) :
  P cmd -> runs_only P (shell_out cmd shell logfile).
Proof.
  intros Hcmd w cmd'.
  destruct (shell_out_effects cmd shell logfile w) as (Hx & _).
  rewrite Hx. intros [<-|[]]. assumption.
Qed.

End RunsOnly.

Ltac runs_step :=
  match goal with
  | |- runs_only _ (bind _ _) => apply runs_only_bind; [|intros ?]
  | |- runs_only _ (try_except _ _ _) => apply runs_only_try; [|intros ?]
  | |- runs_only _ (ret _) => apply runs_only_ret
  | |- runs_only _ (raise _) => apply runs_only_raise
  | |- runs_only _ (logging _ _ _) => apply runs_only_logging
  | |- runs_only _ (fs_call _) => apply runs_only_fs_call
  | |- runs_only _ (os_listdir _) => apply runs_only_os_listdir
  | |- runs_only _ (changed_files_of _ _) => apply runs_only_changed_files_of
  | |- runs_only _ (shell_out _ _ _) => apply runs_only_shell_out
  | |- runs_only _ (if ?b then _ else _) => destruct b
  | |- runs_only _ (match ?x with _ => _ end) => destruct x
  end.

Section MissingOutput.

Context {W : Type} `{Env W}.

Lemma fails_bind_l {A B : Type} (m : M W A) (k : A -> M W B) :
  fails m -> fails (bind m k).
Proof. intros Hm w. destruct (Hm w) as [e E]. exists e. unfold bind. rewrite E. reflexivity. Qed.

Lemma fails_bind_r {A B : Type} (m : M W A) (k : A -> M W B) :
  (forall a, fails (k a)) -> fails (bind m k).
Proof.
  intros Hk w. unfold bind. destruct (res (m w)) as [a|e]; cbn [res]; [|eauto].
  destruct (Hk a (final (m w))) as [e E]. exists e. exact E.
Qed.

(** X24. When the build left no [Doc/build/html], nothing is published:
    [copy_build_to_webroot] does not return normally, and the only
    commands it has run are the chgrp of the directories it prepares;
    no file is copied and no purge is requested. *)
Theorem missing_build_output (build_root version language group : string)
  (quick skip_cache_invalidation : bool) (www_root : string) (w : W) :
  (forall w', env_tree (path_join (checkout_of build_root version language)
                          "Doc/build/html") w' = None) ->
  (exists e, res (copy_build_to_webroot build_root version language group quick
                    skip_cache_invalidation www_root w) = Raise e)
  /\ (forall cmd,
         In cmd (executed (events (copy_build_to_webroot build_root version language
                                     group quick skip_cache_invalidation www_root w))) ->
         is_chgrp group cmd)
  /\ purges (events (copy_build_to_webroot build_root version language group quick
                       skip_cache_invalidation www_root w)) = [].
Proof.
  intros Hmissing.
  assert (Hcompare : forall target,
             @fails W _ (changed_files_of
                           (path_join (checkout_of build_root version language)
                              "Doc/build/html") target)).
  { intros target w'. unfold changed_files_of. cbn [res]. rewrite Hmissing.
    eexists. reflexivity. }
  assert (Hfails : fails (copy_build_to_webroot build_root version language group quick
                            skip_cache_invalidation www_root)).
  { unfold copy_build_to_webroot, publish_build.
    apply fails_bind_l. do 5 (apply fails_bind_r; intros ?).
    apply fails_bind_l. apply Hcompare. }
  assert (Hruns : runs_only (is_chgrp group)
                    (copy_build_to_webroot build_root version language group quick
                       skip_cache_invalidation www_root)).
  { unfold copy_build_to_webroot, publish_build, chgrp_or_warn.
    apply runs_only_bind_fails.
    - do 5 (apply fails_bind_r; intros ?). apply fails_bind_l. apply Hcompare.
    - apply runs_only_bind; [runs_step|intros ?].
      apply runs_only_bind;
        [repeat first [ apply runs_only_shell_out; eexists; reflexivity | runs_step ]
        |intros ?].
      apply runs_only_bind; [runs_step|intros ?].
      apply runs_only_bind; [repeat runs_step|intros ?].
      apply runs_only_bind;
        [repeat first [ apply runs_only_shell_out; eexists; reflexivity | runs_step ]
        |intros ?].
      apply runs_only_bind_fails; [apply Hcompare|runs_step]. }
  split; [apply Hfails|]. split; [apply Hruns|].
  unfold purges.
  destruct (filter is_purge
              (executed (events (copy_build_to_webroot build_root version language group
                                   quick skip_cache_invalidation www_root w))))
    as [|cmd rest] eqn:E; [reflexivity|].
  assert (Hin : In cmd (filter is_purge
                          (executed (events (copy_build_to_webroot build_root version
                                               language group quick
                                               skip_cache_invalidation www_root w)))))
    by (rewrite E; left; reflexivity).
  apply filter_In in Hin as [Hin Hpurge].
  destruct (Hruns w cmd Hin) as [path ->]. discriminate.
Qed.

End MissingOutput.

(** The theorem in a world with nothing in it. *)
Lemma missing_build_output_witness :
  (exists e, res (@copy_build_to_webroot unit bare_world "/srv/docsbuild" "3.8" "fr" "docs"
                    false false "/srv/docs.python.org" tt) = Raise e)
  /\ (forall cmd,
         In cmd (executed (events (@copy_build_to_webroot unit bare_world "/srv/docsbuild"
                                     "3.8" "fr" "docs" false false
                                     "/srv/docs.python.org" tt))) ->
         is_chgrp "docs" cmd)
  /\ purges (events (@copy_build_to_webroot unit bare_world "/srv/docsbuild" "3.8" "fr"
                       "docs" false false "/srv/docs.python.org" tt)) = [].
Proof.
  exact (@missing_build_output unit bare_world "/srv/docsbuild" "3.8" "fr" "docs" false
           false "/srv/docs.python.org" tt (fun _ => eq_refl)).
Defined.

(** ** What a unit can raise *)

Lemma dict_get_key_error {A : Type} (d : list (string * A)) (key : string) (e : exn) :
  dict_get d key = Raise e -> e = KeyError.
Proof.
  induction d as [|[k v] d IH]; simpl.
  - intros [= <-]. reflexivity.
  - destruct (String.eqb k key); [discriminate|assumption].
Qed.

Lemma pep_545_value_error (tag : string) (e : exn) :
  pep_545_tag_to_gettext_tag tag = Raise e -> e = ValueError.
Proof.
  unfold pep_545_tag_to_gettext_tag.
  destruct (negb (PyStr.contains "-" tag)); [discriminate|].
  destruct (PyStr.split "-" tag) as [|? [|? [|? ?]]]; try discriminate;
    intros [= <-]; reflexivity.
Qed.

Lemma changed_files_os_error (left right : option node) (e : exn) :
  changed_files left right = Raise e -> exists err, e = OSError err.
Proof.
  unfold changed_files.
  destruct left as [[?|?|]|]; try (intros [= <-]; eauto).
  destruct right as [[?|?|]|]; try (intros [= <-]; eauto); discriminate.
Qed.

Section Errors.

Context {W : Type} `{Env W}.

Variable P : exn -> Prop.
Hypothesis P_os : forall err, P (OSError err).

Lemma fs_call_os_error (op : fs_op) : raises_only P (fs_call op).
Proof.
  intros w e. unfold fs_call. destruct (env_fs op w) as [[err|] w']; simpl.
  - intros [= <-]. apply P_os.
  - discriminate.
Qed.

Lemma os_listdir_os_error (path : string) : raises_only P (os_listdir path).
Proof.
  intros w e. unfold os_listdir. simpl.
  destruct (env_listdir path w); [|discriminate]. intros [= <-]. apply P_os.
Qed.

Lemma changed_files_of_os_error (left right : string) :
  raises_only P (changed_files_of left right).
Proof.
  intros w e E. apply changed_files_os_error in E as [err ->]. apply P_os.
Qed.

Lemma git_clone_os_error (repository directory : string) (branch : option string) :
  raises_only P (git_clone repository directory branch).
Proof.
  unfold git_clone. apply raises_only_bind; [apply logging_raises|intros _].
  apply raises_only_try.
  - intros w e E Hcatch.
    assert (Hbody : e = AssertionError); [|subst e; discriminate].
    revert w e E Hcatch.
    match goal with
    | |- forall w e, res (?m w) = Raise e -> _ -> _ =>
        assert (Hm : raises_only (fun e => e = AssertionError) m)
    end.
    { repeat first [ apply raises_only_raise; reflexivity | raises_step ]. }
    intros w e E _. apply (Hm w e E).
  - intros _.
    repeat first [ apply fs_call_os_error | raises_step ].
Qed.

End Errors.

Ltac errors_step :=
  first [ apply fs_call_os_error; intros ?; exact I
        | apply os_listdir_os_error; intros ?; exact I
        | apply changed_files_of_os_error; intros ?; exact I
        | apply git_clone_os_error; intros ?; exact I
        | apply raises_only_raise; exact I
        | apply raises_only_lift;
          let e := fresh "e" in let E := fresh "E" in
          intros e E;
          first [ apply dict_get_key_error in E
                | apply pep_545_value_error in E ];
          subst e; exact I
        | raises_step ].

Section UnitErrors.

Context {W : Type} `{Env W}.

Lemma translation_branch_errors (locale_repo locale_clone_dir needed : string) :
  raises_only build_error (translation_branch locale_repo locale_clone_dir needed).
Proof.
  unfold translation_branch. repeat errors_step.
  apply raises_only_lift. intros e E.
  match type of E with
  | locate_nearest_version ?available _ = _ =>
      destruct (locate_nearest_version_cases available needed) as (_ & _ & _ & Honly)
  end.
  destruct (Honly e E) as [-> | ->]; exact I.
Qed.

(** X25. What a unit can raise.  [build_one] raises nothing but
    [KeyError], [ValueError], [IndexError], [AttributeError] and
    [OSError]; [copy_build_to_webroot] raises nothing but
    [AttributeError] and [OSError].  Neither lets a
    [CalledProcessError] out. *)
Theorem unit_errors (version git_branch : string) (isdev quick : bool)
  (venv build_root group log_directory language : string)
  (skip_cache_invalidation : bool) (www_root : string) :
  raises_only build_error
    (build_one version git_branch isdev quick venv build_root group log_directory
       language)
  /\ raises_only publish_error
       (copy_build_to_webroot build_root version language group quick
          skip_cache_invalidation www_root).
Proof.
  split.
  - unfold build_one, build_one_sync, build_one_make.
    repeat first [ apply translation_branch_errors | errors_step ].
  - unfold copy_build_to_webroot, publish_build, purge_cache, chgrp_or_warn.
    repeat errors_step.
Qed.

End UnitErrors.

(** ** A quick publish *)

(** One step of a computation that returned: its first part returned
    too, and the computation goes on from there. *)
Ltac returned_step_in H :=
  match type of H with
  | res (bind ?m ?k ?w) = Ok _ =>
      let a := fresh "a" in
      let E := fresh "E" in
      destruct (res (m w)) as [a|] eqn:E;
      [ rewrite (bind_ok m k w a E) in H;
        repeat rewrite (bind_ok m _ w a E);
        cbn [res final events] in H |- *; cbv beta in H |- *
      | rewrite (bind_raise m k w _ E) in H; discriminate H ]
  end.

(** The same, the world the first part ends in made a variable. *)
Ltac returned_step H :=
  match type of H with
  | res (bind ?m ?k ?w) = Ok _ =>
      let w' := fresh "w" in
      returned_step_in H; set (w' := final (m w)) in *; clearbody w'
  end.

Section QuickPublish.

Context {W : Type} `{Env W}.

Lemma runs_only_bind_value {A B : Type} (P : command -> Prop) (Q : A -> Prop)
  (m : M W A) (k : A -> M W B) :
  runs_only P m ->
  (forall w a, res (m w) = Ok a -> Q a) ->
  (forall a, Q a -> runs_only P (k a)) ->
  runs_only P (bind m k).
Proof.
  intros Hm HQ Hk w cmd. unfold bind. specialize (Hm w cmd). specialize (HQ w).
  destruct (res (m w)) as [a|e]; cbn [events]; [|assumption].
  rewrite executed_app, in_app_iff. intros [Hin|Hin]; [auto|].
  apply (Hk a (HQ a eq_refl) _ _ Hin).
Qed.


(** The target directory the first part of the publish settles on. *)
Lemma publish_target (group version language www_root : string) (w : W) :
  returns (fun target => target = target_of www_root version language)
    (res ((if String.eqb language "en" then ret (path_join www_root version)
           else
             fs_call (Makedirs (path_join www_root language) 511 true) ;;
             chgrp_or_warn group (path_join www_root language) ;;
             fs_call (Chmod (path_join www_root language) 509) ;;
             ret (path_join (path_join www_root language) version)) w)).
Proof.
  unfold target_of. destruct (String.eqb language "en"); [reflexivity|].
  do 3 (apply returns_bind; intros ? ?). reflexivity.
Qed.

(** What the publish returns: the target directory and the files
    [changed_files] found when the target was ready, followed, unless
    the publish is quick, by the archives directory and the names
    [os.listdir] found in it. *)
Lemma publish_build_value (build_root version language group : string) (quick : bool)
  (www_root : string) (w : W) (target : string) (changed : list string) :
  res (publish_build build_root version language group quick www_root w)
  = Ok (target, changed) ->
  target = target_of www_root version language
  /\ res (publish_prepare group version language www_root w) = Ok target
  /\ exists diff,
       changed_files
         (env_tree (path_join (checkout_of build_root version language)
                      "Doc/build/html")
            (final (publish_prepare group version language www_root w)))
         (env_tree target (final (publish_prepare group version language www_root w)))
       = Ok diff
       /\ if quick then changed = diff
          else exists names,
                 env_listdir (path_join target "archives")
                   (final (publish_build build_root version language group quick
                             www_root w)) = inr names
                 /\ changed
                    = diff ++ "archives/" :: map (fun fn => "archives/" +++ fn) names.
Proof.
  intros Hres.
  unfold publish_build in *. unfold publish_prepare.
  do 2 returned_step Hres.
  pose proof (publish_target group version language www_root w0) as Ht.
  rewrite E0 in Ht. cbn [returns] in Ht. subst a0.
  do 3 returned_step Hres.
  returned_step_in Hres.
  unfold changed_files_of in E4 at 1. unfold changed_files_of at 1.
  unfold changed_files_of in Hres at 1. cbn [res final] in E4, Hres |- *.
  do 5 returned_step Hres.
  destruct quick; cbn [negb] in *.
  - injection Hres as <- <-. unfold ret. cbn [res final].
    split; [reflexivity|]. split; [reflexivity|]. exists a3. auto.
  - do 6 returned_step Hres. returned_step_in Hres.
    unfold os_listdir in E16 at 1. unfold os_listdir at 1. cbn [res final] in E16 |- *.
    injection Hres as <- <-. unfold ret. cbn [res final].
    split; [reflexivity|]. split; [reflexivity|]. exists a3. split; [assumption|].
    destruct (env_listdir _ _) as [err|names]; [discriminate|].
    injection E16 as <-. exists names. auto.
Qed.

Ltac pick_command :=
  solve [ reflexivity | eexists; reflexivity | left; pick_command | right; pick_command ].

(** X26. A quick publish removes nothing and leaves the archives alone:
    the only commands [copy_build_to_webroot] runs with [quick] are the
    chgrp of the directories, the chown, chmod and find on the built
    pages, a plain [rsync -a] of the pages to the target (no
    [--delete-delay]), the lookup of the aliases and the purge; and the
    list of changes it purges is what [changed_files] found between the
    build and the target once the target was made ready, before the
    copy, with no archive entry. *)
Theorem quick_publish (build_root version language group : string)
  (skip_cache_invalidation : bool) (www_root : string) (w : W) :
  (forall cmd,
      In cmd (executed (events (copy_build_to_webroot build_root version language group
                                  true skip_cache_invalidation www_root w))) ->
      quick_command build_root version language group www_root cmd)
  /\ (forall target changed,
         res (publish_build build_root version language group true www_root w)
         = Ok (target, changed) ->
         target = target_of www_root version language
         /\ changed_files
              (env_tree (path_join (checkout_of build_root version language)
                           "Doc/build/html")
                 (final (publish_prepare group version language www_root w)))
              (env_tree target
                 (final (publish_prepare group version language www_root w)))
            = Ok changed).
Proof.
  split.
  - revert w.
    change (runs_only (quick_command build_root version language group www_root)
              (copy_build_to_webroot build_root version language group true
                 skip_cache_invalidation www_root)).
    unfold copy_build_to_webroot.
    apply (runs_only_bind_value _
             (fun published => fst published = target_of www_root version language)).
    + unfold publish_build.
      apply runs_only_bind; [runs_step|intros _].
      apply (runs_only_bind_value _
               (fun target => target = target_of www_root version language)).
      * unfold chgrp_or_warn.
        repeat first [ apply runs_only_shell_out; unfold quick_command; pick_command
                     | runs_step ].
      * intros w' target Htarget.
        pose proof (publish_target group version language www_root w') as Ht.
        rewrite Htarget in Ht. exact Ht.
      * intros target ->. unfold chgrp_or_warn. cbn [negb].
        repeat first [ apply runs_only_shell_out; unfold quick_command; pick_command
                     | runs_step ].
    + intros w' [target changed] Hpublished.
      apply (publish_build_value _ _ _ _ _ _ _ _ _ Hpublished).
    + intros [target changed] Htarget. cbn [fst snd] in *. subst target.
      unfold purge_cache.
      repeat first [ apply runs_only_shell_out; unfold quick_command; pick_command
                   | runs_step ].
  - intros target changed Hres.
    destruct (publish_build_value _ _ _ _ _ _ _ _ _ Hres)
      as (Htarget & _ & diff & Hdiff & ->).
    split; assumption.
Qed.

End QuickPublish.

(** ** build_one: a translation *)


Section TranslatedBuild.

Context {W : Type} `{Env W}.


End TranslatedBuild.


(** ** locate_nearest_version: any dotted versions *)

Lemma map_result_parsed (available : list string) :
  (forall v, In v available -> exists k, version_to_tuple v = Ok k) ->
  map_result version_to_tuple available = Ok (map version_key available).
Proof.
  induction available as [|v l IH]; intros Hall; [reflexivity|].
  simpl. unfold version_key at 1.
  destruct (Hall v (or_introl eq_refl)) as [k ->].
  rewrite IH by (intros u Hu; apply Hall; right; assumption).
  reflexivity.
Qed.

(** X28. The rule of [locate_nearest_version] holds for every notation of
    the versions, two components or not, leading zeros or not: on a
    non-empty list of versions that parse, sorted by their tuples, and a
    target that parses, it returns the printed tuple of the smallest
    member not below the target or, when every member is below the
    target, of the largest member. *)
Theorem locate_nearest_version_sorted (available : list string) (t : string) :
  available <> [] ->
  (forall v, In v available \/ v = t -> exists k, version_to_tuple v = Ok k) ->
  sorted_versions available = true ->
  exists v,
    In v available
    /\ locate_nearest_version available t = Ok (tuple_to_version (version_key v))
    /\ ((version_le t v
         /\ forall u, In u available -> version_le t u -> version_le v u)
        \/ ((forall u, In u available -> version_lt u t)
            /\ forall u, In u available -> version_le u v)).
Proof.
  intros Hne Hparse Hs.
  unfold locate_nearest_version, list_index.
  rewrite (map_result_parsed available) by (intros v Hv; apply Hparse; left; assumption).
  assert (Ht : version_to_tuple t = Ok (version_key t)).
  { unfold version_key. destruct (Hparse t (or_intror eq_refl)) as [k ->]. reflexivity. }
  rewrite Ht.
  pose proof (length_map version_key available) as Hlen.
  destruct (bisect_spec (map version_key available) (version_key t) Hs)
    as (Hk & Hbelow0 & Habove0).
  set (k := bisect (map version_key available) (version_key t)) in *.
  rewrite Hlen in Hk, Habove0.
  assert (Hbelow : forall j, j < k ->
            tuple_ltb (version_key (nth j available EmptyString)) (version_key t) = true).
  { intros j Hj. rewrite <- nth_key by lia. apply Hbelow0. assumption. }
  assert (Habove : forall j, k <= j -> j < length available ->
            tuple_ltb (version_key (nth j available EmptyString)) (version_key t) = false).
  { intros j Hj Hl. rewrite <- nth_key by lia. apply Habove0; assumption. }
  assert (Hsorted : forall i j, i <= j -> j < length available ->
            version_le (nth i available EmptyString) (nth j available EmptyString)).
  { intros i j Hij Hj. unfold version_le. rewrite <- !nth_key by lia.
    apply sorted_tuples_nth; [exact Hs|assumption|rewrite Hlen; assumption]. }
  clear Hbelow0 Habove0.
  assert (Hpos : 0 < length available) by (destruct available; [congruence|simpl; lia]).
  assert (Hindex : forall v, In v available ->
                     exists j, j < length available /\ nth j available EmptyString = v).
  { intros v Hv. destruct (In_nth _ _ EmptyString Hv) as (j & Hj & E). eauto. }
  destruct (Nat.lt_ge_cases k (length available)) as [Hin|Hout].
  - rewrite (nth_error_nth' (map version_key available) []) by (rewrite Hlen; assumption).
    rewrite (nth_key available k Hin).
    exists (nth k available EmptyString).
    split; [apply nth_In; assumption|]. split; [reflexivity|].
    left. split.
    + unfold version_le. apply Habove; lia.
    + intros v Hv Hle. destruct (Hindex v Hv) as (j & Hj & <-).
      destruct (Nat.lt_ge_cases j k) as [Hjk|Hjk].
      * unfold version_le in Hle. rewrite (Hbelow j Hjk) in Hle. discriminate.
      * apply Hsorted; assumption.
  - rewrite (proj2 (nth_error_None (map version_key available) k)) by (rewrite Hlen; lia).
    rewrite (list_last_nth (map version_key available) []) by (rewrite Hlen; assumption).
    rewrite Hlen.
    set (m := length available - 1).
    assert (Hm : m < length available) by (unfold m; lia).
    rewrite (nth_key available m Hm).
    exists (nth m available EmptyString).
    split; [apply nth_In; assumption|]. split; [reflexivity|].
    right. split.
    + intros v Hv. destruct (Hindex v Hv) as (j & Hj & <-).
      unfold version_lt. apply Hbelow. lia.
    + intros v Hv. destruct (Hindex v Hv) as (j & Hj & <-).
      apply Hsorted; [unfold m; lia|assumption].
Qed.

(** The theorem for patch-level versions and a version written with a
    leading zero. *)
Lemma locate_nearest_version_sorted_witness :
  exists v,
    In v ["3.07"; "3.8.1"; "3.10"]
    /\ locate_nearest_version ["3.07"; "3.8.1"; "3.10"] "3.8"
       = Ok (tuple_to_version (version_key v))
    /\ ((version_le "3.8" v
         /\ forall u, In u ["3.07"; "3.8.1"; "3.10"] -> version_le "3.8" u ->
                      version_le v u)
        \/ ((forall u, In u ["3.07"; "3.8.1"; "3.10"] -> version_lt u "3.8")
            /\ forall u, In u ["3.07"; "3.8.1"; "3.10"] -> version_le u v)).
Proof.
  apply locate_nearest_version_sorted; [discriminate| |reflexivity].
  intros v [[<-|[<-|[<-|[]]]]| ->]; eexists; reflexivity.
Defined.

Example locate_nearest_version_patch_level :
  locate_nearest_version ["3.07"; "3.8.1"; "3.10"] "3.8" = Ok "3.8.1"
  /\ locate_nearest_version ["3.07"; "3.8.1"; "3.10"] "3.7" = Ok "3.7".
Proof. vm_compute. split; reflexivity. Qed.

(** ** The purge of a publish *)

Section PurgeRequest.

Context {W : Type} `{Env W}.


End PurgeRequest.


Example purge_request_of_two_pages :
  purges (events (purge_cache ["index.html"; "library/os.html"] false
                    "/srv/docs.python.org" "/srv/docs.python.org/3.8"
                    (sample_world (fun _ => false) true sample_branches)))
  = [Argv ["curl"; "-XPURGE";
           "https://docs.python.org/{3.8/,3/,3.8/index.html,3.8/library/os.html,3/index.html,3/library/os.html}"]].
Proof. vm_compute. reflexivity. Qed.


(** ** The purge of a publish that is not quick *)

Section NonQuickPublish.

Context {W : Type} `{Env W}.




End NonQuickPublish.



Example nonquick_publish_sample_changes :
  res (publish_build "/srv/docsbuild" "3.8" "en" "docs" false "/srv/docs.python.org"
         (sample_world (fun _ => false) true sample_branches))
  = Ok ("/srv/docs.python.org/3.8",
        ["index.html"; "library/os.html"; "archives/";
         "archives/python-3.8-docs-html.zip"]).
Proof. vm_compute. reflexivity. Qed.


(** ** A failed build and the publish step *)

Section FailedBuild.

Context {W : Type} `{Env W}.


End FailedBuild.


(** The same unit when the log file cannot be opened: the unit ends in
    [build_one] and nothing is published. *)
Example failed_build_log_refused :
  res (build_one "3.8" "3.8" false false "/srv/docsbuild/venv" "/srv/docsbuild" "docs"
         "/var/log/docsbuild/" "en"
         (with_append no_append (sample_world (argv_has "make") true sample_branches)))
  = Raise (OSError PermissionError)
  /\ records INFO "Publishing start for version: %s, language: %s"
       (events (build_unit sample_arguments "/srv/docsbuild/venv" ("3.8", "3.8", false)
                  "en"
                  (with_append no_append
                     (sample_world (argv_has "make") true sample_branches)))) = []
  /\ records ERROR "Exception while building %s version %s: %s"
       (events (build_unit sample_arguments "/srv/docsbuild/venv" ("3.8", "3.8", false)
                  "en"
                  (with_append no_append
                     (sample_world (argv_has "make") true sample_branches))))
     = [[AStr "en"; AStr "3.8"; AExn (OSError PermissionError)]].
Proof. vm_compute. repeat split; reflexivity. Qed.
